(** * SNMP collector: shallow embedding of the data plane and its properties

    The development follows the Go packages of the collector:
    - [Go]        the parts of the Go base library the code calls
                  (strings, fmt, time), as documented by Go;
    - [Models]    package models (Device, Metric, TrapInfo, ...);
    - [Trap]      package snmp/trap (v1 / v2c / v3 trap header parsing);
    - [Decoder]   package snmp/decoder (OID matching, instance extraction,
                  Decode);
    - [Metrics]   package producer/metrics (enum registry, counter state,
                  Build, the producer);
    - [Poller]    package poller (the connection pool, the SNMP
                  operations of a poll);
    - [Scheduler] package scheduler (ResolveJobs, jobsByHostname).

    Part I embeds the code, Part II names what the properties speak
    of and gives the sample inputs, Part III states and proves the
    properties: those of the specification, each under the number (C1
    to C10) it has in its list of properties, and further properties of
    the code (X1 to X30).

    Go strings are byte sequences: they are [string]s, one [ascii] per
    byte.  Go maps are [gmap]s; where the code ranges over a map, the
    order of the visit is taken from a [MapOrder], any enumeration of
    the entries, since Go leaves that order unspecified.  Machine
    integers are [Z] with the wrap-around written out. *)

From Stdlib Require Import ZArith Ascii String List DecimalString.
From stdpp Require Import gmap strings list sorting.

(* ===================================================================== *)
(** * Part I: the embedding *)
(* ===================================================================== *)

(** ** Go base library *)
Module Go.

Definition bytes (s : string) : list ascii := String.list_ascii_of_string s.
Definition of_bytes (l : list ascii) : string := String.string_of_list_ascii l.

(** unicode.IsSpace on the UTF-8 encoded runes: the six ASCII spaces,
    U+0085 and U+00A0 (two bytes), and U+1680, U+2000..U+200A, U+2028,
    U+2029, U+202F, U+205F, U+3000 (three bytes). *)
Definition ascii_space (c : ascii) : bool :=
  let n := N_of_ascii c in
  ((9 <=? n) && (n <=? 13) || (n =? 32))%N.

Definition space2 (a b : ascii) : bool :=
  ((N_of_ascii a =? 194) &&
   ((N_of_ascii b =? 133) || (N_of_ascii b =? 160)))%N.

Definition space3 (a b c : ascii) : bool :=
  let x := N_of_ascii a in
  let y := N_of_ascii b in
  let z := N_of_ascii c in
  (((x =? 225) && (y =? 154) && (z =? 128))
   || ((x =? 226) && (y =? 128) &&
       ((128 <=? z) && (z <=? 138) || (z =? 168) || (z =? 169) || (z =? 175)))
   || ((x =? 226) && (y =? 129) && (z =? 159))
   || ((x =? 227) && (y =? 128) && (z =? 128)))%N.

(** strings.TrimLeftFunc(s, unicode.IsSpace) *)
Fixpoint trimLeft (l : list ascii) : list ascii :=
  match l with
  | [] => []
  | a :: l1 =>
      if ascii_space a then trimLeft l1
      else match l1 with
           | [] => l
           | b :: l2 =>
               if space2 a b then trimLeft l2
               else match l2 with
                    | [] => l
                    | c :: l3 => if space3 a b c then trimLeft l3 else l
                    end
           end
  end.

(** The same from the right, on the reversed byte sequence: the last
    rune is decoded backwards from the end of the string. *)
Fixpoint trimRightRev (l : list ascii) : list ascii :=
  match l with
  | [] => []
  | c :: l1 =>
      if ascii_space c then trimRightRev l1
      else match l1 with
           | [] => l
           | b :: l2 =>
               if space2 b c then trimRightRev l2
               else match l2 with
                    | [] => l
                    | a :: l3 => if space3 a b c then trimRightRev l3 else l
                    end
           end
  end.

(** strings.TrimSpace *)
Definition TrimSpace (s : string) : string :=
  of_bytes (rev (trimRightRev (rev (trimLeft (bytes s))))).

(** strings.HasPrefix, strings.HasSuffix *)
Definition HasPrefix (s p : string) : bool := String.prefix p s.

Definition HasSuffix (s p : string) : bool :=
  String.prefix (of_bytes (rev (bytes p))) (of_bytes (rev (bytes s))).

(** s[i:] and s[:j] *)
Definition slice_from (s : string) (i : nat) : string :=
  String.substring i (String.length s - i) s.
Definition slice_to (s : string) (j : nat) : string :=
  String.substring 0 j s.

(** strings.TrimPrefix, strings.TrimSuffix *)
Definition TrimPrefix (s p : string) : string :=
  if HasPrefix s p then slice_from s (String.length p) else s.

Definition TrimSuffix (s p : string) : string :=
  if HasSuffix s p then slice_to s (String.length s - String.length p) else s.

(** strings.LastIndex(s, sep): the byte index of the last occurrence
    of [sep] in [s], or -1. *)
Fixpoint LastIndex_from (pos : Z) (s sep : string) : Z :=
  match s with
  | EmptyString => if String.prefix sep s then pos else (-1)%Z
  | String _ s' =>
      let r := LastIndex_from (pos + 1)%Z s' sep in
      if (0 <=? r)%Z then r
      else if String.prefix sep s then pos else (-1)%Z
  end.

Definition LastIndex (s sep : string) : Z := LastIndex_from 0%Z s sep.

(** strconv.FormatInt(x, 10) and the verb %d *)
Definition FormatInt (x : Z) : string := NilZero.string_of_int (Z.to_int x).

(** strings.Join *)
Definition Join (l : list string) (sep : string) : string :=
  String.concat sep l.

(** strings.Split(s, sep) for a separator of one byte, which is how
    the program calls it: the pieces of [s] between the separators,
    one piece for a string without separator, the empty string
    included. *)
Fixpoint Split (s : string) (sep : ascii) : list string :=
  match s with
  | EmptyString => [EmptyString]
  | String c s' =>
      if decide (c = sep) then EmptyString :: Split s' sep
      else match Split s' sep with
           | piece :: pieces => String c piece :: pieces
           | [] => [String c EmptyString]
           end
  end.

(** Two's-complement readings of a mathematical integer. *)
Definition wrap_uint64 (x : Z) : Z := (x mod 2 ^ 64)%Z.
Definition wrap_int64 (x : Z) : Z := ((x + 2 ^ 63) mod 2 ^ 64 - 2 ^ 63)%Z.
Definition wrap_int32 (x : Z) : Z := ((x + 2 ^ 31) mod 2 ^ 32 - 2 ^ 31)%Z.

(** big.Int.Uint64: the low 64 bits of the absolute value. *)
Definition BigUint64 (x : Z) : Z := wrap_uint64 (Z.abs x).

(** A value of type interface{}: the dynamic types the collector
    switches on.  Integers carry their value, a float64 its IEEE bits. *)
Inductive Value : Type :=
| VNil
| VBool (b : bool)
| VString (s : string)
| VBytes (b : string)
| VInt (x : Z)
| VInt32 (x : Z)
| VInt64 (x : Z)
| VUint (x : Z)
| VUint32 (x : Z)
| VUint64 (x : Z)
| VFloat64 (bits : Z).

(** Two library routines are left to the caller: the shortest decimal
    rendering of a float64 (verbs %g and %v of package fmt), and
    gosnmp.ToBigInt, read as a mathematical integer. *)
Class Extern : Type := {
  fmt_g : Z → string;
  ToBigInt : Value → Z
}.

(** The verb %02X on a byte. *)
Definition hex_digit (n : N) : ascii :=
  if (n <? 10)%N then ascii_of_N (48 + n) else ascii_of_N (55 + n).

Definition FormatHex2 (b : Z) : string :=
  let n := Z.to_N (b mod 256)%Z in
  String (hex_digit (n / 16)) (String (hex_digit (n mod 16)) EmptyString).

(** fmt.Sprintf("%v", v) *)
Definition Sprint_v `{Extern} (v : Value) : string :=
  match v with
  | VNil => "<nil>"
  | VBool b => if b then "true" else "false"
  | VString s => s
  | VBytes b =>
      "[" +:+ Join (map (λ c, FormatInt (Z.of_N (N_of_ascii c))) (bytes b)) " " +:+ "]"
  | VInt x | VInt32 x | VInt64 x | VUint x | VUint32 x | VUint64 x => FormatInt x
  | VFloat64 f => fmt_g f
  end.

(** time.Time as nanoseconds since the zero instant; time.Duration as
    int64 nanoseconds.  [Sub] saturates as Go's does. *)
Definition Time : Type := Z.
Definition Duration : Type := Z.

Definition IsZero (t : Time) : bool := (t =? 0)%Z.
Definition maxDuration : Duration := (2 ^ 63 - 1)%Z.
Definition minDuration : Duration := (- 2 ^ 63)%Z.

Definition Sub (t u : Time) : Duration :=
  let d := (t - u)%Z in
  if (maxDuration <? d)%Z then maxDuration
  else if (d <? minDuration)%Z then minDuration
  else d.

(** Duration.Milliseconds: the integer division of Go, towards zero. *)
Definition Milliseconds (d : Duration) : Z := (d ÷ 1000000)%Z.

Definition Add (t : Time) (d : Duration) : Time := (t + d)%Z.
Definition Before (t u : Time) : bool := (t <? u)%Z.
Definition Second : Duration := 1000000000%Z.

(** Ranging over a map visits every entry once, in an order Go does
    not specify.  A [MapOrder] fixes the order of every range
    statement of one run; the [site] tells the statements apart. *)
Record MapOrder : Type := {
  range_of : ∀ A : Type, string → gmap string A → list (string * A);
  range_perm : ∀ (A : Type) (site : string) (m : gmap string A),
      range_of A site m ≡ₚ map_to_list m
}.

Definition range {A : Type} (o : MapOrder) (site : string)
    (m : gmap string A) : list (string * A) :=
  range_of o A site m.

(** The order in which [gmap] happens to list its entries. *)
Definition canonical_order : MapOrder :=
  {| range_of := λ A _ m, map_to_list m;
     range_perm := λ A _ m, reflexivity (map_to_list m) |}.

End Go.

Export Go(Value(..), Extern, MapOrder).

(** ** Package gosnmp: the wire library's data, as the collector reads it *)
Module Gosnmp.

(** SnmpVersion *)
Definition Version1 : Z := 0.
Definition Version2c : Z := 1.
Definition Version3 : Z := 3.

(** Asn1BER type tags *)
Definition Integer : Z := 2.
Definition BitString : Z := 3.
Definition OctetString : Z := 4.
Definition Null : Z := 5.
Definition ObjectIdentifier : Z := 6.
Definition ObjectDescription : Z := 7.
Definition IPAddress : Z := 64.
Definition Counter32 : Z := 65.
Definition Gauge32 : Z := 66.
Definition TimeTicks : Z := 67.
Definition Opaque : Z := 68.
Definition NsapAddress : Z := 69.
Definition Counter64 : Z := 70.
Definition Uinteger32 : Z := 71.
Definition OpaqueFloat : Z := 120.
Definition OpaqueDouble : Z := 121.
Definition NoSuchObject : Z := 128.
Definition NoSuchInstance : Z := 129.
Definition EndOfMibView : Z := 130.

Record SnmpPDU : Type := {
  Name : string;
  Type_ : Z;
  Value : Go.Value
}.

(** The fields of SnmpPacket (with its embedded SnmpTrap) that the
    trap parser reads. *)
Record SnmpPacket : Type := {
  Version : Z;
  Variables : list SnmpPDU;
  Enterprise : string;
  AgentAddress : string;
  GenericTrap : Z;
  SpecificTrap : Z
}.

End Gosnmp.

(** ** Package models *)
Module Models.

Module Device.
Record t : Type := {
  Hostname : string;
  IPAddress : string;
  SNMPVersion : string;
  Vendor : string;
  Model : string;
  SysDescr : string;
  SysLocation : string;
  SysContact : string;
  Tags : gmap string string
}.
End Device.

Module Metric.
Record t : Type := {
  OID : string;
  Name : string;
  Instance : string;
  Value : Go.Value;
  Type_ : string;
  Syntax : string;
  Tags : gmap string string
}.
End Metric.

Module MetricMetadata.
Record t : Type := {
  CollectorID : string;
  PollDurationMs : Z;
  PollStatus : string
}.
End MetricMetadata.

Module SNMPMetric.
Record t : Type := {
  Timestamp : Go.Time;
  Device : Device.t;
  Metrics : list Metric.t;
  Metadata : MetricMetadata.t
}.
End SNMPMetric.

Module TrapInfo.
Record t : Type := {
  Version : string;
  EnterpriseOID : string;
  GenericTrap : Z;
  SpecificTrap : Z;
  TrapOID : string;
  TrapName : string;
  Severity : string
}.
End TrapInfo.

Module SNMPTrap.
Record t : Type := {
  Timestamp : Go.Time;
  Device : Device.t;
  TrapInfo : TrapInfo.t;
  Varbinds : list Metric.t
}.
End SNMPTrap.

Module OverrideReference.
Record t : Type := {
  Object : string;
  Attribute : string
}.
End OverrideReference.

Module AttributeDefinition.
Record t : Type := {
  OID : string;
  Name : string;
  Syntax : string;
  IsTag : bool;
  Overrides : option OverrideReference.t;
  Rediscover : string
}.
End AttributeDefinition.

Module IndexDefinition.
Record t : Type := {
  Type_ : string;
  OID : string;
  Name : string;
  Syntax : string
}.
End IndexDefinition.

Module ObjectDefinition.
Record t : Type := {
  Key : string;
  MIB : string;
  Object : string;
  Augments : string;
  Index : list IndexDefinition.t;
  DiscoveryAttribute : string;
  Attributes : gmap string AttributeDefinition.t
}.
End ObjectDefinition.

(** Zero values *)
Definition zeroDevice : Device.t :=
  {| Device.Hostname := ""; Device.IPAddress := ""; Device.SNMPVersion := "";
     Device.Vendor := ""; Device.Model := ""; Device.SysDescr := "";
     Device.SysLocation := ""; Device.SysContact := ""; Device.Tags := ∅ |}.

Definition zeroTrapInfo : TrapInfo.t :=
  {| TrapInfo.Version := ""; TrapInfo.EnterpriseOID := "";
     TrapInfo.GenericTrap := 0; TrapInfo.SpecificTrap := 0;
     TrapInfo.TrapOID := ""; TrapInfo.TrapName := ""; TrapInfo.Severity := "" |}.

Definition zeroAttribute : AttributeDefinition.t :=
  {| AttributeDefinition.OID := ""; AttributeDefinition.Name := "";
     AttributeDefinition.Syntax := ""; AttributeDefinition.IsTag := false;
     AttributeDefinition.Overrides := None; AttributeDefinition.Rediscover := "" |}.

End Models.

(** ** Package snmp/trap *)
Module Trap.
Import Models.

Definition oidSysUpTime : string := ".1.3.6.1.2.1.1.3.0".
Definition oidSnmpTrapOID : string := ".1.3.6.1.6.3.1.1.4.1.0".

Inductive error : Type :=
| ErrNilPacket
| ErrUnsupportedVersion (v : Z).

(** normaliseOID: a leading dot, no trailing dot. *)
Definition normaliseOID (oid : string) : string :=
  let oid := Go.TrimSpace oid in
  if decide (oid = "") then ""
  else
    let oid := if Go.HasPrefix oid "." then oid else "." +:+ oid in
    Go.TrimSuffix oid ".".

Definition snmpVersionString (v : Z) : string :=
  if decide (v = Gosnmp.Version1) then "1"
  else if decide (v = Gosnmp.Version2c) then "2c"
  else if decide (v = Gosnmp.Version3) then "3"
  else "unknown".

(** [remoteAddr] is the text of the sender's IP address, [None] for a
    nil address. *)
Definition deviceFromPacket (pkt : Gosnmp.SnmpPacket)
    (remoteAddr : option string) : Device.t :=
  let ip := match remoteAddr with Some a => a | None => "" end in
  let ip :=
    if decide (Gosnmp.Version pkt = Gosnmp.Version1
               ∧ Gosnmp.AgentAddress pkt ≠ "")
    then Gosnmp.AgentAddress pkt else ip in
  {| Device.Hostname := ""; Device.IPAddress := ip;
     Device.SNMPVersion := snmpVersionString (Gosnmp.Version pkt);
     Device.Vendor := ""; Device.Model := ""; Device.SysDescr := "";
     Device.SysLocation := ""; Device.SysContact := ""; Device.Tags := ∅ |}.

(** parsev1Info: the header fields of a v1 trap, and the TrapOID
    synthesised after RFC 3584, section 3.1. *)
Definition parsev1Info (pkt : Gosnmp.SnmpPacket) : TrapInfo.t :=
  let generic := Gosnmp.GenericTrap pkt in
  let trapOID :=
    if decide (0 ≤ generic ∧ generic < 6)%Z
    then ".1.3.6.1.6.3.1.1.5." +:+ Go.FormatInt (generic + 1)
    else
      let ent := Go.TrimSuffix (normaliseOID (Gosnmp.Enterprise pkt)) "." in
      ent +:+ ".0." +:+ Go.FormatInt (Gosnmp.SpecificTrap pkt) in
  {| TrapInfo.Version := "v1";
     TrapInfo.EnterpriseOID := normaliseOID (Gosnmp.Enterprise pkt);
     TrapInfo.GenericTrap := Go.wrap_int32 generic;
     TrapInfo.SpecificTrap := Go.wrap_int32 (Gosnmp.SpecificTrap pkt);
     TrapInfo.TrapOID := trapOID;
     TrapInfo.TrapName := ""; TrapInfo.Severity := "" |}.

(** The search loop of parsev2Info: the index of the first varbind
    named snmpTrapOID.0, counting from [i], or -1. *)
Fixpoint findTrapOID (vars : list Gosnmp.SnmpPDU) (i : Z) : Z :=
  match vars with
  | [] => (-1)%Z
  | v :: rest =>
      if decide (normaliseOID (Gosnmp.Name v) = oidSnmpTrapOID) then i
      else findTrapOID rest (i + 1)%Z
  end.

Definition withTrapOID (info : TrapInfo.t) (oid : string) : TrapInfo.t :=
  {| TrapInfo.Version := TrapInfo.Version info;
     TrapInfo.EnterpriseOID := TrapInfo.EnterpriseOID info;
     TrapInfo.GenericTrap := TrapInfo.GenericTrap info;
     TrapInfo.SpecificTrap := TrapInfo.SpecificTrap info;
     TrapInfo.TrapOID := oid;
     TrapInfo.TrapName := TrapInfo.TrapName info;
     TrapInfo.Severity := TrapInfo.Severity info |}.

(** parsev2Info returns the header, the payload varbinds and an error
    (always nil).  Indexing [vars] at the found position cannot fail;
    the branch that would be Go's index panic returns [None]. *)
Definition parsev2Info `{Extern} (pkt : Gosnmp.SnmpPacket)
    : option (TrapInfo.t * list Gosnmp.SnmpPDU * option error) :=
  let info :=
    {| TrapInfo.Version := "v" +:+ snmpVersionString (Gosnmp.Version pkt);
       TrapInfo.EnterpriseOID := ""; TrapInfo.GenericTrap := 0;
       TrapInfo.SpecificTrap := 0; TrapInfo.TrapOID := "";
       TrapInfo.TrapName := ""; TrapInfo.Severity := "" |} in
  let vars := Gosnmp.Variables pkt in
  let remaining := vars in
  let trapOIDIdx := findTrapOID vars 0 in
  if decide (trapOIDIdx < 0)%Z then Some (info, remaining, None)
  else
    match vars !! Z.to_nat trapOIDIdx with
    | None => None
    | Some v =>
        let rawOID := Go.Sprint_v (Gosnmp.Value v) in
        Some (withTrapOID info (normaliseOID rawOID),
              drop (Z.to_nat (trapOIDIdx + 1)) vars, None)
    end.

Definition isErrorPDU (t : Z) : bool :=
  bool_decide (t = Gosnmp.NoSuchObject ∨ t = Gosnmp.NoSuchInstance
               ∨ t = Gosnmp.EndOfMibView ∨ t = Gosnmp.Null).

Definition isPrintable (b : string) : bool :=
  forallb (λ c,
    let n := N_of_ascii c in
    negb ((n <? 32) && negb (n =? 9) && negb (n =? 10) && negb (n =? 13))%N
    && negb (126 <? n)%N) (Go.bytes b).

Definition convertPDUValue `{Extern} (pdu : Gosnmp.SnmpPDU) : Go.Value :=
  let t := Gosnmp.Type_ pdu in
  let v := Gosnmp.Value pdu in
  if decide (t = Gosnmp.OctetString) then
    match v with
    | VBytes b => if isPrintable b then VString b else VBytes b
    | _ => VString (Go.Sprint_v v)
    end
  else if decide (t = Gosnmp.ObjectIdentifier) then
    VString (normaliseOID (Go.Sprint_v v))
  else if decide (t = Gosnmp.IPAddress) then VString (Go.Sprint_v v)
  else if decide (t = Gosnmp.Integer) then VInt64 (Go.wrap_int64 (Go.ToBigInt v))
  else if decide (t = Gosnmp.Counter32 ∨ t = Gosnmp.Gauge32
                  ∨ t = Gosnmp.TimeTicks ∨ t = Gosnmp.Uinteger32)
  then VUint64 (Go.BigUint64 (Go.ToBigInt v))
  else if decide (t = Gosnmp.Counter64) then VUint64 (Go.BigUint64 (Go.ToBigInt v))
  else VString (Go.Sprint_v v).

Definition pduTypeString (t : Z) : string :=
  if decide (t = Gosnmp.Integer) then "Integer"
  else if decide (t = Gosnmp.OctetString) then "OctetString"
  else if decide (t = Gosnmp.ObjectIdentifier) then "ObjectIdentifier"
  else if decide (t = Gosnmp.IPAddress) then "IpAddress"
  else if decide (t = Gosnmp.Counter32) then "Counter32"
  else if decide (t = Gosnmp.Gauge32) then "Gauge32"
  else if decide (t = Gosnmp.TimeTicks) then "TimeTicks"
  else if decide (t = Gosnmp.Counter64) then "Counter64"
  else if decide (t = Gosnmp.Uinteger32) then "Unsigned32"
  else if decide (t = Gosnmp.BitString) then "BitString"
  else "Unknown(0x" +:+ Go.FormatHex2 t +:+ ")".

Definition convertVarbinds `{Extern} (pdus : list Gosnmp.SnmpPDU)
    : list Metric.t :=
  foldl (λ out pdu,
    if isErrorPDU (Gosnmp.Type_ pdu) then out
    else out ++ [ {| Metric.OID := normaliseOID (Gosnmp.Name pdu);
                     Metric.Name := Gosnmp.Name pdu;
                     Metric.Instance := "";
                     Metric.Value := convertPDUValue pdu;
                     Metric.Type_ := pduTypeString (Gosnmp.Type_ pdu);
                     Metric.Syntax := "";
                     Metric.Tags := ∅ |} ]) [] pdus.

Definition withInfo (trap : SNMPTrap.t) (info : TrapInfo.t)
    (vbs : list Metric.t) : SNMPTrap.t :=
  {| SNMPTrap.Timestamp := SNMPTrap.Timestamp trap;
     SNMPTrap.Device := SNMPTrap.Device trap;
     SNMPTrap.TrapInfo := info;
     SNMPTrap.Varbinds := vbs |}.

(** Parse.  [now] is the clock reading time.Now().UTC(); [pkt] is
    [None] for a nil packet.  The outer [option] is [None] only where
    Go would panic. *)
Definition Parse `{Extern} (now : Go.Time) (pkt : option Gosnmp.SnmpPacket)
    (remoteAddr : option string) : option (SNMPTrap.t * option error) :=
  match pkt with
  | None =>
      Some ({| SNMPTrap.Timestamp := 0%Z; SNMPTrap.Device := zeroDevice;
               SNMPTrap.TrapInfo := zeroTrapInfo; SNMPTrap.Varbinds := [] |},
            Some ErrNilPacket)
  | Some pkt =>
      let trap :=
        {| SNMPTrap.Timestamp := now;
           SNMPTrap.Device := deviceFromPacket pkt remoteAddr;
           SNMPTrap.TrapInfo := zeroTrapInfo; SNMPTrap.Varbinds := [] |} in
      if decide (Gosnmp.Version pkt = Gosnmp.Version1) then
        Some (withInfo trap (parsev1Info pkt)
                       (convertVarbinds (Gosnmp.Variables pkt)), None)
      else if decide (Gosnmp.Version pkt = Gosnmp.Version2c
                      ∨ Gosnmp.Version pkt = Gosnmp.Version3) then
        match parsev2Info pkt with
        | None => None
        | Some (info, remaining, Some err) => Some (trap, Some err)
        | Some (info, remaining, None) =>
            Some (withInfo trap info (convertVarbinds remaining), None)
        end
      else Some (trap, Some (ErrUnsupportedVersion (Gosnmp.Version pkt)))
  end.

End Trap.

(** ** Package snmp/decoder *)
Module Decoder.
Import Models.

Module DecodedVarbind.
Record t : Type := {
  OID : string;
  AttributeName : string;
  Instance : string;
  Value : Go.Value;
  SNMPType : string;
  Syntax : string;
  IsTag : bool
}.
End DecodedVarbind.

Module DecodedPollResult.
Record t : Type := {
  Device : Device.t;
  ObjectDefKey : string;
  Varbinds : list DecodedVarbind.t;
  CollectedAt : Go.Time;
  PollDurationMs : Z
}.
End DecodedPollResult.

Inductive error : Type :=
| ErrNoAttributes (key : string)
| ErrEmptyOID (attr key : string)
| ErrConversion (fullOID attr syntax cause : string).

(** normaliseOID: no surrounding white space, no leading dot. *)
Definition normaliseOID (oid : string) : string :=
  Go.TrimPrefix (Go.TrimSpace oid) ".".

Record VarbindParser : Type := {
  attrByOID : gmap string AttributeDefinition.t
}.

(** NewVarbindParser: the attributes keyed by their normalised OID.  The
    loop ranges over the Attributes map and stops at the first
    attribute with an empty OID. *)
Definition NewVarbindParser (o : MapOrder) (def : ObjectDefinition.t)
    : VarbindParser + error :=
  if decide (size (ObjectDefinition.Attributes def) = 0)
  then inr (ErrNoAttributes (ObjectDefinition.Key def))
  else
    match
      foldl (λ (acc : gmap string AttributeDefinition.t + error) kv,
               match acc with
               | inr e => inr e
               | inl m =>
                   let attr := kv.2 in
                   let norm := normaliseOID (AttributeDefinition.OID attr) in
                   if decide (norm = "")
                   then inr (ErrEmptyOID (AttributeDefinition.Name attr)
                                         (ObjectDefinition.Key def))
                   else inl (<[norm := attr]> m)
               end)
            (inl ∅) (Go.range o "attributes" (ObjectDefinition.Attributes def))
    with
    | inr e => inr e
    | inl m => inl {| attrByOID := m |}
    end.

(** The prefix scan of matchAttribute: one turn of the loop per unit of
    [fuel]; [None] when the fuel runs out before the loop ends. *)
Fixpoint prefixScan (fuel : nat) (p : VarbindParser) (fullOID remaining : string)
    : option (AttributeDefinition.t * string * bool) :=
  match fuel with
  | O => None
  | S fuel' =>
      let dot := Go.LastIndex remaining "." in
      if decide (dot < 0)%Z then Some (zeroAttribute, "", false)
      else
        let prefix := Go.slice_to remaining (Z.to_nat dot) in
        let suffix := Go.slice_from remaining (Z.to_nat dot + 1) in
        match attrByOID p !! prefix with
        | Some a =>
            let instanceSuffix := Go.slice_from fullOID (String.length prefix + 1) in
            Some (a, instanceSuffix, true)
        | None => prefixScan fuel' p fullOID prefix
        end
  end.

(** matchAttribute: the attribute, the instance and whether one was
    found.  Every turn of the loop shortens [remaining], so one more
    turn than the OID has bytes is enough. *)
Definition matchAttribute (p : VarbindParser) (fullOID : string)
    : option (AttributeDefinition.t * string * bool) :=
  match attrByOID p !! fullOID with
  | Some a => Some (a, "0", true)
  | None => prefixScan (S (String.length fullOID)) p fullOID fullOID
  end.

Definition IsErrorType (t : Z) : bool :=
  bool_decide (t = Gosnmp.NoSuchObject ∨ t = Gosnmp.NoSuchInstance
               ∨ t = Gosnmp.EndOfMibView ∨ t = Gosnmp.Null).

Definition PDUTypeString (t : Z) : string :=
  if decide (t = Gosnmp.Integer) then "Integer"
  else if decide (t = Gosnmp.BitString) then "BitString"
  else if decide (t = Gosnmp.OctetString) then "OctetString"
  else if decide (t = Gosnmp.Null) then "Null"
  else if decide (t = Gosnmp.ObjectIdentifier) then "ObjectIdentifier"
  else if decide (t = Gosnmp.ObjectDescription) then "ObjectDescription"
  else if decide (t = Gosnmp.IPAddress) then "IpAddress"
  else if decide (t = Gosnmp.Counter32) then "Counter32"
  else if decide (t = Gosnmp.Gauge32) then "Gauge32"
  else if decide (t = Gosnmp.TimeTicks) then "TimeTicks"
  else if decide (t = Gosnmp.Opaque) then "Opaque"
  else if decide (t = Gosnmp.NsapAddress) then "NsapAddress"
  else if decide (t = Gosnmp.Counter64) then "Counter64"
  else if decide (t = Gosnmp.Uinteger32) then "Unsigned32"
  else if decide (t = Gosnmp.OpaqueFloat) then "OpaqueFloat"
  else if decide (t = Gosnmp.OpaqueDouble) then "OpaqueDouble"
  else if decide (t = Gosnmp.NoSuchObject) then "NoSuchObject"
  else if decide (t = Gosnmp.NoSuchInstance) then "NoSuchInstance"
  else if decide (t = Gosnmp.EndOfMibView) then "EndOfMibView"
  else "Unknown(0x" +:+ Go.FormatHex2 t +:+ ")".

(** The conversion table of types.go, from the PDU type, the raw value
    and the syntax to the native value or the text of an error.  The
    matching of OIDs does not look at it: it is an argument of [Parse]. *)
Definition Converter : Type := Z → Go.Value → string → Go.Value + string.

(** One turn of the loop of Parse: skip, append, or stop with an error. *)
Definition parseStep (ConvertValue : Converter) (p : VarbindParser)
    (result : list DecodedVarbind.t) (pdu : Gosnmp.SnmpPDU)
    : option (list DecodedVarbind.t * option error) :=
  if IsErrorType (Gosnmp.Type_ pdu) then Some (result, None)
  else
    let fullOID := normaliseOID (Gosnmp.Name pdu) in
    match matchAttribute p fullOID with
    | None => None
    | Some (attr, instance, found) =>
        if negb found then Some (result, None)
        else
          match ConvertValue (Gosnmp.Type_ pdu) (Gosnmp.Value pdu)
                             (AttributeDefinition.Syntax attr) with
          | inr cause =>
              Some (result,
                    Some (ErrConversion fullOID (AttributeDefinition.Name attr)
                                        (AttributeDefinition.Syntax attr) cause))
          | inl convertedValue =>
              Some (result ++
                    [ {| DecodedVarbind.OID := fullOID;
                         DecodedVarbind.AttributeName := AttributeDefinition.Name attr;
                         DecodedVarbind.Instance := instance;
                         DecodedVarbind.Value := convertedValue;
                         DecodedVarbind.SNMPType := PDUTypeString (Gosnmp.Type_ pdu);
                         DecodedVarbind.Syntax := AttributeDefinition.Syntax attr;
                         DecodedVarbind.IsTag := AttributeDefinition.IsTag attr |} ],
                    None)
          end
    end.

(** Parse: the decoded varbinds and, when a conversion failed, the
    error together with what was decoded before it.  [None] only when
    the scan of [matchAttribute] runs out of fuel. *)
Fixpoint parseLoop (ConvertValue : Converter) (p : VarbindParser)
    (result : list DecodedVarbind.t) (pdus : list Gosnmp.SnmpPDU)
    : option (list DecodedVarbind.t * option error) :=
  match pdus with
  | [] => Some (result, None)
  | pdu :: rest =>
      match parseStep ConvertValue p result pdu with
      | None => None
      | Some (result', Some e) => Some (result', Some e)
      | Some (result', None) => parseLoop ConvertValue p result' rest
      end
  end.

Definition Parse (ConvertValue : Converter) (p : VarbindParser)
    (pdus : list Gosnmp.SnmpPDU)
    : option (list DecodedVarbind.t * option error) :=
  parseLoop ConvertValue p [] pdus.

Module RawPollResult.
Record t : Type := {
  Device : Device.t;
  ObjectDef : ObjectDefinition.t;
  Varbinds : list Gosnmp.SnmpPDU;
  CollectedAt : Go.Time;
  PollStartedAt : Go.Time
}.
End RawPollResult.

(** The errors of Decode wrap the error of the parser with the key of
    the object and the hostname of the device. *)
Inductive decodeError : Type :=
| ErrBuildParser (key hostname : string) (cause : error)
| ErrPartialParse (key hostname : string) (cause : error).

Definition withVarbinds (result : DecodedPollResult.t)
    (decoded : list DecodedVarbind.t) : DecodedPollResult.t :=
  {| DecodedPollResult.Device := DecodedPollResult.Device result;
     DecodedPollResult.ObjectDefKey := DecodedPollResult.ObjectDefKey result;
     DecodedPollResult.Varbinds := decoded;
     DecodedPollResult.CollectedAt := DecodedPollResult.CollectedAt result;
     DecodedPollResult.PollDurationMs := DecodedPollResult.PollDurationMs result |}.

(** Decode.  The lines sent to the logger are not part of the model;
    [None] only when Parse does not return. *)
Definition Decode (ConvertValue : Converter) (o : MapOrder) (raw : RawPollResult.t)
    : option (DecodedPollResult.t * option decodeError) :=
  let key := ObjectDefinition.Key (RawPollResult.ObjectDef raw) in
  let hostname := Device.Hostname (RawPollResult.Device raw) in
  let result :=
    {| DecodedPollResult.Device := RawPollResult.Device raw;
       DecodedPollResult.ObjectDefKey := key;
       DecodedPollResult.Varbinds := [];
       DecodedPollResult.CollectedAt := RawPollResult.CollectedAt raw;
       DecodedPollResult.PollDurationMs :=
         Go.Milliseconds (Go.Sub (RawPollResult.CollectedAt raw)
                                 (RawPollResult.PollStartedAt raw)) |} in
  if decide (length (RawPollResult.Varbinds raw) = 0) then Some (result, None)
  else
    match NewVarbindParser o (RawPollResult.ObjectDef raw) with
    | inr err => Some (result, Some (ErrBuildParser key hostname err))
    | inl parser =>
        match Parse ConvertValue parser (RawPollResult.Varbinds raw) with
        | None => None
        | Some (decoded, Some err) =>
            Some (withVarbinds result decoded,
                  Some (ErrPartialParse key hostname err))
        | Some (decoded, None) => Some (withVarbinds result decoded, None)
        end
    end.

End Decoder.

(** ** Package producer/metrics *)
Module Metrics.
Import Models.
Import Decoder.

(** *** The enum registry *)

Record IntEnum : Type := {
  IsBitmap : bool;
  Values : gmap Z string
}.

Record EnumRegistry : Type := {
  ints : gmap string IntEnum;
  oids : gmap string string
}.

Definition NewEnumRegistry : EnumRegistry := {| ints := ∅; oids := ∅ |}.

Definition normaliseRegistryOID (oid : string) : string :=
  Go.TrimPrefix (Go.TrimSpace oid) ".".

Definition RegisterIntEnum (r : EnumRegistry) (oid : string) (isBitmap : bool)
    (values : gmap Z string) : EnumRegistry :=
  let oid := normaliseRegistryOID oid in
  {| ints := <[oid := {| IsBitmap := isBitmap; Values := values |}]> (ints r);
     oids := oids r |}.

Definition RegisterOIDEnum (r : EnumRegistry) (oid label : string) : EnumRegistry :=
  let oid := normaliseRegistryOID oid in
  {| ints := ints r; oids := <[oid := label]> (oids r) |}.

(** toInt64ForEnum: [None] stands for the error. *)
Definition toInt64ForEnum (v : Go.Value) : option Z :=
  match v with
  | VInt x | VInt32 x | VInt64 x => Some x
  | VUint x | VUint32 x | VUint64 x => Some (Go.wrap_int64 x)
  | _ => None
  end.

(** resolveBitmap: the labels of the bits 0..63 that are set in [mask],
    joined by commas; the mask itself when there is none. *)
Definition resolveBitmap (values : gmap Z string) (mask : Z) : Go.Value :=
  let active :=
    foldl (λ active bit,
             if decide (Z.land mask (Go.wrap_int64 (Z.shiftl 1 bit)) ≠ 0)%Z
             then match values !! bit with
                  | Some label => active ++ [label]
                  | None => active
                  end
             else active)
          [] (map Z.of_nat (seq 0 64)) in
  if decide (length active = 0) then VInt64 mask
  else VString (Go.Join active ",").

Definition Resolve (r : EnumRegistry) (oid : string) (rawValue : Go.Value)
    : Go.Value :=
  let oid := normaliseRegistryOID oid in
  match oids r !! oid with
  | Some label => VString label
  | None =>
      let byValue :=
        match rawValue with
        | VString strVal => oids r !! normaliseRegistryOID strVal
        | _ => None
        end in
      match byValue with
      | Some label => VString label
      | None =>
          match ints r !! oid with
          | None => rawValue
          | Some intEnum =>
              match toInt64ForEnum rawValue with
              | None => rawValue
              | Some intVal =>
                  if IsBitmap intEnum then resolveBitmap (Values intEnum) intVal
                  else match Values intEnum !! intVal with
                       | Some label => VString label
                       | None => rawValue
                       end
              end
          end
      end
  end.

(** *** Counter state *)

Module CounterKey.
Record t : Type := {
  Device : string;
  Attribute : string;
  Instance : string
}.
End CounterKey.

#[global] Instance CounterKey_eq_dec : EqDecision CounterKey.t.
Proof. solve_decision. Defined.

#[global] Instance CounterKey_countable : Countable CounterKey.t.
Proof.
  refine (inj_countable'
            (λ k, (CounterKey.Device k, CounterKey.Attribute k, CounterKey.Instance k))
            (λ '(d, a, i), {| CounterKey.Device := d; CounterKey.Attribute := a;
                              CounterKey.Instance := i |}) _).
  by intros [].
Defined.

Record counterEntry : Type := {
  Value : Z;
  SeenAt : Go.Time
}.

Record CounterState : Type := {
  entries : gmap CounterKey.t counterEntry
}.

Definition NewCounterState : CounterState := {| entries := ∅ |}.

Record DeltaResult : Type := {
  Delta_ : Z;
  Elapsed : Go.Duration;
  Valid : bool
}.

Definition invalidResult : DeltaResult :=
  {| Delta_ := 0%Z; Elapsed := 0%Z; Valid := false |}.

(** Delta: the result and the state after the call.  The arithmetic is
    that of uint64. *)
Definition Delta (s : CounterState) (key : CounterKey.t) (current : Z)
    (now : Go.Time) (wrap : Z) : DeltaResult * CounterState :=
  let prev := entries s !! key in
  let s' := {| entries := <[key := {| Value := current; SeenAt := now |}]> (entries s) |} in
  match prev with
  | None => (invalidResult, s')
  | Some prev =>
      let elapsed := Go.Sub now (SeenAt prev) in
      if decide (elapsed ≤ 0)%Z then (invalidResult, s')
      else
        let delta :=
          if decide (Value prev ≤ current)%Z
          then Go.wrap_uint64 (current - Value prev)
          else Go.wrap_uint64
                 (Go.wrap_uint64 (Go.wrap_uint64 (wrap - Value prev) + current) + 1) in
        ({| Delta_ := delta; Elapsed := elapsed; Valid := true |}, s')
  end.

Definition Remove (s : CounterState) (key : CounterKey.t) : CounterState :=
  {| entries := delete key (entries s) |}.

(** Purge deletes, while it ranges over the map, every entry last seen
    before the cutoff, and counts them.  The negation of maxAge is
    that of an int64: the least Duration is its own negation. *)
Definition Purge (s : CounterState) (maxAge : Go.Duration) (now : Go.Time)
    : Z * CounterState :=
  let cutoff := Go.Add now (Go.wrap_int64 (- maxAge)) in
  let stale (e : counterEntry) : Prop := Go.Before (SeenAt e) cutoff = true in
  let kept := filter (λ kv, ¬ stale kv.2) (entries s) in
  (Z.of_nat (size (entries s) - size kept), {| entries := kept |}).

(** *** Syntax classification *)

Definition IsCounterSyntax (syntax : string) : bool :=
  bool_decide (syntax = "Counter32" ∨ syntax = "Counter64").

Definition WrapForSyntax (syntax : string) : Z :=
  if decide (syntax = "Counter32") then (2 ^ 32 - 1)%Z else (2 ^ 64 - 1)%Z.

Definition syntaxPriority (syntax : string) : Z :=
  if decide (syntax = "Counter64") then 20%Z
  else if decide (syntax = "Counter32") then 10%Z
  else if decide (syntax = "BandwidthGBits") then 14%Z
  else if decide (syntax = "BandwidthMBits") then 13%Z
  else if decide (syntax = "BandwidthKBits") then 12%Z
  else if decide (syntax = "BandwidthBits" ∨ syntax = "Gauge32") then 11%Z
  else 0%Z.

Definition isEnumSyntax (syntax : string) : bool :=
  bool_decide (syntax = "EnumInteger" ∨ syntax = "EnumIntegerKeepID"
               ∨ syntax = "EnumBitmap"
               ∨ syntax = "EnumObjectIdentifier"
               ∨ syntax = "EnumObjectIdentifierKeepOID").

(** *** Build *)

Record BuildOptions : Type := {
  CollectorID : string;
  PollStatus : string;
  Enums : option EnumRegistry;
  Counters : option CounterState
}.

Definition tagValue `{Extern} (v : Go.Value) : string :=
  match v with
  | VString x => x
  | VInt64 x => Go.FormatInt x
  | VUint64 x => Go.FormatInt x
  | VFloat64 x => Go.fmt_g x
  | VBytes x => x
  | _ => Go.Sprint_v v
  end.

Definition toUint64Safe (v : Go.Value) : option Z :=
  match v with
  | VUint64 x | VUint32 x | VUint x => Some x
  | VInt64 x | VInt x => if decide (0 ≤ x)%Z then Some x else None
  | _ => None
  end.

(** Steps 1 and 2: the tags and the candidate measurements, by instance. *)
Definition partitionStep `{Extern}
    (acc : gmap string (gmap string string) * gmap string (list DecodedVarbind.t))
    (vb : DecodedVarbind.t)
    : gmap string (gmap string string) * gmap string (list DecodedVarbind.t) :=
  let '(tagsByInstance, metricsByInstance) := acc in
  let instance := DecodedVarbind.Instance vb in
  if DecodedVarbind.IsTag vb then
    let tags := default ∅ (tagsByInstance !! instance) in
    (<[instance := <[DecodedVarbind.AttributeName vb
                       := tagValue (DecodedVarbind.Value vb)]> tags]> tagsByInstance,
     metricsByInstance)
  else
    (tagsByInstance,
     <[instance := default [] (metricsByInstance !! instance) ++ [vb]]>
       metricsByInstance).

(** Step 3, for one instance: the winner of every attribute name. *)
Definition overrideStep (byName : gmap string DecodedVarbind.t)
    (vb : DecodedVarbind.t) : gmap string DecodedVarbind.t :=
  match byName !! DecodedVarbind.AttributeName vb with
  | None => <[DecodedVarbind.AttributeName vb := vb]> byName
  | Some existing =>
      if decide (syntaxPriority (DecodedVarbind.Syntax vb)
                 > syntaxPriority (DecodedVarbind.Syntax existing))%Z
      then <[DecodedVarbind.AttributeName vb := vb]> byName
      else byName
  end.

Definition overrideResolve (vbs : list DecodedVarbind.t)
    : gmap string DecodedVarbind.t :=
  foldl overrideStep ∅ vbs.

(** Steps 4 and 5, for one winning varbind: the metric and the counter
    state after it. *)
Definition assemble (opts : BuildOptions) (hostname : string) (now : Go.Time)
    (instance : string) (instanceTags : gmap string string)
    (counters : option CounterState) (vb : DecodedVarbind.t)
    : Metric.t * option CounterState :=
  let value := DecodedVarbind.Value vb in
  let value :=
    match Enums opts with
    | Some enums =>
        if isEnumSyntax (DecodedVarbind.Syntax vb) then
          let baseOID :=
            if decide (DecodedVarbind.Instance vb ≠ "")
            then Go.TrimSuffix (DecodedVarbind.OID vb)
                               ("." +:+ DecodedVarbind.Instance vb)
            else DecodedVarbind.OID vb in
          Resolve enums baseOID value
        else value
    | None => value
    end in
  let '(value, counters) :=
    match counters with
    | Some cs =>
        if IsCounterSyntax (DecodedVarbind.Syntax vb) then
          match toUint64Safe value with
          | Some raw =>
              let key := {| CounterKey.Device := hostname;
                            CounterKey.Attribute := DecodedVarbind.AttributeName vb;
                            CounterKey.Instance := instance |} in
              let '(dr, cs') :=
                Delta cs key raw now (WrapForSyntax (DecodedVarbind.Syntax vb)) in
              (if Valid dr then VUint64 (Delta_ dr) else VUint64 0, Some cs')
          | None => (value, counters)
          end
        else (value, counters)
    | None => (value, counters)
    end in
  let tags : gmap string string :=
    if decide (0 < size instanceTags) then instanceTags else ∅ in
  ({| Metric.OID := DecodedVarbind.OID vb;
      Metric.Name := DecodedVarbind.AttributeName vb;
      Metric.Instance := instance;
      Metric.Value := value;
      Metric.Type_ := DecodedVarbind.SNMPType vb;
      Metric.Syntax := DecodedVarbind.Syntax vb;
      Metric.Tags := tags |}, counters).

(** The loop of step 3 over the instances. *)
Definition resolveAll (o : MapOrder)
    (metricsByInstance : gmap string (list DecodedVarbind.t))
    : gmap string (gmap string DecodedVarbind.t) :=
  foldl (λ resolved kv, <[kv.1 := overrideResolve kv.2]> resolved)
        ∅ (Go.range o "metricsByInstance" metricsByInstance).

(** The body of the inner loop of steps 4 and 5: one winning varbind. *)
Definition emit (opts : BuildOptions) (hostname : string) (now : Go.Time)
    (instance : string) (instanceTags : gmap string string)
    (acc : list Metric.t * option CounterState) (nv : string * DecodedVarbind.t)
    : list Metric.t * option CounterState :=
  let '(metrics, counters) := acc in
  let '(m, counters) :=
    assemble opts hostname now instance instanceTags counters nv.2 in
  (metrics ++ [m], counters).

(** The body of the outer loop of steps 4 and 5: one instance. *)
Definition emitInstance (o : MapOrder) (opts : BuildOptions) (hostname : string)
    (now : Go.Time) (tagsByInstance : gmap string (gmap string string))
    (acc : list Metric.t * option CounterState)
    (kv : string * gmap string DecodedVarbind.t)
    : list Metric.t * option CounterState :=
  let instance := kv.1 in
  let instanceTags := default ∅ (tagsByInstance !! instance) in
  foldl (emit opts hostname now instance instanceTags) acc
        (Go.range o ("byName:" +:+ instance) kv.2).

(** Build.  [o] orders the three range statements, [clock] is the
    reading of time.Now() taken when CollectedAt is zero.  The counter
    state behind opts.Counters is returned as the calls to Delta leave
    it. *)
Definition Build `{Extern} (o : MapOrder) (clock : Go.Time)
    (decoded : DecodedPollResult.t) (opts : BuildOptions)
    : SNMPMetric.t * option CounterState :=
  let now := DecodedPollResult.CollectedAt decoded in
  let now := if Go.IsZero now then clock else now in
  let parts := foldl partitionStep (∅, ∅) (DecodedPollResult.Varbinds decoded) in
  let tagsByInstance := parts.1 in
  let metricsByInstance := parts.2 in
  let resolved := resolveAll o metricsByInstance in
  let hostname := Device.Hostname (DecodedPollResult.Device decoded) in
  let out :=
    foldl (emitInstance o opts hostname now tagsByInstance)
          ([], Counters opts) (Go.range o "resolved" resolved) in
  ({| SNMPMetric.Timestamp := now;
      SNMPMetric.Device := DecodedPollResult.Device decoded;
      SNMPMetric.Metrics := out.1;
      SNMPMetric.Metadata :=
        {| MetricMetadata.CollectorID := CollectorID opts;
           MetricMetadata.PollDurationMs := DecodedPollResult.PollDurationMs decoded;
           MetricMetadata.PollStatus := PollStatus opts |} |},
   out.2).

(** *** The producer *)

(** The struct Config of producer.go. *)
Module ProducerConfig.
Record t : Type := {
  CollectorID : string;
  EnumEnabled : bool;
  Enums : option EnumRegistry;
  CounterDeltaEnabled : bool
}.
End ProducerConfig.

(** MetricsProducer, without its logger.  [counters] is the state
    behind the pointer, [None] for nil. *)
Record MetricsProducer : Type := {
  cfg : ProducerConfig.t;
  counters : option CounterState
}.

Definition New (cfg : ProducerConfig.t) : MetricsProducer :=
  {| cfg := cfg;
     counters := if ProducerConfig.CounterDeltaEnabled cfg
                 then Some NewCounterState else None |}.

(** Produce: the metric, and the producer with the counter state as
    Build leaves it.  The error returned is always nil. *)
Definition Produce `{Extern} (o : MapOrder) (clock : Go.Time)
    (p : MetricsProducer) (decoded : DecodedPollResult.t)
    : SNMPMetric.t * MetricsProducer :=
  let enums :=
    if ProducerConfig.EnumEnabled (cfg p) then ProducerConfig.Enums (cfg p)
    else None in
  let opts :=
    {| CollectorID := ProducerConfig.CollectorID (cfg p);
       PollStatus := "success";
       Enums := enums;
       Counters := counters p |} in
  let result := Build o clock decoded opts in
  (result.1, {| cfg := cfg p; counters := result.2 |}).

End Metrics.

(** ** Package config: the loaded snapshot, as the core reads it *)
Module Config.
Import Models.

Module V3Credentials.
Record t : Type := {
  Username : string;
  AuthenticationProtocol : string;
  AuthenticationPassphrase : string;
  PrivacyProtocol : string;
  PrivacyPassphrase : string
}.
End V3Credentials.

Module DeviceConfig.
Record t : Type := {
  IP : string;
  Port : Z;
  PollInterval : Z;
  Timeout : Z;
  Retries : Z;
  ExponentialTimeout : bool;
  Version : string;
  Communities : list string;
  V3Credentials : list V3Credentials.t;
  DeviceGroups : list string;
  MaxConcurrentPolls : Z
}.
End DeviceConfig.

Module DeviceGroup.
Record t : Type := { ObjectGroups : list string }.
End DeviceGroup.

Module ObjectGroup.
Record t : Type := { Objects : list string }.
End ObjectGroup.

(** LoadedConfig, without the device defaults and the enum registry,
    which the scheduler does not read. *)
Module LoadedConfig.
Record t : Type := {
  Devices : gmap string DeviceConfig.t;
  DeviceGroups : gmap string DeviceGroup.t;
  ObjectGroups : gmap string ObjectGroup.t;
  ObjectDefs : gmap string ObjectDefinition.t
}.
End LoadedConfig.

Definition zeroDeviceConfig : DeviceConfig.t :=
  {| DeviceConfig.IP := ""; DeviceConfig.Port := 0; DeviceConfig.PollInterval := 0;
     DeviceConfig.Timeout := 0; DeviceConfig.Retries := 0;
     DeviceConfig.ExponentialTimeout := false; DeviceConfig.Version := "";
     DeviceConfig.Communities := []; DeviceConfig.V3Credentials := [];
     DeviceConfig.DeviceGroups := []; DeviceConfig.MaxConcurrentPolls := 0 |}.

End Config.

(** ** Package poller: poll jobs and the connection pool

    The pool is modelled one call at a time: every operation runs to
    its end, or to the point where it would wait, before the next one
    starts.  A session is a *gosnmp.GoSNMP: its address and whether its
    Conn field is set.  Closing a connection is recorded in the log
    [closedConns] of the pool. *)
Module Poller.
Import Models.
Import Config.

Module PollJob.
Record t : Type := {
  Hostname : string;
  Device : Device.t;
  DeviceConfig : DeviceConfig.t;
  ObjectDef : ObjectDefinition.t
}.
End PollJob.

Record Session : Type := {
  addr : nat;
  hasConn : bool
}.

Inductive error : Type :=
| ErrPoolClosed
| ErrContext
| ErrDial (cause : string).

(** PoolOptions.  [Dial] gets the number of sessions dialled before. *)
Record PoolOptions : Type := {
  MaxIdlePerDevice : Z;
  IdleTimeout : Go.Duration;
  Dial : nat → DeviceConfig.t → Session + string
}.

Definition defaults (o : PoolOptions) : PoolOptions :=
  {| MaxIdlePerDevice := if decide (MaxIdlePerDevice o ≤ 0)%Z then 2%Z
                         else MaxIdlePerDevice o;
     IdleTimeout := IdleTimeout o;
     Dial := Dial o |}.

Record poolEntry : Type := {
  conn : Session;
  returnedAt : Go.Time
}.

(** devicePool: the idle stack and the semaphore, a channel of capacity
    [semCap] holding [sem] tokens. *)
Record devicePool : Type := {
  idle : list poolEntry;
  sem : nat;
  semCap : nat
}.

Record ConnectionPool : Type := {
  opts : PoolOptions;
  pools : gmap string devicePool;
  closed : bool;
  dialled : nat;
  closedConns : list Session
}.

Definition NewConnectionPool (o : PoolOptions) : ConnectionPool :=
  {| opts := defaults o; pools := ∅; closed := false; dialled := 0;
     closedConns := [] |}.

Definition withPools (p : ConnectionPool) (ps : gmap string devicePool)
    : ConnectionPool :=
  {| opts := opts p; pools := ps; closed := closed p; dialled := dialled p;
     closedConns := closedConns p |}.

Definition withClosedConns (p : ConnectionPool) (l : list Session)
    : ConnectionPool :=
  {| opts := opts p; pools := pools p; closed := closed p; dialled := dialled p;
     closedConns := l |}.

(** conn.Conn.Close(), when Conn is set. *)
Definition closeConn (p : ConnectionPool) (c : Session) : ConnectionPool :=
  if hasConn c then withClosedConns p (closedConns p ++ [c]) else p.

Definition getOrCreatePool (p : ConnectionPool) (hostname : string)
    (maxConcurrent : Z) : devicePool * ConnectionPool :=
  match pools p !! hostname with
  | Some dp => (dp, p)
  | None =>
      let maxConcurrent := if decide (maxConcurrent ≤ 0)%Z then 4%Z else maxConcurrent in
      let dp := {| idle := []; sem := 0; semCap := Z.to_nat maxConcurrent |} in
      (dp, withPools p (<[hostname := dp]> (pools p)))
  end.

Definition getPool (p : ConnectionPool) (hostname : string) : option devicePool :=
  pools p !! hostname.

(** popIdle on the idle stack [idle], whose top is its last element:
    the session handed out, what is left of the stack, and the stale
    sessions closed on the way.  The list is given top first. *)
Fixpoint popIdleRev (o : PoolOptions) (now : Go.Time) (stack : list poolEntry)
    : option Session * list poolEntry * list Session :=
  match stack with
  | [] => (None, [], [])
  | entry :: rest =>
      if decide (0 < IdleTimeout o ∧ IdleTimeout o < Go.Sub now (returnedAt entry))%Z
      then
        let '(r, rest', stale) := popIdleRev o now rest in
        (r, rest', (if hasConn (conn entry) then [conn entry] else []) ++ stale)
      else (Some (conn entry), rest, [])
  end.

Definition popIdle (p : ConnectionPool) (now : Go.Time) (hostname : string)
    (dp : devicePool) : option Session * ConnectionPool :=
  let '(r, rest, stale) := popIdleRev (opts p) now (rev (idle dp)) in
  let dp' := {| idle := rev rest; sem := sem dp; semCap := semCap dp |} in
  (r, withClosedConns (withPools p (<[hostname := dp']> (pools p)))
                      (closedConns p ++ stale)).

Inductive GetResult : Type :=
| GetConn (c : Session)
| GetError (e : error)
| GetBlocked.

(** Get.  [ctxDone] tells whether the context is done when the call
    selects; [preferCtx] settles the select when both the semaphore
    and the context are ready.  With a full semaphore and a live
    context the call waits. *)
Definition Get (p : ConnectionPool) (now : Go.Time) (ctxDone preferCtx : bool)
    (hostname : string) (cfg : DeviceConfig.t) : GetResult * ConnectionPool :=
  let '(dp, p) := getOrCreatePool p hostname (DeviceConfig.MaxConcurrentPolls cfg) in
  if closed p then (GetError ErrPoolClosed, p)
  else
    let free := bool_decide (sem dp < semCap dp) in
    if ctxDone && (negb free || preferCtx) then (GetError ErrContext, p)
    else if negb free then (GetBlocked, p)
    else
      let dp := {| idle := idle dp; sem := S (sem dp); semCap := semCap dp |} in
      let p := withPools p (<[hostname := dp]> (pools p)) in
      match popIdle p now hostname dp with
      | (Some c, p) => (GetConn c, p)
      | (None, p) =>
          let n := dialled p in
          let p := {| opts := opts p; pools := pools p; closed := closed p;
                      dialled := S n; closedConns := closedConns p |} in
          match Dial (opts p) n cfg with
          | inr cause =>
              let release (d : devicePool) :=
                {| idle := idle d; sem := sem d - 1; semCap := semCap d |} in
              (GetError (ErrDial cause),
               withPools p (alter release hostname (pools p)))
          | inl c => (GetConn c, p)
          end
      end.

Inductive PutResult : Type :=
| PutDone
| PutBlocked.

(** Put.  The deferred receive from the semaphore waits when the
    semaphore is empty; the idle list has been written by then. *)
Definition Put (p : ConnectionPool) (now : Go.Time) (hostname : string)
    (c : Session) : PutResult * ConnectionPool :=
  match getPool p hostname with
  | None => (PutDone, closeConn p c)
  | Some dp =>
      let '(idle', p) :=
        if decide (MaxIdlePerDevice (opts p) ≤ Z.of_nat (length (idle dp)))%Z
        then (idle dp, closeConn p c)
        else (idle dp ++ [ {| conn := c; returnedAt := now |} ], p) in
      if decide (sem dp = 0)
      then (PutBlocked,
            withPools p (<[hostname := {| idle := idle'; sem := sem dp;
                                         semCap := semCap dp |}]> (pools p)))
      else (PutDone,
            withPools p (<[hostname := {| idle := idle'; sem := sem dp - 1;
                                         semCap := semCap dp |}]> (pools p)))
  end.

(** Discard *)
Definition Discard (p : ConnectionPool) (hostname : string) (c : Session)
    : PutResult * ConnectionPool :=
  let p := closeConn p c in
  match getPool p hostname with
  | None => (PutDone, p)
  | Some dp =>
      if decide (sem dp = 0) then (PutBlocked, p)
      else (PutDone,
            withPools p (<[hostname := {| idle := idle dp; sem := sem dp - 1;
                                         semCap := semCap dp |}]> (pools p)))
  end.

(** isScalar: no table index. *)
Definition isScalar (objDef : ObjectDefinition.t) : bool :=
  bool_decide (length (ObjectDefinition.Index objDef) = 0).

(** The inner loop of LowestCommonOID: how many leading parts two
    OIDs share. *)
Fixpoint matchParts (parts other : list string) : nat :=
  match parts, other with
  | p :: parts', q :: other' =>
      if decide (p = q) then S (matchParts parts' other') else 0
  | _, _ => 0
  end.

(** LowestCommonOID: the parts shared by the OIDs of all attributes
    that have one, joined by dots.  The attributes are ranged over in
    the order of the map. *)
Definition LowestCommonOID (o : MapOrder) (objDef : ObjectDefinition.t) : string :=
  let oids :=
    foldl (λ oids kv,
             if decide (AttributeDefinition.OID kv.2 ≠ "")
             then oids ++ [AttributeDefinition.OID kv.2] else oids)
          [] (Go.range o "LowestCommonOID" (ObjectDefinition.Attributes objDef)) in
  match oids with
  | [] => ""
  | [oid] => oid
  | first :: rest =>
      Go.Join (foldl (λ parts oid,
                        take (matchParts parts (Go.Split oid ".")) parts)
                     (Go.Split first ".") rest) "."
  end.

(** Close: every idle session is closed and every idle list emptied. *)
Definition Close (o : MapOrder) (p : ConnectionPool) : ConnectionPool :=
  if closed p then p
  else
    let drained :=
      flat_map (λ kv, filter (λ c, hasConn c = true) (map conn (idle kv.2)))
               (Go.range o "pools" (pools p)) in
    {| opts := opts p;
       pools := (λ dp, {| idle := []; sem := sem dp; semCap := semCap dp |}) <$> pools p;
       closed := true;
       dialled := dialled p;
       closedConns := closedConns p ++ drained |}.

(** *** The poller

    The SNMP operations of a session are what the agent answers:
    the largest number of OIDs of a request, and the answers to Get,
    WalkAll and BulkWalkAll.  Get is asked several times in one poll;
    the number counts the requests. *)
Record Agent : Type := {
  MaxOids : Session → Z;
  snmpGet : Session → nat → list string → list Gosnmp.SnmpPDU + string;
  WalkAll : Session → string → list Gosnmp.SnmpPDU * option string;
  BulkWalkAll : Session → string → list Gosnmp.SnmpPDU * option string
}.

Inductive snmpError : Type :=
| ErrNoAttributeOIDs (key : string)
| ErrAgent (cause : string).

Inductive pollError : Type :=
| ErrPoolGet (hostname : string) (cause : error)
| ErrSnmp (hostname key : string) (cause : snmpError).

(** The loop of doGet over the batches: [i] is the index of the next
    OID, [n] the number of requests made, [all] the answers so far.
    One turn per unit of [fuel]. *)
Fixpoint getLoop (fuel : nat)
    (get : nat → list string → list Gosnmp.SnmpPDU + string)
    (oids : list string) (maxOids : nat) (i n : nat) (all : list Gosnmp.SnmpPDU)
    : option (list Gosnmp.SnmpPDU * option snmpError) :=
  match fuel with
  | O => None
  | S fuel' =>
      if decide (i < length oids) then
        let end_ := i + maxOids in
        let end_ := if decide (length oids < end_) then length oids else end_ in
        match get n (take (end_ - i) (drop i oids)) with
        | inr cause => Some (all, Some (ErrAgent cause))
        | inl vars =>
            getLoop fuel' get oids maxOids (i + maxOids) (S n) (all ++ vars)
        end
      else Some (all, None)
  end.

(** doGet: every attribute OID with the scalar instance, asked for in
    batches of at most MaxOids.  The loop advances by at least one OID
    a turn, so one turn more than there are OIDs is enough. *)
Definition doGet (a : Agent) (o : MapOrder) (conn : Session)
    (objDef : ObjectDefinition.t)
    : option (list Gosnmp.SnmpPDU * option snmpError) :=
  let oids :=
    foldl (λ oids kv,
             let oid := AttributeDefinition.OID kv.2 in
             let oid := if Go.HasSuffix oid ".0" then oid else oid +:+ ".0" in
             oids ++ [oid])
          [] (Go.range o "doGet" (ObjectDefinition.Attributes objDef)) in
  if decide (length oids = 0) then Some ([], None)
  else
    let maxOids := MaxOids a conn in
    let maxOids := if decide (maxOids ≤ 0)%Z then 60%Z else maxOids in
    getLoop (S (length oids)) (snmpGet a conn) oids (Z.to_nat maxOids) 0 0 [].

Definition doWalk (a : Agent) (o : MapOrder) (conn : Session)
    (objDef : ObjectDefinition.t) : list Gosnmp.SnmpPDU * option snmpError :=
  let root := LowestCommonOID o objDef in
  if decide (root = "")
  then ([], Some (ErrNoAttributeOIDs (ObjectDefinition.Key objDef)))
  else let '(pdus, err) := WalkAll a conn root in (pdus, ErrAgent <$> err).

Definition doBulkWalk (a : Agent) (o : MapOrder) (conn : Session)
    (objDef : ObjectDefinition.t) : list Gosnmp.SnmpPDU * option snmpError :=
  let root := LowestCommonOID o objDef in
  if decide (root = "")
  then ([], Some (ErrNoAttributeOIDs (ObjectDefinition.Key objDef)))
  else let '(pdus, err) := BulkWalkAll a conn root in (pdus, ErrAgent <$> err).

Definition zeroRawPollResult : Decoder.RawPollResult.t :=
  {| Decoder.RawPollResult.Device := zeroDevice;
     Decoder.RawPollResult.ObjectDef :=
       {| ObjectDefinition.Key := ""; ObjectDefinition.MIB := "";
          ObjectDefinition.Object := ""; ObjectDefinition.Augments := "";
          ObjectDefinition.Index := []; ObjectDefinition.DiscoveryAttribute := "";
          ObjectDefinition.Attributes := ∅ |};
     Decoder.RawPollResult.Varbinds := [];
     Decoder.RawPollResult.CollectedAt := 0%Z;
     Decoder.RawPollResult.PollStartedAt := 0%Z |}.

(** Poll either returns or waits: on a full semaphore in Get, or on
    an empty one in Put and Discard. *)
Inductive PollResult : Type :=
| PollBlocked
| PollReturned (result : Decoder.RawPollResult.t) (err : option pollError).

(** Poll.  [tGet], [tStart], [tEnd] and [tPut] are the readings of
    the clock in Get, before and after the SNMP operation, and in Put.
    The outer [option] is [None] only when doGet does not return. *)
Definition Poll (a : Agent) (o : MapOrder) (p : ConnectionPool)
    (tGet tStart tEnd tPut : Go.Time) (ctxDone preferCtx : bool)
    (job : PollJob.t) : option (PollResult * ConnectionPool) :=
  let hostname := PollJob.Hostname job in
  let objDef := PollJob.ObjectDef job in
  match Get p tGet ctxDone preferCtx hostname (PollJob.DeviceConfig job) with
  | (GetBlocked, p) => Some (PollBlocked, p)
  | (GetError e, p) =>
      Some (PollReturned zeroRawPollResult (Some (ErrPoolGet hostname e)), p)
  | (GetConn conn, p) =>
      let answer :=
        if isScalar objDef then doGet a o conn objDef
        else if decide (DeviceConfig.Version (PollJob.DeviceConfig job) = "1")
             then Some (doWalk a o conn objDef)
             else Some (doBulkWalk a o conn objDef) in
      match answer with
      | None => None
      | Some (pdus, err) =>
          let result :=
            {| Decoder.RawPollResult.Device := PollJob.Device job;
               Decoder.RawPollResult.ObjectDef := objDef;
               Decoder.RawPollResult.Varbinds := pdus;
               Decoder.RawPollResult.CollectedAt := tEnd;
               Decoder.RawPollResult.PollStartedAt := tStart |} in
          match err with
          | Some e =>
              match Discard p hostname conn with
              | (PutBlocked, p) => Some (PollBlocked, p)
              | (PutDone, p) =>
                  Some (PollReturned result
                          (Some (ErrSnmp hostname (ObjectDefinition.Key objDef) e)),
                        p)
              end
          | None =>
              match Put p tPut hostname conn with
              | (PutBlocked, p) => Some (PollBlocked, p)
              | (PutDone, p) => Some (PollReturned result None, p)
              end
          end
      end
  end.

End Poller.

(** ** Package scheduler: the resolution of poll jobs *)
Module Scheduler.
Import Models.
Import Config.
Import Poller.

(** The innermost loop body of ResolveJobs: one object key. *)
Definition objectStep (cfg : LoadedConfig.t) (hostname : string) (dev : Device.t)
    (devCfg : DeviceConfig.t) (acc : gset string * list PollJob.t)
    (objKey : string) : gset string * list PollJob.t :=
  let '(seen, jobs) := acc in
  if decide (objKey ∈ seen) then (seen, jobs)
  else
    let seen := {[objKey]} ∪ seen in
    match LoadedConfig.ObjectDefs cfg !! objKey with
    | None => (seen, jobs)
    | Some objDef =>
        (seen, jobs ++ [ {| PollJob.Hostname := hostname;
                            PollJob.Device := dev;
                            PollJob.DeviceConfig := devCfg;
                            PollJob.ObjectDef := objDef |} ])
    end.

Definition objectGroupStep (cfg : LoadedConfig.t) (hostname : string)
    (dev : Device.t) (devCfg : DeviceConfig.t)
    (acc : gset string * list PollJob.t) (ogName : string)
    : gset string * list PollJob.t :=
  match LoadedConfig.ObjectGroups cfg !! ogName with
  | None => acc
  | Some og => foldl (objectStep cfg hostname dev devCfg) acc (ObjectGroup.Objects og)
  end.

Definition deviceGroupStep (cfg : LoadedConfig.t) (hostname : string)
    (dev : Device.t) (devCfg : DeviceConfig.t)
    (acc : gset string * list PollJob.t) (dgName : string)
    : gset string * list PollJob.t :=
  match LoadedConfig.DeviceGroups cfg !! dgName with
  | None => acc
  | Some dg =>
      foldl (objectGroupStep cfg hostname dev devCfg) acc (DeviceGroup.ObjectGroups dg)
  end.

(** The body of the loop over the sorted hostnames. *)
Definition deviceStep (cfg : LoadedConfig.t) (jobs : list PollJob.t)
    (hostname : string) : list PollJob.t :=
  let devCfg := default zeroDeviceConfig (LoadedConfig.Devices cfg !! hostname) in
  let dev :=
    {| Device.Hostname := hostname;
       Device.IPAddress := DeviceConfig.IP devCfg;
       Device.SNMPVersion := DeviceConfig.Version devCfg;
       Device.Vendor := ""; Device.Model := ""; Device.SysDescr := "";
       Device.SysLocation := ""; Device.SysContact := ""; Device.Tags := ∅ |} in
  (foldl (deviceGroupStep cfg hostname dev devCfg) (∅, jobs)
         (DeviceConfig.DeviceGroups devCfg)).2.

(** sort.Strings *)
Definition sortStrings (l : list string) : list string :=
  merge_sort String.le l.

(** ResolveJobs; a nil configuration is [None].  The warnings sent to
    the logger are not part of the model. *)
Definition ResolveJobs (o : MapOrder) (cfg : option LoadedConfig.t)
    : list PollJob.t :=
  match cfg with
  | None => []
  | Some cfg =>
      let hostnames :=
        sortStrings (map fst (Go.range o "devices" (LoadedConfig.Devices cfg))) in
      foldl (deviceStep cfg) [] hostnames
  end.

(** jobsByHostname: the jobs grouped by hostname.  A hostname that is
    not yet a key reads as the nil slice. *)
Definition jobsByHostname (jobs : list PollJob.t) : gmap string (list PollJob.t) :=
  foldl (λ m j,
           <[PollJob.Hostname j := default [] (m !! PollJob.Hostname j) ++ [j]]> m)
        ∅ jobs.

End Scheduler.

(** * Part II: the vocabulary of the properties *)

Module TrapSpec.
Import Models.


End TrapSpec.

Module DecoderSpec.
Import Models.
Import Decoder.

(** What the matcher promises about an instance: the OID is the key of
    the matched attribute, or that key, a dot and the instance. *)
Definition matches (key fullOID instance : string) : Prop :=
  (fullOID = key ∧ instance = "0") ∨ fullOID = key +:+ "." +:+ instance.

(** What the decoder promises about a decoded varbind. *)
Definition decodedFrom (def : ObjectDefinition.t) (dv : DecodedVarbind.t) : Prop :=
  ∃ name attr,
    ObjectDefinition.Attributes def !! name = Some attr
    ∧ DecodedVarbind.AttributeName dv = AttributeDefinition.Name attr
    ∧ matches (normaliseOID (AttributeDefinition.OID attr))
              (DecodedVarbind.OID dv) (DecodedVarbind.Instance dv).

(** Whether the matcher finds an attribute for an OID. *)
Definition recognised (p : VarbindParser) (fullOID : string) : bool :=
  match matchAttribute p fullOID with
  | Some (_, _, found) => found
  | None => false
  end.

(** A PDU that is not skipped: not of an error type, and of an OID the
    matcher finds an attribute for. *)
Definition decodable (p : VarbindParser) (pdu : Gosnmp.SnmpPDU) : Prop :=
  IsErrorType (Gosnmp.Type_ pdu) = false
  ∧ recognised p (normaliseOID (Gosnmp.Name pdu)) = true.

#[global] Instance decodable_dec (p : VarbindParser) (pdu : Gosnmp.SnmpPDU) :
  Decision (decodable p pdu).
Proof. unfold decodable. apply _. Defined.

(** [dv] is the PDU decoded with the attribute matched for its OID. *)
Definition decodes (ConvertValue : Converter) (p : VarbindParser)
    (pdu : Gosnmp.SnmpPDU) (dv : DecodedVarbind.t) : Prop :=
  ∃ attr inst,
    matchAttribute p (normaliseOID (Gosnmp.Name pdu)) = Some (attr, inst, true)
    ∧ ConvertValue (Gosnmp.Type_ pdu) (Gosnmp.Value pdu)
                   (AttributeDefinition.Syntax attr)
      = inl (DecodedVarbind.Value dv)
    ∧ DecodedVarbind.OID dv = normaliseOID (Gosnmp.Name pdu)
    ∧ DecodedVarbind.AttributeName dv = AttributeDefinition.Name attr
    ∧ DecodedVarbind.Instance dv = inst
    ∧ DecodedVarbind.SNMPType dv = PDUTypeString (Gosnmp.Type_ pdu)
    ∧ DecodedVarbind.Syntax dv = AttributeDefinition.Syntax attr
    ∧ DecodedVarbind.IsTag dv = AttributeDefinition.IsTag attr.

(** The conversion of a decodable PDU fails with [e]. *)
Definition failsWith (ConvertValue : Converter) (p : VarbindParser)
    (pdu : Gosnmp.SnmpPDU) (e : error) : Prop :=
  ∃ attr inst cause,
    IsErrorType (Gosnmp.Type_ pdu) = false
    ∧ matchAttribute p (normaliseOID (Gosnmp.Name pdu)) = Some (attr, inst, true)
    ∧ ConvertValue (Gosnmp.Type_ pdu) (Gosnmp.Value pdu)
                   (AttributeDefinition.Syntax attr)
      = inr cause
    ∧ e = ErrConversion (normaliseOID (Gosnmp.Name pdu))
                        (AttributeDefinition.Name attr)
                        (AttributeDefinition.Syntax attr) cause.

End DecoderSpec.

Module ProducerSpec.
Import Models.
Import Decoder.
Import Metrics.

(** The measurements of an instance, in the order of the poll. *)
Definition measurementsOf (instance : string) (vbs : list DecodedVarbind.t)
    : list DecodedVarbind.t :=
  filter (λ vb, DecodedVarbind.IsTag vb = false
                ∧ DecodedVarbind.Instance vb = instance) vbs.

(** The candidates for a metric name within an instance. *)
Definition candidates (instance name : string) (vbs : list DecodedVarbind.t)
    : list DecodedVarbind.t :=
  filter (λ vb, DecodedVarbind.AttributeName vb = name)
         (measurementsOf instance vbs).

Definition priorityOf (vb : DecodedVarbind.t) : Z :=
  syntaxPriority (DecodedVarbind.Syntax vb).

(** [w] is the first of the candidates of highest priority: those
    before it rank strictly lower, those after it do not rank higher. *)
Definition firstHighest (cands : list DecodedVarbind.t) (w : DecodedVarbind.t)
    : Prop :=
  ∃ pre post,
    cands = pre ++ w :: post
    ∧ Forall (λ c, priorityOf c < priorityOf w)%Z pre
    ∧ Forall (λ c, priorityOf c ≤ priorityOf w)%Z post.

(** The table of priorities as the specification prints it; [bits] and
    [gauge] are the ranks of BandwidthBits and Gauge32, which it gives
    as one cell, "11-12". *)
Definition specPriority (bits gauge : Z) (syntax : string) : Z :=
  if decide (syntax = "Counter64") then 20%Z
  else if decide (syntax = "BandwidthGBits") then 15%Z
  else if decide (syntax = "BandwidthMBits") then 14%Z
  else if decide (syntax = "BandwidthKBits") then 13%Z
  else if decide (syntax = "BandwidthBits") then bits
  else if decide (syntax = "Gauge32") then gauge
  else if decide (syntax = "Counter32") then 10%Z
  else 0%Z.

(** [w] is the first of the candidates of highest rank in the table
    [rank]. *)
Definition firstHighestBy (rank : string → Z) (cands : list DecodedVarbind.t)
    (w : DecodedVarbind.t) : Prop :=
  ∃ pre post,
    cands = pre ++ w :: post
    ∧ Forall (λ c, rank (DecodedVarbind.Syntax c) < rank (DecodedVarbind.Syntax w))%Z pre
    ∧ Forall (λ c, rank (DecodedVarbind.Syntax c) ≤ rank (DecodedVarbind.Syntax w))%Z post.

(** The counter key under which a winning varbind is observed. *)
Definition keyOf (hostname instance : string) (vb : DecodedVarbind.t)
    : CounterKey.t :=
  {| CounterKey.Device := hostname;
     CounterKey.Attribute := DecodedVarbind.AttributeName vb;
     CounterKey.Instance := instance |}.

(** Two counter states (or two nil pointers) that hold the same entries
    under the keys in [K]. *)
Definition agree (K : CounterKey.t → Prop) (c c' : option CounterState) : Prop :=
  match c, c' with
  | None, None => True
  | Some a, Some b => ∀ k, K k → entries a !! k = entries b !! k
  | _, _ => False
  end.

(** The winning varbinds in the order Build visits them, each with the
    instance (and its map of winners) it belongs to. *)
Definition itemsOf (o : MapOrder)
    (resolved : gmap string (gmap string DecodedVarbind.t))
    : list ((string * gmap string DecodedVarbind.t) * (string * DecodedVarbind.t)) :=
  flat_map (λ kv, map (pair kv) (Go.range o ("byName:" +:+ kv.1) kv.2))
           (Go.range o "resolved" resolved).

(** Steps 4 and 5 as one loop over the winning varbinds. *)
Definition emitItem (opts : BuildOptions) (hostname : string) (now : Go.Time)
    (tagsByInstance : gmap string (gmap string string))
    (acc : list Metric.t * option CounterState)
    (ab : (string * gmap string DecodedVarbind.t) * (string * DecodedVarbind.t))
    : list Metric.t * option CounterState :=
  emit opts hostname now ab.1.1 (default ∅ (tagsByInstance !! ab.1.1)) acc ab.2.

(** The metric Build emits for a winning varbind is the one assembled
    against the counter state Build was given: the winners have
    distinct keys, and assembling one leaves the entries of the others
    as they were. *)
Definition metricOf (opts : BuildOptions) (hostname : string) (now : Go.Time)
    (tagsByInstance : gmap string (gmap string string))
    (ab : (string * gmap string DecodedVarbind.t) * (string * DecodedVarbind.t))
    : Metric.t :=
  (assemble opts hostname now ab.1.1 (default ∅ (tagsByInstance !! ab.1.1))
            (Counters opts) ab.2.2).1.

Definition nowOf (clock : Go.Time) (decoded : DecodedPollResult.t) : Go.Time :=
  if Go.IsZero (DecodedPollResult.CollectedAt decoded) then clock
  else DecodedPollResult.CollectedAt decoded.

Definition hostOf (decoded : DecodedPollResult.t) : string :=
  Device.Hostname (DecodedPollResult.Device decoded).

Definition partsOf `{Extern} (decoded : DecodedPollResult.t)
    : gmap string (gmap string string) * gmap string (list DecodedVarbind.t) :=
  foldl partitionStep (∅, ∅) (DecodedPollResult.Varbinds decoded).

Definition winnersOf `{Extern} (decoded : DecodedPollResult.t)
    : gmap string (gmap string DecodedVarbind.t) :=
  overrideResolve <$> (partsOf decoded).2.

(** The cutoff of Purge for a maxAge that is a Duration: now - maxAge,
    but for the least Duration, which is its own negation in int64. *)
Definition cutoffOf (maxAge : Go.Duration) (now : Go.Time) : Go.Time :=
  if decide (maxAge = Go.minDuration) then (now + Go.minDuration)%Z
  else (now - maxAge)%Z.

(** The key of a metric in the counter state. *)
Definition metricKey (hostname : string) (m : Metric.t) : CounterKey.t :=
  {| CounterKey.Device := hostname;
     CounterKey.Attribute := Metric.Name m;
     CounterKey.Instance := Metric.Instance m |}.

(** The same options with another counter state behind the pointer. *)
Definition setCounters (opts : BuildOptions) (cs : option CounterState)
    : BuildOptions :=
  {| CollectorID := CollectorID opts; PollStatus := PollStatus opts;
     Enums := Enums opts; Counters := cs |}.

(** The labels of the bits of an int64 that are set, lowest bit
    first; bit 63 is the sign. *)
Definition bitLabels (values : gmap Z string) (mask : Z) : list string :=
  omap (λ bit, if Z.testbit mask bit then values !! bit else None)
       (map Z.of_nat (seq 0 64)).

End ProducerSpec.

Module PoolSpec.
Import Config.
Import Poller.

(** The calls a client can make on a pool. *)
Inductive Call : Type :=
| CallGet (now : Go.Time) (ctxDone preferCtx : bool) (hostname : string)
          (cfg : DeviceConfig.t)
| CallPut (now : Go.Time) (hostname : string) (c : Session)
| CallDiscard (hostname : string) (c : Session)
| CallClose (o : MapOrder).

(** The pool after a call, and after a sequence of calls. *)
Definition after (p : ConnectionPool) (call : Call) : ConnectionPool :=
  match call with
  | CallGet now ctxDone preferCtx hostname cfg =>
      (Get p now ctxDone preferCtx hostname cfg).2
  | CallPut now hostname c => (Put p now hostname c).2
  | CallDiscard hostname c => (Discard p hostname c).2
  | CallClose o => Close o p
  end.

Definition afterAll (p : ConnectionPool) (calls : list Call) : ConnectionPool :=
  foldl after p calls.

(** The idle sessions kept for a device, oldest first. *)
Definition idleOf (p : ConnectionPool) (hostname : string) : list Session :=
  match pools p !! hostname with
  | Some dp => map conn (idle dp)
  | None => []
  end.

(** The bounds a pool keeps for every device: no more idle sessions
    than MaxIdlePerDevice, no more slots taken than the semaphore has,
    and a semaphore of at least one slot. *)
Definition bounded (p : ConnectionPool) : Prop :=
  (0 < MaxIdlePerDevice (opts p))%Z
  ∧ ∀ h dp, pools p !! h = Some dp →
      (Z.of_nat (length (idle dp)) ≤ MaxIdlePerDevice (opts p))%Z
      ∧ sem dp ≤ semCap dp ∧ 0 < semCap dp.

(** An idle session that has been idle for longer than IdleTimeout. *)
Definition expired (o : PoolOptions) (now : Go.Time) (e : poolEntry) : Prop :=
  (0 < IdleTimeout o ∧ IdleTimeout o < Go.Sub now (returnedAt e))%Z.

(** The slots of a device's semaphore that are taken. *)
Definition slotsOf (p : ConnectionPool) (hostname : string) : nat :=
  match pools p !! hostname with
  | Some dp => sem dp
  | None => 0
  end.

End PoolSpec.

Module PollerSpec.
Import Models.
Import Poller.

(** What LowestCommonOID makes of the OIDs it collects. *)
Definition rootOf (oids : list string) : string :=
  match oids with
  | [] => ""
  | [oid] => oid
  | first :: rest =>
      Go.Join (foldl (λ parts oid,
                        take (matchParts parts (Go.Split oid ".")) parts)
                     (Go.Split first ".") rest) "."
  end.

(** The OID doGet asks for: the attribute's OID with the scalar
    instance. *)
Definition scalarOID (oid : string) : string :=
  if Go.HasSuffix oid ".0" then oid else oid +:+ ".0".

(** A list cut into pieces of [n] elements, the last one maybe
    shorter; [fuel] bounds the number of pieces. *)
Fixpoint chunksFuel {A : Type} (fuel n : nat) (l : list A) : list (list A) :=
  match fuel with
  | O => []
  | S fuel' =>
      match l with
      | [] => []
      | _ => take n l :: chunksFuel fuel' n (drop n l)
      end
  end.

Definition chunks {A : Type} (n : nat) (l : list A) : list (list A) :=
  chunksFuel (length l) n l.

(** The batches asked one after the other, up to the first request
    that fails: the answers and the error. *)
Fixpoint askAll (get : nat → list string → list Gosnmp.SnmpPDU + string)
    (batches : list (list string)) (n : nat) (all : list Gosnmp.SnmpPDU)
    : list Gosnmp.SnmpPDU * option snmpError :=
  match batches with
  | [] => (all, None)
  | batch :: rest =>
      match get n batch with
      | inr cause => (all, Some (ErrAgent cause))
      | inl vars => askAll get rest (S n) (all ++ vars)
      end
  end.

End PollerSpec.

Module SchedulerSpec.
Import Models.
Import Config.
Import Poller.
Import Scheduler.

(** The Device value ResolveJobs builds for a host. *)
Definition deviceOf (hostname : string) (devCfg : DeviceConfig.t) : Device.t :=
  {| Device.Hostname := hostname;
     Device.IPAddress := DeviceConfig.IP devCfg;
     Device.SNMPVersion := DeviceConfig.Version devCfg;
     Device.Vendor := ""; Device.Model := ""; Device.SysDescr := "";
     Device.SysLocation := ""; Device.SysContact := ""; Device.Tags := ∅ |}.

Definition configOf (cfg : LoadedConfig.t) (hostname : string) : DeviceConfig.t :=
  default zeroDeviceConfig (LoadedConfig.Devices cfg !! hostname).

(** The job of a device for an object key, when the key is defined. *)
Definition jobFor (cfg : LoadedConfig.t) (hostname : string) (objKey : string)
    : option PollJob.t :=
  (λ objDef, {| PollJob.Hostname := hostname;
                PollJob.Device := deviceOf hostname (configOf cfg hostname);
                PollJob.DeviceConfig := configOf cfg hostname;
                PollJob.ObjectDef := objDef |})
    <$> LoadedConfig.ObjectDefs cfg !! objKey.

(** The object keys a device reaches, by every path and in the order of
    the walk: device groups, then object groups, then keys. *)
Definition objectsOfGroup (cfg : LoadedConfig.t) (ogName : string) : list string :=
  match LoadedConfig.ObjectGroups cfg !! ogName with
  | Some og => ObjectGroup.Objects og
  | None => []
  end.

Definition objectsOfDeviceGroup (cfg : LoadedConfig.t) (dgName : string)
    : list string :=
  match LoadedConfig.DeviceGroups cfg !! dgName with
  | Some dg => flat_map (objectsOfGroup cfg) (DeviceGroup.ObjectGroups dg)
  | None => []
  end.

Definition reachable (cfg : LoadedConfig.t) (hostname : string) : list string :=
  flat_map (objectsOfDeviceGroup cfg) (DeviceConfig.DeviceGroups (configOf cfg hostname)).

(** A device configuration as the specification lists it for a PollJob:
    every field but the list of group names. *)
Definition settingsOf (d : DeviceConfig.t)
    : string * Z * Z * Z * Z * bool * string * list string
      * list V3Credentials.t * Z :=
  (DeviceConfig.IP d, DeviceConfig.Port d, DeviceConfig.PollInterval d,
   DeviceConfig.Timeout d, DeviceConfig.Retries d, DeviceConfig.ExponentialTimeout d,
   DeviceConfig.Version d, DeviceConfig.Communities d, DeviceConfig.V3Credentials d,
   DeviceConfig.MaxConcurrentPolls d).

(** A poll job as the specification defines it. *)
Definition jobView (j : PollJob.t) :=
  (PollJob.Hostname j, PollJob.Device j, settingsOf (PollJob.DeviceConfig j),
   PollJob.ObjectDef j).

(** [cfg'] is [cfg] with the lists of group names and of object keys in
    another order. *)
Definition reordered (cfg cfg' : LoadedConfig.t) : Prop :=
  LoadedConfig.ObjectDefs cfg' = LoadedConfig.ObjectDefs cfg
  ∧ (∀ n, option_Forall2
            (λ g g', ObjectGroup.Objects g' ≡ₚ ObjectGroup.Objects g)
            (LoadedConfig.ObjectGroups cfg !! n) (LoadedConfig.ObjectGroups cfg' !! n))
  ∧ (∀ n, option_Forall2
            (λ g g', DeviceGroup.ObjectGroups g' ≡ₚ DeviceGroup.ObjectGroups g)
            (LoadedConfig.DeviceGroups cfg !! n) (LoadedConfig.DeviceGroups cfg' !! n))
  ∧ (∀ h, option_Forall2
            (λ d d', settingsOf d' = settingsOf d
                     ∧ DeviceConfig.DeviceGroups d' ≡ₚ DeviceConfig.DeviceGroups d)
            (LoadedConfig.Devices cfg !! h) (LoadedConfig.Devices cfg' !! h)).

(** The lists of a configuration put in another order by [sd], [sg]
    and [so]. *)
Definition reorderConfig (sd sg so : list string → list string)
    (cfg : LoadedConfig.t) : LoadedConfig.t :=
  {| LoadedConfig.Devices :=
       (λ d, {| DeviceConfig.IP := DeviceConfig.IP d;
                DeviceConfig.Port := DeviceConfig.Port d;
                DeviceConfig.PollInterval := DeviceConfig.PollInterval d;
                DeviceConfig.Timeout := DeviceConfig.Timeout d;
                DeviceConfig.Retries := DeviceConfig.Retries d;
                DeviceConfig.ExponentialTimeout := DeviceConfig.ExponentialTimeout d;
                DeviceConfig.Version := DeviceConfig.Version d;
                DeviceConfig.Communities := DeviceConfig.Communities d;
                DeviceConfig.V3Credentials := DeviceConfig.V3Credentials d;
                DeviceConfig.DeviceGroups := sd (DeviceConfig.DeviceGroups d);
                DeviceConfig.MaxConcurrentPolls := DeviceConfig.MaxConcurrentPolls d |})
         <$> LoadedConfig.Devices cfg;
     LoadedConfig.DeviceGroups :=
       (λ g, {| DeviceGroup.ObjectGroups := sg (DeviceGroup.ObjectGroups g) |})
         <$> LoadedConfig.DeviceGroups cfg;
     LoadedConfig.ObjectGroups :=
       (λ g, {| ObjectGroup.Objects := so (ObjectGroup.Objects g) |})
         <$> LoadedConfig.ObjectGroups cfg;
     LoadedConfig.ObjectDefs := LoadedConfig.ObjectDefs cfg |}.

(** The keys of a walk that are met for the first time and defined. *)
Fixpoint firstDefined (cfg : LoadedConfig.t) (seen : gset string)
    (keys : list string) : list string :=
  match keys with
  | [] => []
  | k :: rest =>
      if decide (k ∈ seen) then firstDefined cfg seen rest
      else
        match LoadedConfig.ObjectDefs cfg !! k with
        | Some _ => k :: firstDefined cfg ({[k]} ∪ seen) rest
        | None => firstDefined cfg ({[k]} ∪ seen) rest
        end
  end.

(** The object keys ResolveJobs makes jobs of, for one device. *)
Definition resolvedKeys (cfg : LoadedConfig.t) (hostname : string) : list string :=
  firstDefined cfg ∅ (reachable cfg hostname).

(** The hostnames in the order of the outer loop. *)
Definition hostnamesOf (o : MapOrder) (cfg : LoadedConfig.t) : list string :=
  sortStrings (map fst (Go.range o "devices" (LoadedConfig.Devices cfg))).

End SchedulerSpec.

(** ** Sample inputs: the scenarios of the specification *)

Module Samples.
Import Models.
Import Decoder.
Import Metrics.

Definition noExtern : Extern :=
  {| Go.fmt_g := λ _, ""; Go.ToBigInt := λ _, 0%Z |}.

Definition sw01 : Device.t :=
  {| Device.Hostname := "sw01"; Device.IPAddress := "10.0.0.1";
     Device.SNMPVersion := "2c"; Device.Vendor := ""; Device.Model := "";
     Device.SysDescr := ""; Device.SysLocation := ""; Device.SysContact := "";
     Device.Tags := ∅ |}.

Definition measurement (oid name instance : string) (value : Go.Value)
    (syntax : string) : DecodedVarbind.t :=
  {| DecodedVarbind.OID := oid; DecodedVarbind.AttributeName := name;
     DecodedVarbind.Instance := instance; DecodedVarbind.Value := value;
     DecodedVarbind.SNMPType := syntax; DecodedVarbind.Syntax := syntax;
     DecodedVarbind.IsTag := false |}.

Definition poll (dev : Device.t) (at_ : Go.Time) (vbs : list DecodedVarbind.t)
    : DecodedPollResult.t :=
  {| DecodedPollResult.Device := dev;
     DecodedPollResult.ObjectDefKey := "IF-MIB::ifEntry";
     DecodedPollResult.Varbinds := vbs;
     DecodedPollResult.CollectedAt := at_;
     DecodedPollResult.PollDurationMs := 5%Z |}.

Definition withCounters (cs : option CounterState) : BuildOptions :=
  {| CollectorID := "c1"; PollStatus := "success"; Enums := None; Counters := cs |}.

Definition speedGauge : DecodedVarbind.t :=
  measurement "1.3.6.1.2.1.2.2.1.5.1" "netif.speed" "1" (VUint64 1000) "Gauge32".
Definition speedBits : DecodedVarbind.t :=
  measurement "1.3.6.1.2.1.31.1.1.1.15.1" "netif.speed" "1" (VFloat64 0) "BandwidthBits".
Definition octets32 : DecodedVarbind.t :=
  measurement "1.3.6.1.2.1.2.2.1.10.1" "netif.bytes.in" "1" (VUint64 1000) "Counter32".
Definition octets64 : DecodedVarbind.t :=
  measurement "1.3.6.1.2.1.31.1.1.1.6.1" "netif.bytes.in" "1"
              (VUint64 9999999999) "Counter64".

(** One Counter32 sample of ifInOctets.1 on sw01. *)
Definition octetsAt (t : Go.Time) (value : Z) : DecodedPollResult.t :=
  poll sw01 t [measurement "1.3.6.1.2.1.2.2.1.10.1" "netif.bytes.in" "1"
                           (VUint64 value) "Counter32"].






(** IF-MIB::ifEntry with one attribute, its parser, and a walk of two rows. *)
Definition ifInOctets : AttributeDefinition.t :=
  {| AttributeDefinition.OID := ".1.3.6.1.2.1.2.2.1.10";
     AttributeDefinition.Name := "netif.bytes.in";
     AttributeDefinition.Syntax := "Counter32"; AttributeDefinition.IsTag := false;
     AttributeDefinition.Overrides := None; AttributeDefinition.Rediscover := "" |}.

Definition ifEntry : ObjectDefinition.t :=
  {| ObjectDefinition.Key := "IF-MIB::ifEntry"; ObjectDefinition.MIB := "IF-MIB";
     ObjectDefinition.Object := "ifEntry"; ObjectDefinition.Augments := "";
     ObjectDefinition.Index :=
       [ {| IndexDefinition.Type_ := "Integer";
            IndexDefinition.OID := ".1.3.6.1.2.1.2.2.1.1";
            IndexDefinition.Name := "netif"; IndexDefinition.Syntax := "" |} ];
     ObjectDefinition.DiscoveryAttribute := "";
     ObjectDefinition.Attributes := {[ "ifInOctets" := ifInOctets ]} |}.

Definition ifEntryParser : VarbindParser :=
  {| attrByOID := {[ "1.3.6.1.2.1.2.2.1.10" := ifInOctets ]} |}.

Definition ifEntryWalk : list Gosnmp.SnmpPDU :=
  [ {| Gosnmp.Name := ".1.3.6.1.2.1.2.2.1.10.1"; Gosnmp.Type_ := Gosnmp.Counter32;
       Gosnmp.Value := VUint 1234 |};
    {| Gosnmp.Name := ".1.3.6.1.2.1.2.2.1.10.2"; Gosnmp.Type_ := Gosnmp.Counter32;
       Gosnmp.Value := VUint 5678 |} ].

Definition rawConverter : Converter := λ _ v _, inl v.

(** A pool with one session out for "sw1". *)
Definition fakeDial : nat → Config.DeviceConfig.t → Poller.Session + string :=
  λ n _, inl {| Poller.addr := n; Poller.hasConn := true |}.

Definition poolOptions : Poller.PoolOptions :=
  {| Poller.MaxIdlePerDevice := 0; Poller.IdleTimeout := 0%Z; Poller.Dial := fakeDial |}.

Definition sw1Config : Config.DeviceConfig.t :=
  {| Config.DeviceConfig.IP := "10.0.0.1"; Config.DeviceConfig.Port := 161;
     Config.DeviceConfig.PollInterval := 60; Config.DeviceConfig.Timeout := 500;
     Config.DeviceConfig.Retries := 0; Config.DeviceConfig.ExponentialTimeout := false;
     Config.DeviceConfig.Version := "2c"; Config.DeviceConfig.Communities := ["public"];
     Config.DeviceConfig.V3Credentials := [];
     Config.DeviceConfig.DeviceGroups := ["group_a"; "group_b"];
     Config.DeviceConfig.MaxConcurrentPolls := 0 |}.

Definition session0 : Poller.Session := {| Poller.addr := 0; Poller.hasConn := true |}.

Definition poolInUse : Poller.ConnectionPool :=
  (Poller.Get (Poller.NewConnectionPool poolOptions) 0%Z false false "sw1" sw1Config).2.

(** A configuration in which switch1 reaches ifEntry by two paths. *)
Definition twoPaths : Config.LoadedConfig.t :=
  {| Config.LoadedConfig.Devices := {[ "switch1" := sw1Config ]};
     Config.LoadedConfig.DeviceGroups :=
       {[ "group_a" := {| Config.DeviceGroup.ObjectGroups := ["og_netif"; "og_sys"] |};
          "group_b" := {| Config.DeviceGroup.ObjectGroups := ["og_netif"] |} ]};
     Config.LoadedConfig.ObjectGroups :=
       {[ "og_netif" := {| Config.ObjectGroup.Objects := ["IF-MIB::ifEntry"] |};
          "og_sys" := {| Config.ObjectGroup.Objects := ["SNMPv2-MIB::system"] |} ]};
     Config.LoadedConfig.ObjectDefs := {[ "IF-MIB::ifEntry" := ifEntry ]} |}.

(** The same pool with the session put back, and the device pools of
    both. *)
Definition poolIdle : Poller.ConnectionPool :=
  (Poller.Put poolInUse 0%Z "sw1" session0).2.

Definition sw1InUse : Poller.devicePool :=
  {| Poller.idle := []; Poller.sem := 1; Poller.semCap := 4 |}.

Definition sw1Idle : Poller.devicePool :=
  {| Poller.idle := [ {| Poller.conn := session0; Poller.returnedAt := 0%Z |} ];
     Poller.sem := 0; Poller.semCap := 4 |}.




(** A counter state that has seen ifInOctets.1 of sw01 at 2^32 - 100. *)
Definition octetsKey : CounterKey.t :=
  {| CounterKey.Device := "sw01"; CounterKey.Attribute := "netif.bytes.in";
     CounterKey.Instance := "1" |}.

Definition octetsOutKey : CounterKey.t :=
  {| CounterKey.Device := "sw01"; CounterKey.Attribute := "netif.bytes.out";
     CounterKey.Instance := "1" |}.

Definition seededCounters : CounterState :=
  {| entries := {[ octetsKey := {| Value := 2 ^ 32 - 100; SeenAt := 1000%Z |} ]} |}.

(** A poll of two interfaces, each with a name tag and a status. *)
Definition tagged (oid name instance : string) (value : Go.Value)
    : DecodedVarbind.t :=
  {| DecodedVarbind.OID := oid; DecodedVarbind.AttributeName := name;
     DecodedVarbind.Instance := instance; DecodedVarbind.Value := value;
     DecodedVarbind.SNMPType := "OctetString"; DecodedVarbind.Syntax := "DisplayString";
     DecodedVarbind.IsTag := true |}.

Definition operStatus (instance : string) (value : Z) : DecodedVarbind.t :=
  measurement ("1.3.6.1.2.1.2.2.1.8." +:+ instance) "netif.state.oper" instance
              (VInt64 value) "EnumInteger".

Definition twoInterfaces : DecodedPollResult.t :=
  poll sw01 1000%Z
       [ tagged "1.3.6.1.2.1.2.2.1.2.1" "netif.descr" "1" (VString "eth0");
         operStatus "1" 1;
         tagged "1.3.6.1.2.1.2.2.1.2.2" "netif.descr" "2" (VString "eth1");
         operStatus "2" 2 ].

Definition operStatusEnums : EnumRegistry :=
  RegisterIntEnum NewEnumRegistry "1.3.6.1.2.1.2.2.1.8" false
                  {[ 1%Z := "up"; 2%Z := "down" ]}.

Definition withEnums (r : EnumRegistry) : BuildOptions :=
  {| CollectorID := "c1"; PollStatus := "success"; Enums := Some r;
     Counters := None |}.

(** The metrics Build makes of [twoInterfaces] for interface 2. *)
Definition operStatusMetric (value : Go.Value) : Metric.t :=
  {| Metric.OID := "1.3.6.1.2.1.2.2.1.8.2"; Metric.Name := "netif.state.oper";
     Metric.Instance := "2"; Metric.Value := value; Metric.Type_ := "EnumInteger";
     Metric.Syntax := "EnumInteger"; Metric.Tags := {[ "netif.descr" := "eth1" ]} |}.

(** A producer that takes deltas and resolves no enums. *)
Definition deltaConfig : ProducerConfig.t :=
  {| ProducerConfig.CollectorID := "c1"; ProducerConfig.EnumEnabled := false;
     ProducerConfig.Enums := None; ProducerConfig.CounterDeltaEnabled := true |}.

End Samples.

(** * Part III: properties *)

#[local] Set Warnings "-clear-no-such-hyp,-level-tolerance".

Module GoFacts.

Lemma app_cons (c : ascii) (a b : string) : String c a +:+ b = String c (a +:+ b).
Proof. reflexivity. Qed.

Lemma app_empty_l (b : string) : "" +:+ b = b.
Proof. reflexivity. Qed.

Lemma app_empty_r (s : string) : s +:+ "" = s.
Proof. induction s as [|c s IH]; [done|]. by rewrite app_cons, IH. Qed.

Lemma app_assoc (a b c : string) : (a +:+ b) +:+ c = a +:+ (b +:+ c).
Proof. induction a as [|x a IH]; [done|]. by rewrite !app_cons, IH. Qed.

Lemma length_app (a b : string) :
  String.length (a +:+ b) = String.length a + String.length b.
Proof. induction a as [|x a IH]; [done|]. rewrite app_cons. simpl. by rewrite IH. Qed.

Lemma substring_all (s : string) : String.substring 0 (String.length s) s = s.
Proof. induction s as [|c s IH]; simpl; [done|]. by rewrite IH. Qed.

Lemma substring_head (a b : string) :
  String.substring 0 (String.length a) (a +:+ b) = a.
Proof.
  induction a as [|x a IH].
  - rewrite app_empty_l. by destruct b.
  - rewrite app_cons. simpl. by rewrite IH.
Qed.

Lemma substring_tail (a b : string) :
  String.substring (String.length a) (String.length b) (a +:+ b) = b.
Proof.
  induction a as [|x a IH]; [apply substring_all|].
  rewrite app_cons. simpl. done.
Qed.

Lemma slice_to_app (a b : string) : Go.slice_to (a +:+ b) (String.length a) = a.
Proof. apply substring_head. Qed.

Lemma slice_from_app (a b : string) : Go.slice_from (a +:+ b) (String.length a) = b.
Proof.
  unfold Go.slice_from. rewrite length_app.
  replace (String.length a + String.length b - String.length a)
    with (String.length b) by lia.
  apply substring_tail.
Qed.

Lemma prefix_dot_cons (c : ascii) (s : string) :
  String.prefix "." (String c s) = bool_decide (c = "."%char).
Proof.
  change (String.prefix "." (String c s))
    with (if ascii_dec "." c then String.prefix "" s else false).
  destruct (ascii_dec "." c) as [<-|Hne].
  - by destruct s.
  - rewrite bool_decide_eq_false_2; [done|]. by intros ->.
Qed.

Lemma prefix_dot (s : string) :
  String.prefix "." s = true ↔ ∃ t, s = "." +:+ t.
Proof.
  split.
  - destruct s as [|c s]; [done|].
    rewrite prefix_dot_cons. intros ->%bool_decide_eq_true. by exists s.
  - intros [t ->]. rewrite app_cons, app_empty_l, prefix_dot_cons.
    by apply bool_decide_eq_true.
Qed.

Lemma LastIndex_from_cons (pos : Z) (c : ascii) (s sep : string) :
  Go.LastIndex_from pos (String c s) sep =
    let r := Go.LastIndex_from (pos + 1)%Z s sep in
    if (0 <=? r)%Z then r
    else if String.prefix sep (String c s) then pos else (-1)%Z.
Proof. reflexivity. Qed.

(** The last dot of a string splits it in two. *)
Lemma LastIndex_from_dot (s : string) (pos : Z) :
  (0 ≤ pos)%Z →
  Go.LastIndex_from pos s "." = (-1)%Z
  ∨ ∃ a b, s = a +:+ "." +:+ b
           ∧ Go.LastIndex_from pos s "." = (pos + Z.of_nat (String.length a))%Z.
Proof.
  revert pos. induction s as [|c s IH]; intros pos Hpos; [by left|].
  rewrite LastIndex_from_cons. cbv zeta.
  destruct (IH (pos + 1)%Z ltac:(lia)) as [->|(a & b & Hs & ->)].
  - change (0 <=? -1)%Z with false. cbv iota.
    rewrite prefix_dot_cons. case_bool_decide as Hc; [|by left].
    subst c. right. exists "", s. split; [done|]. simpl. lia.
  - right. exists (String c a), b. split; [by rewrite Hs|].
    change (String.length (String c a)) with (S (String.length a)).
    case_match eqn:Hle; [lia|].
    apply Z.leb_gt in Hle. lia.
Qed.

Lemma LastIndex_dot (s : string) :
  (Go.LastIndex s "." < 0)%Z
  ∨ ∃ a b, s = a +:+ "." +:+ b ∧ Go.LastIndex s "." = Z.of_nat (String.length a).
Proof.
  unfold Go.LastIndex.
  destruct (LastIndex_from_dot s 0 ltac:(lia)) as [->|(a & b & Hs & ->)]; [left; lia|].
  right. exists a, b. split; [done|lia].
Qed.

End GoFacts.

Module TrapFacts.
Import Models.
Import TrapSpec.




(** The index found by the scan is -1 or a position of the list: the
    indexing in parsev2Info never fails. *)
Lemma findTrapOID_range (vars : list Gosnmp.SnmpPDU) (i : Z) :
  Trap.findTrapOID vars i = (-1)%Z
  ∨ (i ≤ Trap.findTrapOID vars i < i + Z.of_nat (length vars))%Z.
Proof.
  revert i. induction vars as [|u vars IH]; intros i; simpl; [by left|].
  case_decide; [right; lia|].
  destruct (IH (i + 1)%Z) as [->|?]; [by left|right; lia].
Qed.

Lemma parsev2Info_total `{Extern} (pkt : Gosnmp.SnmpPacket) :
  is_Some (Trap.parsev2Info pkt).
Proof.
  unfold Trap.parsev2Info. cbv zeta. case_decide as Hneg; [done|].
  destruct (findTrapOID_range (Gosnmp.Variables pkt) 0) as [Heq|Hr]; [lia|].
  destruct (lookup_lt_is_Some_2 (Gosnmp.Variables pkt)
              (Z.to_nat (Trap.findTrapOID (Gosnmp.Variables pkt) 0))) as [v Hv];
    [lia|].
  by rewrite Hv.
Qed.





End TrapFacts.

Module DecoderFacts.
Import Models.
Import Decoder.
Import DecoderSpec.

(** The scan ends within its fuel, and what it finds is a key of the
    table followed by a dot and the instance. *)
Lemma prefixScan_spec (fuel : nat) (p : VarbindParser)
    (fullOID remaining tail : string) :
  fullOID = remaining +:+ tail → String.length remaining < fuel →
  ∃ r, prefixScan fuel p fullOID remaining = Some r
       ∧ ∀ a inst, r = (a, inst, true) →
           ∃ key, attrByOID p !! key = Some a ∧ fullOID = key +:+ "." +:+ inst.
Proof.
  revert remaining tail.
  induction fuel as [|fuel IH]; intros remaining tail Hfull Hlen; [lia|].
  simpl. destruct (GoFacts.LastIndex_dot remaining) as [Hneg|(a & b & Hrem & Hdot)].
  - rewrite decide_True by done. eexists. split; [done|]. by intros ?? [=].
  - rewrite decide_False by lia. rewrite Hdot, Nat2Z.id.
    assert (Hp : Go.slice_to remaining (String.length a) = a)
      by (rewrite Hrem; apply GoFacts.slice_to_app).
    rewrite Hp.
    destruct (attrByOID p !! a) as [attr|] eqn:Hlook.
    + eexists. split; [done|]. intros ?? [= <- <-]. exists a. split; [done|].
      rewrite Hfull, Hrem.
      replace (a +:+ "." +:+ b) with ((a +:+ ".") +:+ b)
        by apply GoFacts.app_assoc.
      rewrite GoFacts.app_assoc.
      replace (String.length a + 1) with (String.length (a +:+ "."))
        by (rewrite GoFacts.length_app; done).
      rewrite GoFacts.slice_from_app. by rewrite GoFacts.app_assoc.
    + apply (IH a ("." +:+ b +:+ tail)).
      * rewrite Hfull, Hrem. by rewrite !GoFacts.app_assoc.
      * rewrite Hrem, !GoFacts.length_app in Hlen.
        change (String.length ".") with 1 in Hlen. lia.
Qed.

Lemma matchAttribute_spec (p : VarbindParser) (fullOID : string) :
  ∃ r, matchAttribute p fullOID = Some r
       ∧ ∀ a inst, r = (a, inst, true) →
           ∃ key, attrByOID p !! key = Some a ∧ matches key fullOID inst.
Proof.
  unfold matchAttribute. destruct (attrByOID p !! fullOID) as [a|] eqn:Hlook.
  - eexists. split; [done|]. intros ?? [= <- <-]. exists fullOID.
    split; [done|]. by left.
  - destruct (prefixScan_spec (S (String.length fullOID)) p fullOID fullOID "")
      as (r & Hr & Hspec); [by rewrite GoFacts.app_empty_r|lia|].
    exists r. split; [done|]. intros a inst Heq.
    destruct (Hspec a inst Heq) as (key & Hkey & Hfull).
    exists key. split; [done|]. by right.
Qed.

(** Every key of the table of a parser is the normalised OID of an
    attribute of the definition it was built from. *)
Lemma NewVarbindParser_keys (o : MapOrder) (def : ObjectDefinition.t)
    (p : VarbindParser) :
  NewVarbindParser o def = inl p →
  ∀ key attr, attrByOID p !! key = Some attr →
    key = normaliseOID (AttributeDefinition.OID attr)
    ∧ ∃ name, ObjectDefinition.Attributes def !! name = Some attr.
Proof.
  unfold NewVarbindParser. case_decide; [done|].
  set (step := λ (acc : gmap string AttributeDefinition.t + error) kv, _).
  intros Hfold.
  assert (Hinv : ∀ l (acc : gmap string AttributeDefinition.t + error),
            (∀ kv, kv ∈ l → ObjectDefinition.Attributes def !! kv.1 = Some kv.2) →
            (∀ m, acc = inl m → ∀ key attr, m !! key = Some attr →
               key = normaliseOID (AttributeDefinition.OID attr)
               ∧ ∃ name, ObjectDefinition.Attributes def !! name = Some attr) →
            ∀ m, foldl step acc l = inl m → ∀ key attr, m !! key = Some attr →
               key = normaliseOID (AttributeDefinition.OID attr)
               ∧ ∃ name, ObjectDefinition.Attributes def !! name = Some attr).
  { induction l as [|kv l IH]; intros acc Hl Hacc; simpl; [done|].
    apply IH; [intros ??; apply Hl; by right|].
    intros m. unfold step at 1. destruct acc as [m0|e]; [|done].
    case_decide; [done|]. intros [= <-] key attr.
    rewrite lookup_insert. case_decide as Hk.
    - intros [= <-]. split; [done|]. exists kv.1. apply Hl. by left.
    - by apply Hacc. }
  destruct (foldl step (inl ∅) _) as [m|e] eqn:Hm; [|done].
  injection Hfold as <-. simpl.
  eapply (Hinv _ (inl ∅)); [|by intros ? [= <-] ??; rewrite lookup_empty|exact Hm].
  intros [k a] Hin. simpl.
  apply elem_of_map_to_list.
  by rewrite <- (Go.range_perm o _ "attributes" (ObjectDefinition.Attributes def)).
Qed.

Lemma parseLoop_spec (ConvertValue : Converter) (p : VarbindParser)
    (P : DecodedVarbind.t → Prop) (pdus : list Gosnmp.SnmpPDU)
    (result : list DecodedVarbind.t) :
  (∀ key attr fullOID inst v ty,
     attrByOID p !! key = Some attr → matches key fullOID inst →
     P {| DecodedVarbind.OID := fullOID;
          DecodedVarbind.AttributeName := AttributeDefinition.Name attr;
          DecodedVarbind.Instance := inst;
          DecodedVarbind.Value := v;
          DecodedVarbind.SNMPType := ty;
          DecodedVarbind.Syntax := AttributeDefinition.Syntax attr;
          DecodedVarbind.IsTag := AttributeDefinition.IsTag attr |}) →
  Forall P result →
  ∃ result' err, parseLoop ConvertValue p result pdus = Some (result', err)
                 ∧ Forall P result'.
Proof.
  intros HP. revert result.
  induction pdus as [|pdu pdus IH]; intros result Hres; simpl; [by eauto|].
  unfold parseStep. destruct (IsErrorType _); [by apply IH|].
  destruct (matchAttribute_spec p (normaliseOID (Gosnmp.Name pdu)))
    as ([[attr inst] found] & -> & Hspec).
  destruct found; simpl; [|by apply IH].
  destruct (Hspec attr inst eq_refl) as (key & Hkey & Hm).
  destruct (ConvertValue _ _ _) as [v|cause]; [|by eauto].
  apply IH. apply Forall_app. split; [done|].
  apply Forall_singleton. by eapply HP.
Qed.

(** C7.  With a parser built from an object definition, Parse always
    returns, and every varbind it decodes carries the name of an
    attribute of the definition whose OID (as the parser stores it:
    normalised) is a prefix of the varbind's OID; the instance is what
    follows that prefix and the dot, or "0" when the OID is the
    attribute's OID itself.  This holds for the partial result returned
    with a conversion error as well. *)
Theorem decoded_varbind_instance (ConvertValue : Converter) (o : MapOrder)
    (def : ObjectDefinition.t) (p : VarbindParser) (pdus : list Gosnmp.SnmpPDU) :
  NewVarbindParser o def = inl p →
  ∃ result err,
    Parse ConvertValue p pdus = Some (result, err)
    ∧ Forall (λ dv,
        ∃ name attr,
          ObjectDefinition.Attributes def !! name = Some attr
          ∧ DecodedVarbind.AttributeName dv = AttributeDefinition.Name attr
          ∧ let key := normaliseOID (AttributeDefinition.OID attr) in
            (DecodedVarbind.OID dv = key ∧ DecodedVarbind.Instance dv = "0")
            ∨ DecodedVarbind.OID dv = key +:+ "." +:+ DecodedVarbind.Instance dv)
        result.
Proof.
  intros Hnew. unfold Parse.
  apply (parseLoop_spec ConvertValue p (decodedFrom def)); [|done].
  intros key attr fullOID inst v ty Hkey Hm.
  destruct (NewVarbindParser_keys o def p Hnew key attr Hkey) as (-> & name & Hname).
  by exists name, attr.
Qed.

(** A walk of two rows of ifInOctets. *)
Lemma decoded_varbind_instance_witness :
  ∃ result err,
    Parse Samples.rawConverter Samples.ifEntryParser Samples.ifEntryWalk
      = Some (result, err)
    ∧ Forall (λ dv,
        ∃ name attr,
          ObjectDefinition.Attributes Samples.ifEntry !! name = Some attr
          ∧ DecodedVarbind.AttributeName dv = AttributeDefinition.Name attr
          ∧ let key := normaliseOID (AttributeDefinition.OID attr) in
            (DecodedVarbind.OID dv = key ∧ DecodedVarbind.Instance dv = "0")
            ∨ DecodedVarbind.OID dv = key +:+ "." +:+ DecodedVarbind.Instance dv)
        result.
Proof.
  apply (decoded_varbind_instance Samples.rawConverter Go.canonical_order
           Samples.ifEntry Samples.ifEntryParser Samples.ifEntryWalk).
  vm_compute. reflexivity.
Defined.

End DecoderFacts.

Module RangeFacts.

Lemma elem_of_range {A : Type} (o : MapOrder) (site : string)
    (m : gmap string A) (k : string) (a : A) :
  (k, a) ∈ Go.range o site m ↔ m !! k = Some a.
Proof.
  unfold Go.range. rewrite (Go.range_perm o A site m).
  apply elem_of_map_to_list.
Qed.

Lemma NoDup_range_keys {A : Type} (o : MapOrder) (site : string)
    (m : gmap string A) :
  NoDup (Go.range o site m).*1.
Proof.
  unfold Go.range. rewrite (Go.range_perm o A site m).
  apply NoDup_fst_map_to_list.
Qed.

Lemma range_singleton {A : Type} (o : MapOrder) (site : string)
    (k : string) (a : A) :
  Go.range o site ({[k := a]} : gmap string A) = [(k, a)].
Proof.
  apply Permutation_singleton_r. unfold Go.range.
  rewrite (Go.range_perm o A site). by rewrite map_to_list_singleton.
Qed.

Lemma range_empty {A : Type} (o : MapOrder) (site : string) :
  Go.range o site (∅ : gmap string A) = [].
Proof.
  apply Permutation_nil_r. unfold Go.range.
  rewrite (Go.range_perm o A site). by rewrite map_to_list_empty.
Qed.

(** Writing [f v] under every key of a list of entries with distinct
    keys, in whatever order, gives the map of the [f v]. *)
Lemma foldl_insert_lookup {A B : Type} (f : A → B) (l : list (string * A))
    (acc : gmap string B) (k : string) :
  NoDup l.*1 →
  foldl (λ res kv, <[kv.1 := f kv.2]> res) acc l !! k
  = match (list_to_map l : gmap string A) !! k with
    | Some a => Some (f a)
    | None => acc !! k
    end.
Proof.
  revert acc. induction l as [|[k' a] l IH]; intros acc Hnd; simpl; [done|].
  apply NoDup_cons in Hnd as [Hk' Hnd]. rewrite IH by done.
  destruct (decide (k' = k)) as [->|Hne].
  - rewrite lookup_insert_eq.
    rewrite (not_elem_of_list_to_map_1 _ _ Hk'). by rewrite lookup_insert_eq.
  - rewrite !lookup_insert_ne by done. done.
Qed.

Lemma foldl_insert_range {A B : Type} (f : A → B) (o : MapOrder) (site : string)
    (m : gmap string A) :
  foldl (λ res kv, <[kv.1 := f kv.2]> res) ∅ (Go.range o site m) = f <$> m.
Proof.
  apply map_eq. intros k.
  rewrite foldl_insert_lookup by apply NoDup_range_keys.
  rewrite <- (list_to_map_flip m (Go.range o site m))
    by (symmetry; apply Go.range_perm).
  rewrite lookup_fmap, lookup_empty. by destruct (m !! k).
Qed.

(** A loop inside a loop is one loop over the pairs. *)
Lemma foldl_nested {A B S : Type} (L : A → list B) (g : A → S → B → S)
    (l : list A) (s : S) :
  foldl (λ acc a, foldl (g a) acc (L a)) s l
  = foldl (λ acc ab, g ab.1 acc ab.2) s (flat_map (λ a, map (pair a) (L a)) l).
Proof.
  revert s. induction l as [|a l IH]; intros s; simpl; [done|].
  rewrite foldl_app, IH. f_equal.
  generalize (L a). intros lb. revert s.
  induction lb as [|b lb IHb]; intros s; simpl; [done|]. by rewrite IHb.
Qed.

(** Pairs of an outer and an inner key are distinct when both are. *)
Lemma NoDup_flat_map_keys {A K : Type} (l : list (string * A))
    (L : string * A → list K) :
  NoDup l.*1 → (∀ kv, kv ∈ l → NoDup (L kv)) →
  NoDup (flat_map (λ kv, map (pair kv.1) (L kv)) l).
Proof.
  induction l as [|kv l IH]; intros Hnd HL; simpl; [constructor|].
  apply NoDup_cons in Hnd as [Hk Hnd].
  apply NoDup_app. split_and!.
  - apply NoDup_fmap_2; [by intros ?? [=]|]. apply HL. by left.
  - intros [k x] [y [[= -> ->] Hy]]%list_elem_of_fmap Hin.
    apply list_elem_of_In, in_flat_map in Hin as [kv' [Hkv' Hin]].
    apply list_elem_of_In, list_elem_of_fmap in Hin as [z [[= Hk' ->] Hz]].
    apply Hk. rewrite Hk'. apply list_elem_of_fmap. exists kv'.
    split; [done|]. by apply list_elem_of_In.
  - apply IH; [done|]. intros ??. apply HL. by right.
Qed.

(** A projection that tells apart at least what another one does has
    no more repetitions than it. *)
Lemma NoDup_map_finer {A B C : Type} (f : A → B) (g : A → C) (l : list A) :
  (∀ a b, a ∈ l → b ∈ l → g a = g b → f a = f b) →
  NoDup (map f l) → NoDup (map g l).
Proof.
  induction l as [|a l IH]; intros Hfg Hnd; [constructor|].
  cbn [map] in *. apply NoDup_cons in Hnd as [Ha Hnd]. apply NoDup_cons. split.
  - intros (b & Hgb & Hb)%list_elem_of_fmap. apply Ha.
    apply list_elem_of_fmap. exists b. split; [|done].
    apply Hfg; [by left|by right|done].
  - apply IH; [|done]. intros ?? ??. apply Hfg; by right.
Qed.

End RangeFacts.

Module MetricsFacts.
Import Models.
Import Decoder.
Import Metrics.
Import ProducerSpec.

(** *** The enum registry *)

Lemma Resolve_oid_label (r : EnumRegistry) (oid label : string)
    (rawValue : Go.Value) :
  oids r !! normaliseRegistryOID oid = Some label →
  Resolve r oid rawValue = VString label.
Proof. intros Hl. unfold Resolve. cbv zeta. by rewrite Hl. Qed.

(** C10.  A label registered with RegisterOIDEnum under an attribute's
    OID is what Resolve returns for that OID, whatever the raw value
    (an integer as well), and whether an integer or bitmap enumeration
    is registered for the same OID before or after it. *)
Theorem Resolve_oid_enum_first (r : EnumRegistry) (oid label : string)
    (isBitmap : bool) (values : gmap Z string) (rawValue : Go.Value) :
  Resolve (RegisterOIDEnum r oid label) oid rawValue = VString label
  ∧ Resolve (RegisterIntEnum (RegisterOIDEnum r oid label) oid isBitmap values)
            oid rawValue = VString label
  ∧ Resolve (RegisterOIDEnum (RegisterIntEnum r oid isBitmap values) oid label)
            oid rawValue = VString label.
Proof.
  split_and!; apply Resolve_oid_label; simpl; apply lookup_insert_eq.
Qed.

(** *** The counter state *)

Lemma Delta_fresh (s : CounterState) (key : CounterKey.t) (current : Z)
    (now : Go.Time) (wrap : Z) :
  entries s !! key = None →
  (Delta s key current now wrap).1 = invalidResult.
Proof. intros Hk. unfold Delta. cbv zeta. by rewrite Hk. Qed.

Lemma Delta_entries (s : CounterState) (key : CounterKey.t) (current : Z)
    (now : Go.Time) (wrap : Z) :
  entries (Delta s key current now wrap).2
  = <[key := {| Value := current; SeenAt := now |}]> (entries s).
Proof.
  unfold Delta. cbv zeta. destruct (entries s !! key); [|done].
  by case_decide.
Qed.

(** The result of Delta depends on the entry of its key only. *)
Lemma Delta_local (s s' : CounterState) (key : CounterKey.t) (current : Z)
    (now : Go.Time) (wrap : Z) :
  entries s !! key = entries s' !! key →
  (Delta s key current now wrap).1 = (Delta s' key current now wrap).1.
Proof.
  intros Hk. unfold Delta. cbv zeta. rewrite Hk.
  destruct (entries s' !! key); [|done]. by case_decide.
Qed.

Lemma Remove_lookup (s : CounterState) (key : CounterKey.t) :
  entries (Remove s key) !! key = None.
Proof. apply lookup_delete_eq. Qed.

Lemma Purge_lookup (s : CounterState) (maxAge : Go.Duration) (now : Go.Time)
    (key : CounterKey.t) :
  entries (Purge s maxAge now).2 !! key
  = match entries s !! key with
    | Some e =>
        if Go.Before (SeenAt e) (Go.Add now (Go.wrap_int64 (- maxAge)))
        then None else Some e
    | None => None
    end.
Proof.
  unfold Purge. cbv zeta. simpl.
  destruct (entries s !! key) as [e|] eqn:He.
  - destruct (Go.Before _ _) eqn:Hb.
    + apply map_lookup_filter_None. right. intros e' He' Hst. simpl in Hst.
      rewrite He in He'. injection He' as <-. by apply Hst.
    + apply map_lookup_filter_Some. split; [done|]. simpl. by rewrite Hb.
  - apply map_lookup_filter_None. by left.
Qed.

Lemma counter_not_enum (syntax : string) :
  IsCounterSyntax syntax = true → isEnumSyntax syntax = false.
Proof.
  unfold IsCounterSyntax, isEnumSyntax.
  intros [-> | ->]%bool_decide_eq_true; by vm_compute.
Qed.

(** *** Steps 1 and 2 of Build *)

Lemma partition_metrics `{Extern} (vbs : list DecodedVarbind.t) (instance : string) :
  (foldl partitionStep (∅, ∅) vbs).2 !! instance
  = if decide (measurementsOf instance vbs = []) then None
    else Some (measurementsOf instance vbs).
Proof.
  induction vbs as [|vb vbs IH] using rev_ind; [done|].
  rewrite foldl_snoc. unfold measurementsOf in *. rewrite filter_app.
  destruct (foldl partitionStep (∅, ∅) vbs) as [tags mets]. simpl in IH.
  unfold partitionStep. destruct (DecodedVarbind.IsTag vb) eqn:Htag; simpl.
  - rewrite filter_cons_False by (intros [? ?]; congruence).
    rewrite filter_nil, app_nil_r. done.
  - destruct (decide (DecodedVarbind.Instance vb = instance)) as [Hi|Hi].
    + rewrite filter_cons_True by done. rewrite filter_nil.
      rewrite Hi, lookup_insert_eq, IH.
      rewrite (decide_False (P := _ ++ [vb] = [])) by (by intros [_ [=]]%app_eq_nil).
      f_equal. case_decide as Hm; [by rewrite Hm|done].
    + rewrite filter_cons_False by (intros [? ?]; congruence).
      rewrite filter_nil, app_nil_r. by rewrite lookup_insert_ne.
Qed.

(** *** Step 3 of Build *)

Lemma overrideResolve_spec (vbs : list DecodedVarbind.t) (name : string) :
  match overrideResolve vbs !! name with
  | None => filter (λ vb, DecodedVarbind.AttributeName vb = name) vbs = []
  | Some w => firstHighest (filter (λ vb, DecodedVarbind.AttributeName vb = name) vbs) w
  end.
Proof.
  unfold overrideResolve.
  induction vbs as [|vb vbs IH] using rev_ind; [done|].
  rewrite foldl_snoc, filter_app. unfold overrideStep at 1.
  set (byName := foldl overrideStep ∅ vbs) in *.
  destruct (decide (DecodedVarbind.AttributeName vb = name)) as [Hn|Hn].
  - rewrite filter_cons_True by done. rewrite filter_nil. subst name.
    destruct (byName !! DecodedVarbind.AttributeName vb) as [w|] eqn:Hw.
    + destruct IH as (pre & post & Hc & Hpre & Hpost).
      fold (priorityOf vb) (priorityOf w). case_decide as Hp.
      * rewrite lookup_insert_eq. exists (pre ++ w :: post), [].
        split; [by rewrite Hc|]. split; [|constructor].
        apply Forall_app. split.
        { eapply Forall_impl; [exact Hpre|]. simpl. lia. }
        constructor; [lia|].
        eapply Forall_impl; [exact Hpost|]. simpl. lia.
      * rewrite Hw. exists pre, (post ++ [vb]).
        split; [by rewrite Hc, <- app_assoc|]. split; [done|].
        apply Forall_app. split; [done|]. apply Forall_singleton. lia.
    + rewrite lookup_insert_eq, IH. exists [], []. by repeat constructor.
  - rewrite filter_cons_False by done. rewrite filter_nil, app_nil_r.
    assert (Hl : ∀ m : gmap string DecodedVarbind.t,
              <[DecodedVarbind.AttributeName vb := vb]> m !! name = m !! name)
      by (intros; by rewrite lookup_insert_ne).
    destruct (byName !! DecodedVarbind.AttributeName vb) as [w|];
      [case_decide|]; by rewrite ?Hl.
Qed.

Lemma firstHighest_elem (cands : list DecodedVarbind.t) (w : DecodedVarbind.t) :
  firstHighest cands w → w ∈ cands.
Proof. intros (pre & post & -> & _). apply elem_of_app. right. by left. Qed.

Lemma overrideResolve_name (vbs : list DecodedVarbind.t) (name : string)
    (w : DecodedVarbind.t) :
  overrideResolve vbs !! name = Some w → DecodedVarbind.AttributeName w = name.
Proof.
  intros Hw. pose proof (overrideResolve_spec vbs name) as Hs. rewrite Hw in Hs.
  apply firstHighest_elem, list_elem_of_filter in Hs. by destruct Hs.
Qed.

Lemma resolveAll_eq (o : MapOrder)
    (metricsByInstance : gmap string (list DecodedVarbind.t)) :
  resolveAll o metricsByInstance = overrideResolve <$> metricsByInstance.
Proof. apply RangeFacts.foldl_insert_range. Qed.

End MetricsFacts.

Module BuildFacts.
Import Models.
Import Decoder.
Import Metrics.
Import ProducerSpec.
Import MetricsFacts.

Lemma agree_refl (K : CounterKey.t → Prop) (c : option CounterState) :
  agree K c c.
Proof. by destruct c. Qed.

Lemma agree_trans (K : CounterKey.t → Prop) (c1 c2 c3 : option CounterState) :
  agree K c1 c2 → agree K c2 c3 → agree K c1 c3.
Proof.
  destruct c1, c2, c3; simpl; try done. intros H12 H23 k Hk.
  by rewrite H12, H23.
Qed.

Lemma agree_weaken (K K' : CounterKey.t → Prop) (c c' : option CounterState) :
  (∀ k, K' k → K k) → agree K c c' → agree K' c c'.
Proof. destruct c, c'; simpl; try done. intros HK Ha k Hk. apply Ha, HK, Hk. Qed.

(** The metric assembled for a varbind depends on the counter state
    through the entry of the varbind's key only. *)
Lemma assemble_metric_local (opts : BuildOptions) (hostname : string)
    (now : Go.Time) (instance : string) (tags : gmap string string)
    (c c' : option CounterState) (vb : DecodedVarbind.t) :
  agree (λ k, k = keyOf hostname instance vb) c c' →
  (assemble opts hostname now instance tags c vb).1
  = (assemble opts hostname now instance tags c' vb).1.
Proof.
  intros Ha. unfold assemble. cbv zeta.
  set (value := match Enums opts with Some _ => _ | None => _ end).
  destruct c as [cs|], c' as [cs'|]; simpl in Ha; try done.
  destruct (IsCounterSyntax _); [|done].
  destruct (toUint64Safe value) as [raw|]; [|done].
  fold (keyOf hostname instance vb).
  pose proof (Delta_local cs cs' (keyOf hostname instance vb) raw now
                (WrapForSyntax (DecodedVarbind.Syntax vb)) (Ha _ eq_refl)) as Hd.
  destruct (Delta cs _ _ _ _) as [dr s1], (Delta cs' _ _ _ _) as [dr' s2].
  simpl in Hd. by subst dr'.
Qed.

(** Assembling a varbind leaves every other key of the state alone. *)
Lemma assemble_state_frame (opts : BuildOptions) (hostname : string)
    (now : Go.Time) (instance : string) (tags : gmap string string)
    (c : option CounterState) (vb : DecodedVarbind.t) :
  agree (λ k, k ≠ keyOf hostname instance vb)
        (assemble opts hostname now instance tags c vb).2 c.
Proof.
  unfold assemble. cbv zeta.
  set (value := match Enums opts with Some _ => _ | None => _ end).
  destruct c as [cs|]; [|done].
  destruct (IsCounterSyntax _); [|by apply agree_refl].
  destruct (toUint64Safe value) as [raw|]; [|by apply agree_refl].
  fold (keyOf hostname instance vb).
  pose proof (Delta_entries cs (keyOf hostname instance vb) raw now
                (WrapForSyntax (DecodedVarbind.Syntax vb))) as Hd.
  destruct (Delta cs _ _ _ _) as [dr s1]. simpl in *.
  intros k Hk. rewrite Hd. by rewrite lookup_insert_ne.
Qed.

(** The fields of an assembled metric that do not depend on any state. *)
Lemma assemble_fields (opts : BuildOptions) (hostname : string)
    (now : Go.Time) (instance : string) (tags : gmap string string)
    (c : option CounterState) (vb : DecodedVarbind.t) :
  let m := (assemble opts hostname now instance tags c vb).1 in
  Metric.OID m = DecodedVarbind.OID vb
  ∧ Metric.Name m = DecodedVarbind.AttributeName vb
  ∧ Metric.Instance m = instance
  ∧ Metric.Type_ m = DecodedVarbind.SNMPType vb
  ∧ Metric.Syntax m = DecodedVarbind.Syntax vb.
Proof.
  unfold assemble. cbv zeta.
  set (value := match Enums opts with Some _ => _ | None => _ end).
  destruct c as [cs|]; [|done].
  destruct (IsCounterSyntax _); [|done].
  destruct (toUint64Safe value) as [raw|]; [|done].
  by destruct (Delta cs _ _ _ _) as [dr s1].
Qed.

(** The value of a metric assembled for a counter that has no entry. *)
Lemma assemble_fresh_counter (opts : BuildOptions) (hostname : string)
    (now : Go.Time) (instance : string) (tags : gmap string string)
    (cs : CounterState) (vb : DecodedVarbind.t) :
  IsCounterSyntax (DecodedVarbind.Syntax vb) = true →
  entries cs !! keyOf hostname instance vb = None →
  let m := (assemble opts hostname now instance tags (Some cs) vb).1 in
  match toUint64Safe (DecodedVarbind.Value vb) with
  | Some _ => Metric.Value m = VUint64 0
  | None => Metric.Value m = DecodedVarbind.Value vb
  end.
Proof.
  intros Hsyn Hkey. unfold assemble. cbv zeta.
  rewrite Hsyn, (counter_not_enum _ Hsyn).
  replace (match Enums opts with Some _ => _ | None => _ end)
    with (DecodedVarbind.Value vb) by (by destruct (Enums opts)).
  destruct (toUint64Safe _) as [raw|]; [|done].
  fold (keyOf hostname instance vb).
  pose proof (Delta_fresh cs (keyOf hostname instance vb) raw now
                (WrapForSyntax (DecodedVarbind.Syntax vb)) Hkey) as Hd.
  destruct (Delta cs _ _ _ _) as [dr s1]. simpl in Hd. by subst dr.
Qed.

Lemma elem_of_itemsOf (o : MapOrder)
    (resolved : gmap string (gmap string DecodedVarbind.t))
    (instance : string) (byName : gmap string DecodedVarbind.t)
    (name : string) (vb : DecodedVarbind.t) :
  ((instance, byName), (name, vb)) ∈ itemsOf o resolved
  ↔ resolved !! instance = Some byName ∧ byName !! name = Some vb.
Proof.
  unfold itemsOf. rewrite list_elem_of_In, in_flat_map. split.
  - intros ([i b] & Hkv & Hin). apply list_elem_of_In in Hkv, Hin.
    apply list_elem_of_fmap in Hin as ([n v] & [= -> -> -> ->] & Hnv).
    apply RangeFacts.elem_of_range in Hkv, Hnv. done.
  - intros [Hi Hn]. exists (instance, byName). split.
    + by apply list_elem_of_In, RangeFacts.elem_of_range.
    + apply list_elem_of_In, list_elem_of_fmap. exists (name, vb).
      split; [done|]. by apply RangeFacts.elem_of_range.
Qed.

Lemma NoDup_itemsOf_pairs (o : MapOrder)
    (resolved : gmap string (gmap string DecodedVarbind.t)) :
  NoDup (map (λ ab : (string * gmap string DecodedVarbind.t)
                     * (string * DecodedVarbind.t), (ab.1.1, ab.2.1))
             (itemsOf o resolved)).
Proof.
  unfold itemsOf.
  assert (Hnd := RangeFacts.NoDup_range_keys o "resolved" resolved).
  induction (Go.range o "resolved" resolved) as [|kv l IH]; [constructor|].
  rewrite fmap_cons in Hnd. apply NoDup_cons in Hnd as [Hk Hnd].
  cbn [flat_map]. rewrite map_app. apply NoDup_app.
  split_and!; [| |by apply IH].
  - rewrite map_map.
    replace (map (λ x : string * DecodedVarbind.t, ((kv, x).1.1, (kv, x).2.1))
                 (Go.range o ("byName:" +:+ kv.1) kv.2))
      with (pair kv.1 <$> (Go.range o ("byName:" +:+ kv.1) kv.2).*1)
      by (by rewrite <- list_fmap_compose).
    apply (NoDup_fmap_2 (pair kv.1)), RangeFacts.NoDup_range_keys.
  - intros [i n] Hin1 Hin2.
    apply list_elem_of_fmap in Hin1 as (ab & [= -> ->] & Hab).
    apply list_elem_of_fmap in Hab as (nv & -> & _). simpl in *.
    apply list_elem_of_fmap in Hin2 as (ab' & [= Hi Hn] & Hab').
    apply list_elem_of_In, in_flat_map in Hab' as (kv' & Hkv' & Hab').
    apply list_elem_of_In, list_elem_of_fmap in Hab' as (nv' & -> & _).
    simpl in *. apply Hk. rewrite Hi. apply list_elem_of_fmap.
    exists kv'. split; [done|]. by apply list_elem_of_In.
Qed.

Lemma emit_loop_items (o : MapOrder) (opts : BuildOptions) (hostname : string)
    (now : Go.Time) (tagsByInstance : gmap string (gmap string string))
    (resolved : gmap string (gmap string DecodedVarbind.t))
    (acc : list Metric.t * option CounterState) :
  foldl (emitInstance o opts hostname now tagsByInstance) acc
        (Go.range o "resolved" resolved)
  = foldl (emitItem opts hostname now tagsByInstance) acc (itemsOf o resolved).
Proof.
  exact (RangeFacts.foldl_nested
           (λ kv, Go.range o ("byName:" +:+ kv.1) kv.2)
           (λ kv, emit opts hostname now kv.1
                       (default ∅ (tagsByInstance !! kv.1)))
           (Go.range o "resolved" resolved) acc).
Qed.

Lemma emit_items_metrics (opts : BuildOptions) (hostname : string)
    (now : Go.Time) (tagsByInstance : gmap string (gmap string string))
    (items : list ((string * gmap string DecodedVarbind.t)
                   * (string * DecodedVarbind.t)))
    (ms : list Metric.t) (c : option CounterState) :
  NoDup (map (λ ab, keyOf hostname ab.1.1 ab.2.2) items) →
  agree (λ k, k ∈ map (λ ab, keyOf hostname ab.1.1 ab.2.2) items) c (Counters opts) →
  (foldl (emitItem opts hostname now tagsByInstance) (ms, c) items).1
  = ms ++ map (metricOf opts hostname now tagsByInstance) items.
Proof.
  revert ms c. induction items as [|ab items IH]; intros ms c Hnd Hag.
  - simpl. by rewrite app_nil_r.
  - simpl in Hnd, Hag. apply NoDup_cons in Hnd as [Hk Hnd].
    pose proof (assemble_metric_local opts hostname now ab.1.1
                  (default ∅ (tagsByInstance !! ab.1.1)) c (Counters opts) ab.2.2)
      as Hm.
    pose proof (assemble_state_frame opts hostname now ab.1.1
                  (default ∅ (tagsByInstance !! ab.1.1)) c ab.2.2) as Hf.
    destruct (assemble opts hostname now ab.1.1 _ c ab.2.2) as [m c1] eqn:Hasm.
    assert (Hstep : emitItem opts hostname now tagsByInstance (ms, c) ab
                    = (ms ++ [m], c1)).
    { unfold emitItem, emit. by rewrite Hasm. }
    simpl in Hm, Hf. cbn [foldl map]. rewrite Hstep, IH.
    + rewrite <- app_assoc. simpl. do 2 f_equal. unfold metricOf.
      rewrite <- Hm; [done|].
      eapply agree_weaken; [|exact Hag]. intros k ->. simpl. by left.
    + done.
    + eapply agree_trans.
      * eapply agree_weaken; [|exact Hf]. intros k Hin ->. by apply Hk.
      * eapply agree_weaken; [|exact Hag]. intros k Hin. simpl. by right.
Qed.

End BuildFacts.

Module ProducerFacts.
Import Models.
Import Decoder.
Import Metrics.
Import ProducerSpec.
Import MetricsFacts.
Import BuildFacts.

(** A winner stands under its own name, and is the first of the
    highest-ranking candidates of its instance and name. *)
Lemma winnersOf_spec `{Extern} (decoded : DecodedPollResult.t)
    (instance : string) (byName : gmap string DecodedVarbind.t)
    (name : string) (w : DecodedVarbind.t) :
  winnersOf decoded !! instance = Some byName → byName !! name = Some w →
  DecodedVarbind.AttributeName w = name
  ∧ firstHighest (candidates instance name (DecodedPollResult.Varbinds decoded)) w.
Proof.
  unfold winnersOf, partsOf. rewrite lookup_fmap, partition_metrics.
  case_decide as Hm; [done|]. simpl. intros [= <-] Hw.
  split; [by eapply overrideResolve_name|].
  pose proof (overrideResolve_spec
                (measurementsOf instance (DecodedPollResult.Varbinds decoded)) name)
    as Hs.
  by rewrite Hw in Hs.
Qed.

Lemma winnersOf_complete `{Extern} (decoded : DecodedPollResult.t)
    (instance name : string) :
  candidates instance name (DecodedPollResult.Varbinds decoded) ≠ [] →
  ∃ byName w, winnersOf decoded !! instance = Some byName ∧ byName !! name = Some w.
Proof.
  intros Hc. unfold winnersOf, partsOf. rewrite lookup_fmap, partition_metrics.
  case_decide as Hm.
  - exfalso. apply Hc. unfold candidates. by rewrite Hm.
  - simpl.
    pose proof (overrideResolve_spec
                  (measurementsOf instance (DecodedPollResult.Varbinds decoded)) name)
      as Hs.
    destruct (overrideResolve _ !! name) as [w|] eqn:Hw; [by eauto|].
    by destruct Hc.
Qed.

Lemma NoDup_item_keys `{Extern} (o : MapOrder) (decoded : DecodedPollResult.t)
    (hostname : string) :
  NoDup (map (λ ab : (string * gmap string DecodedVarbind.t)
                     * (string * DecodedVarbind.t),
                keyOf hostname ab.1.1 ab.2.2)
             (itemsOf o (winnersOf decoded))).
Proof.
  eapply RangeFacts.NoDup_map_finer; [|apply NoDup_itemsOf_pairs].
  intros [[i b] [n v]] [[i' b'] [n' v']] Hin Hin'. simpl.
  apply elem_of_itemsOf in Hin as [Hi Hn], Hin' as [Hi' Hn'].
  destruct (winnersOf_spec decoded i b n v Hi Hn) as [<- _].
  destruct (winnersOf_spec decoded i' b' n' v' Hi' Hn') as [<- _].
  unfold keyOf. by intros [= -> ->].
Qed.

(** The metrics of a batch: one per winning varbind, each assembled
    against the counter state Build was called with. *)
Lemma Build_metrics `{Extern} (o : MapOrder) (clock : Go.Time)
    (decoded : DecodedPollResult.t) (opts : BuildOptions) :
  SNMPMetric.Metrics (Build o clock decoded opts).1
  = map (metricOf opts (hostOf decoded) (nowOf clock decoded) (partsOf decoded).1)
        (itemsOf o (winnersOf decoded)).
Proof.
  unfold Build. cbv zeta. simpl.
  rewrite resolveAll_eq, emit_loop_items.
  rewrite emit_items_metrics; [done|apply NoDup_item_keys|apply agree_refl].
Qed.

(** A batch with a single measurement. *)
Lemma Build_single `{Extern} (o : MapOrder) (clock : Go.Time)
    (decoded : DecodedPollResult.t) (opts : BuildOptions) (vb : DecodedVarbind.t) :
  DecodedPollResult.Varbinds decoded = [vb] → DecodedVarbind.IsTag vb = false →
  let r := assemble opts (hostOf decoded) (nowOf clock decoded)
                    (DecodedVarbind.Instance vb) ∅ (Counters opts) vb in
  SNMPMetric.Metrics (Build o clock decoded opts).1 = [r.1]
  ∧ (Build o clock decoded opts).2 = r.2.
Proof.
  intros Hvbs Htag. cbv zeta. unfold Build. cbv zeta. rewrite Hvbs.
  assert (Hparts : foldl partitionStep (∅, ∅) [vb]
                   = (∅, {[DecodedVarbind.Instance vb := [vb]]})).
  { cbn [foldl]. unfold partitionStep. rewrite Htag, lookup_empty. simpl.
    by rewrite insert_empty. }
  assert (Hov : overrideResolve [vb]
                = {[DecodedVarbind.AttributeName vb := vb]}).
  { unfold overrideResolve. cbn [foldl]. unfold overrideStep.
    by rewrite lookup_empty, insert_empty. }
  rewrite Hparts. cbn [fst snd].
  rewrite resolveAll_eq, map_fmap_singleton, RangeFacts.range_singleton.
  cbn [foldl]. unfold emitInstance. cbn [fst snd].
  rewrite Hov, RangeFacts.range_singleton. cbn [foldl]. unfold emit.
  rewrite lookup_empty. cbn [default fst snd].
  fold (hostOf decoded) (nowOf clock decoded).
  by destruct (assemble _ _ _ _ _ _ _).
Qed.

(** C4.  In every batch Build returns, the pair (Instance, Name) is
    unique among the metrics. *)
Theorem Build_unique_instance_name `{Extern} (o : MapOrder) (clock : Go.Time)
    (decoded : DecodedPollResult.t) (opts : BuildOptions) :
  NoDup (map (λ m, (Metric.Instance m, Metric.Name m))
             (SNMPMetric.Metrics (Build o clock decoded opts).1)).
Proof.
  rewrite Build_metrics, map_map.
  eapply RangeFacts.NoDup_map_finer; [|apply NoDup_itemsOf_pairs].
  intros [[i b] [n v]] [[i' b'] [n' v']] Hin Hin'. unfold metricOf. simpl.
  apply elem_of_itemsOf in Hin as [Hi Hn], Hin' as [Hi' Hn'].
  destruct (winnersOf_spec decoded i b n v Hi Hn) as [<- _].
  destruct (winnersOf_spec decoded i' b' n' v' Hi' Hn') as [<- _].
  destruct (assemble_fields opts (hostOf decoded) (nowOf clock decoded) i
              (default ∅ ((partsOf decoded).1 !! i)) (Counters opts) v)
    as (_ & -> & -> & _).
  destruct (assemble_fields opts (hostOf decoded) (nowOf clock decoded) i'
              (default ∅ ((partsOf decoded).1 !! i')) (Counters opts) v')
    as (_ & -> & -> & _).
  by intros [= -> ->].
Qed.

End ProducerFacts.

Module ProducerTheorems.
Import Models.
Import Decoder.
Import Metrics.
Import ProducerSpec.
Import MetricsFacts.
Import BuildFacts.
Import ProducerFacts.

Lemma metric_from_item `{Extern} (o : MapOrder) (clock : Go.Time)
    (decoded : DecodedPollResult.t) (opts : BuildOptions) (m : Metric.t) :
  m ∈ SNMPMetric.Metrics (Build o clock decoded opts).1 →
  ∃ instance byName name w,
    winnersOf decoded !! instance = Some byName ∧ byName !! name = Some w
    ∧ m = (assemble opts (hostOf decoded) (nowOf clock decoded) instance
                    (default ∅ ((partsOf decoded).1 !! instance))
                    (Counters opts) w).1.
Proof.
  rewrite Build_metrics. intros ([[i b] [n v]] & -> & Hin)%list_elem_of_fmap.
  apply elem_of_itemsOf in Hin as [Hi Hn]. by exists i, b, n, v.
Qed.

(** Every instance and name with a candidate has its metric. *)
Lemma metric_for_candidates `{Extern} (o : MapOrder) (clock : Go.Time)
    (decoded : DecodedPollResult.t) (opts : BuildOptions) (instance name : string) :
  candidates instance name (DecodedPollResult.Varbinds decoded) ≠ [] →
  ∃ m, m ∈ SNMPMetric.Metrics (Build o clock decoded opts).1
       ∧ Metric.Instance m = instance ∧ Metric.Name m = name.
Proof.
  intros Hc.
  destruct (winnersOf_complete decoded instance name Hc) as (b & w & Hi & Hn).
  destruct (winnersOf_spec decoded instance b name w Hi Hn) as [Hname _].
  exists (metricOf opts (hostOf decoded) (nowOf clock decoded) (partsOf decoded).1
                   ((instance, b), (name, w))).
  split.
  - rewrite Build_metrics. apply list_elem_of_fmap.
    eexists. split; [done|]. by apply elem_of_itemsOf.
  - unfold metricOf. simpl.
    destruct (assemble_fields opts (hostOf decoded) (nowOf clock decoded) instance
                (default ∅ ((partsOf decoded).1 !! instance)) (Counters opts) w)
      as (_ & -> & -> & _).
    done.
Qed.

(** A metric of counter syntax whose key has no entry comes from a
    varbind of the poll, and carries 0 when the varbind's value is an
    unsigned integer, the value itself otherwise. *)
Lemma fresh_counter_metric `{Extern} (o : MapOrder) (clock : Go.Time)
    (decoded : DecodedPollResult.t) (opts : BuildOptions) (s : CounterState)
    (m : Metric.t) :
  Counters opts = Some s →
  m ∈ SNMPMetric.Metrics (Build o clock decoded opts).1 →
  IsCounterSyntax (Metric.Syntax m) = true →
  entries s !! metricKey (hostOf decoded) m = None →
  ∃ w, w ∈ DecodedPollResult.Varbinds decoded
       ∧ DecodedVarbind.Syntax w = Metric.Syntax m
       ∧ match toUint64Safe (DecodedVarbind.Value w) with
         | Some _ => Metric.Value m = VUint64 0
         | None => Metric.Value m = DecodedVarbind.Value w
         end.
Proof.
  intros Hc (i & b & n & w & Hi & Hn & ->)%metric_from_item Hsyn Hkey.
  rewrite Hc in *.
  pose proof (assemble_fields opts (hostOf decoded) (nowOf clock decoded) i
                (default ∅ ((partsOf decoded).1 !! i)) (Some s) w) as Hf.
  cbv zeta in Hf. destruct Hf as (_ & Hname & Hinst & _ & Hsx).
  unfold metricKey in Hkey. rewrite Hname, Hinst in Hkey. rewrite Hsx in Hsyn.
  exists w. split_and!.
  - destruct (winnersOf_spec decoded i b n w Hi Hn) as [_ Hfirst].
    apply firstHighest_elem in Hfirst. unfold candidates, measurementsOf in Hfirst.
    by apply list_elem_of_filter in Hfirst as [_ [_ ?]%list_elem_of_filter].
  - by rewrite Hsx.
  - exact (assemble_fresh_counter opts (hostOf decoded) (nowOf clock decoded) i
             (default ∅ ((partsOf decoded).1 !! i)) s w Hsyn Hkey).
Qed.

(** The ranks of a syntax in the table of the code and in the table of
    the specification, BandwidthBits and Gauge32 sharing the rank [g]. *)
Lemma priority_pairs (g : Z) (syntax : string) :
  (syntaxPriority syntax, specPriority g g syntax)
  ∈ [(20, 20); (14, 15); (13, 14); (12, 13); (11, g); (10, 10); (0, 0)]%Z.
Proof.
  destruct (decide (syntax = "Counter64")) as [->|H1];
    [apply list_elem_of_here|].
  destruct (decide (syntax = "BandwidthGBits")) as [->|H2];
    [do 1 apply list_elem_of_further; apply list_elem_of_here|].
  destruct (decide (syntax = "BandwidthMBits")) as [->|H3];
    [do 2 apply list_elem_of_further; apply list_elem_of_here|].
  destruct (decide (syntax = "BandwidthKBits")) as [->|H4];
    [do 3 apply list_elem_of_further; apply list_elem_of_here|].
  destruct (decide (syntax = "BandwidthBits")) as [->|H5];
    [do 4 apply list_elem_of_further; apply list_elem_of_here|].
  destruct (decide (syntax = "Gauge32")) as [->|H6];
    [do 4 apply list_elem_of_further; apply list_elem_of_here|].
  destruct (decide (syntax = "Counter32")) as [->|H7];
    [do 5 apply list_elem_of_further; apply list_elem_of_here|].
  replace (syntaxPriority syntax) with 0%Z.
  - replace (specPriority g g syntax) with 0%Z.
    + do 6 apply list_elem_of_further. apply list_elem_of_here.
    + unfold specPriority. repeat (case_decide; [congruence|]). done.
  - unfold syntaxPriority.
    repeat (case_decide; [exfalso; destruct_or?; congruence|]). done.
Qed.

(** With one rank between 10 and 13 for BandwidthBits and Gauge32, the
    table of the specification orders the syntaxes as the code does. *)
Lemma specPriority_order (g : Z) (a b : string) :
  (10 < g < 13)%Z →
  ((syntaxPriority a < syntaxPriority b)%Z
   ↔ (specPriority g g a < specPriority g g b)%Z).
Proof.
  intros Hg.
  pose proof (priority_pairs g a) as Ha. pose proof (priority_pairs g b) as Hb.
  revert Ha Hb.
  generalize (syntaxPriority a) (specPriority g g a)
             (syntaxPriority b) (specPriority g g b).
  intros x x' y y' Ha Hb.
  rewrite !elem_of_cons, elem_of_nil in Ha, Hb.
  destruct_or!; try done; simplify_eq; lia.
Qed.

Lemma firstHighest_by_spec (g : Z) (cands : list DecodedVarbind.t)
    (w : DecodedVarbind.t) :
  (10 < g < 13)%Z →
  firstHighest cands w → firstHighestBy (specPriority g g) cands w.
Proof.
  intros Hg (pre & post & -> & Hpre & Hpost). exists pre, post.
  split_and!; [done|..]; eapply Forall_impl; eauto; unfold priorityOf; simpl;
    intros c Hc.
  - by apply specPriority_order.
  - pose proof (specPriority_order g (DecodedVarbind.Syntax w)
                  (DecodedVarbind.Syntax c) Hg).
    lia.
Qed.

(** C3.  For every instance and metric name, Build keeps the candidate
    whose syntax ranks highest, and of several candidates of that rank
    the first of the poll: every metric of the batch is made from such
    a candidate, and every instance and name with a candidate has its
    metric.  The ranks are those of the code: Counter64 20,
    BandwidthGBits 14, BandwidthMBits 13, BandwidthKBits 12,
    BandwidthBits and Gauge32 both 11, Counter32 10, anything else 0.
    The table of the specification names the same candidate when
    BandwidthBits and Gauge32 are given one rank of its cell "11-12",
    so that of a Gauge32 and a BandwidthBits candidate the first is
    kept. *)
Theorem override_keeps_first_highest `{Extern} (o : MapOrder) (clock : Go.Time)
    (decoded : DecodedPollResult.t) (opts : BuildOptions) :
  let vbs := DecodedPollResult.Varbinds decoded in
  let metrics := SNMPMetric.Metrics (Build o clock decoded opts).1 in
  (∀ m, m ∈ metrics →
     ∃ w, firstHighest (candidates (Metric.Instance m) (Metric.Name m) vbs) w
          ∧ (∀ g, (11 ≤ g ≤ 12)%Z →
               firstHighestBy (specPriority g g)
                 (candidates (Metric.Instance m) (Metric.Name m) vbs) w)
          ∧ Metric.OID m = DecodedVarbind.OID w
          ∧ Metric.Type_ m = DecodedVarbind.SNMPType w
          ∧ Metric.Syntax m = DecodedVarbind.Syntax w)
  ∧ (∀ instance name, candidates instance name vbs ≠ [] →
       ∃ m, m ∈ metrics ∧ Metric.Instance m = instance ∧ Metric.Name m = name)
  ∧ syntaxPriority "Counter64" = 20%Z
  ∧ syntaxPriority "BandwidthGBits" = 14%Z
  ∧ syntaxPriority "BandwidthMBits" = 13%Z
  ∧ syntaxPriority "BandwidthKBits" = 12%Z
  ∧ syntaxPriority "BandwidthBits" = 11%Z
  ∧ syntaxPriority "Gauge32" = 11%Z
  ∧ syntaxPriority "Counter32" = 10%Z
  ∧ (∀ syntax,
       syntax ∉ ["Counter64"; "BandwidthGBits"; "BandwidthMBits"; "BandwidthKBits";
                 "BandwidthBits"; "Gauge32"; "Counter32"] →
       syntaxPriority syntax = 0%Z).
Proof.
  intros vbs metrics. split_and!; try reflexivity.
  - intros m (i & b & n & w & Hi & Hn & ->)%metric_from_item.
    destruct (winnersOf_spec decoded i b n w Hi Hn) as [Hname Hfirst].
    destruct (assemble_fields opts (hostOf decoded) (nowOf clock decoded) i
                (default ∅ ((partsOf decoded).1 !! i)) (Counters opts) w)
      as (-> & -> & -> & -> & ->).
    exists w. rewrite Hname. split_and!; try done.
    intros g Hg. apply firstHighest_by_spec; [lia|done].
  - intros instance name Hc. by apply metric_for_candidates.
  - intros syntax Hs. unfold syntaxPriority.
    repeat (case_decide;
            [exfalso; apply Hs; destruct_or?; subst;
             repeat first [apply list_elem_of_here | apply list_elem_of_further]|]).
    done.
Qed.

(** C5.  A counter key without a stored entry: Delta answers
    Valid = false and stores the sample, be the key new, removed by
    Remove, or deleted by Purge, which deletes the entries last seen
    before its cutoff, now - maxAge in the arithmetic of int64.  In a
    batch built with counter state, a metric of counter syntax whose
    key has no entry has the value uint64 0 whenever Delta is called
    for it, which is when its raw value is an unsigned integer; it has
    that value in every batch whose counter varbinds carry unsigned
    integers, as the decoder converts them.  The metric is emitted:
    every instance and name with a measurement has its metric. *)
Theorem counter_first_observation_zero `{Extern} (o : MapOrder) (clock : Go.Time)
    (decoded : DecodedPollResult.t) (opts : BuildOptions) (s : CounterState)
    (key : CounterKey.t) (current wrap : Z) (now t : Go.Time)
    (maxAge : Go.Duration) :
  (entries s !! key = None →
     Valid (Delta s key current now wrap).1 = false
     ∧ entries (Delta s key current now wrap).2 !! key
       = Some {| Value := current; SeenAt := now |})
  ∧ Valid (Delta (Remove s key) key current now wrap).1 = false
  ∧ (entries (Purge s maxAge t).2 !! key = None →
       Valid (Delta (Purge s maxAge t).2 key current now wrap).1 = false)
  ∧ (∀ e, entries s !! key = Some e →
       Go.Before (SeenAt e) (Go.Add t (Go.wrap_int64 (- maxAge))) = true →
       entries (Purge s maxAge t).2 !! key = None)
  ∧ (∀ m, Counters opts = Some s →
       m ∈ SNMPMetric.Metrics (Build o clock decoded opts).1 →
       IsCounterSyntax (Metric.Syntax m) = true →
       entries s !! metricKey (hostOf decoded) m = None →
       Metric.Value m = VUint64 0 ∨ toUint64Safe (Metric.Value m) = None)
  ∧ (∀ m, Counters opts = Some s →
       Forall (λ vb, IsCounterSyntax (DecodedVarbind.Syntax vb) = true →
                     is_Some (toUint64Safe (DecodedVarbind.Value vb)))
              (DecodedPollResult.Varbinds decoded) →
       m ∈ SNMPMetric.Metrics (Build o clock decoded opts).1 →
       IsCounterSyntax (Metric.Syntax m) = true →
       entries s !! metricKey (hostOf decoded) m = None →
       Metric.Value m = VUint64 0)
  ∧ (∀ instance name,
       candidates instance name (DecodedPollResult.Varbinds decoded) ≠ [] →
       ∃ m, m ∈ SNMPMetric.Metrics (Build o clock decoded opts).1
            ∧ Metric.Instance m = instance ∧ Metric.Name m = name).
Proof.
  split_and!.
  - intros Hk. rewrite (Delta_fresh _ _ _ _ _ Hk), Delta_entries.
    by rewrite lookup_insert_eq.
  - by rewrite (Delta_fresh _ _ _ _ _ (Remove_lookup s key)).
  - intros Hk. by rewrite (Delta_fresh _ _ _ _ _ Hk).
  - intros e He Hstale. by rewrite Purge_lookup, He, Hstale.
  - intros m Hc Hm Hsyn Hkey.
    destruct (fresh_counter_metric o clock decoded opts s m Hc Hm Hsyn Hkey)
      as (w & _ & _ & Hv).
    destruct (toUint64Safe (DecodedVarbind.Value w)) eqn:Hraw; [by left|].
    right. by rewrite Hv.
  - intros m Hc Hall Hm Hsyn Hkey.
    destruct (fresh_counter_metric o clock decoded opts s m Hc Hm Hsyn Hkey)
      as (w & Hw & Hsx & Hv).
    rewrite Forall_forall in Hall. rewrite <- Hsx in Hsyn.
    destruct (Hall w Hw Hsyn) as [raw Hraw]. by rewrite Hraw in Hv.
  - intros instance name Hc. by apply metric_for_candidates.
Qed.

(** Scenario S2 of the specification: Counter32 and Counter64 for one
    name and instance. *)
Lemma override_keeps_first_highest_witness :
  ∃ m, m ∈ SNMPMetric.Metrics
             (Build (H := Samples.noExtern) Go.canonical_order 0%Z
                (Samples.poll Samples.sw01 1000%Z
                              [Samples.octets32; Samples.octets64])
                (Samples.withCounters None)).1
       ∧ Metric.Instance m = "1" ∧ Metric.Name m = "netif.bytes.in".
Proof.
  apply (proj1 (proj2 (override_keeps_first_highest
                         (H := Samples.noExtern) Go.canonical_order 0%Z
                         (Samples.poll Samples.sw01 1000%Z
                                       [Samples.octets32; Samples.octets64])
                         (Samples.withCounters None)))).
  vm_compute. discriminate.
Defined.

(** C3, with the table as the specification prints it.  The code ranks
    BandwidthGBits, BandwidthMBits and BandwidthKBits 14, 13 and 12,
    not 15, 14 and 13, and gives BandwidthBits and Gauge32 one rank:
    whichever of the two is read as 12 and the other as 11, a poll that
    lists the one of rank 11 first has that one kept, not the one of
    highest rank. *)
Lemma override_not_by_printed_table :
  (syntaxPriority "BandwidthGBits" = 14%Z
   ∧ specPriority 12 11 "BandwidthGBits" = 15%Z)
  ∧ (syntaxPriority "BandwidthMBits" = 13%Z
     ∧ specPriority 12 11 "BandwidthMBits" = 14%Z)
  ∧ (syntaxPriority "BandwidthKBits" = 12%Z
     ∧ specPriority 12 11 "BandwidthKBits" = 13%Z)
  ∧ (map Metric.Syntax
         (SNMPMetric.Metrics
            (Build (H := Samples.noExtern) Go.canonical_order 0%Z
               (Samples.poll Samples.sw01 1000%Z
                             [Samples.speedGauge; Samples.speedBits])
               (Samples.withCounters None)).1) = ["Gauge32"]
     ∧ (specPriority 12 11 "Gauge32" < specPriority 12 11 "BandwidthBits")%Z)
  ∧ (map Metric.Syntax
         (SNMPMetric.Metrics
            (Build (H := Samples.noExtern) Go.canonical_order 0%Z
               (Samples.poll Samples.sw01 1000%Z
                             [Samples.speedBits; Samples.speedGauge])
               (Samples.withCounters None)).1) = ["BandwidthBits"]
     ∧ (specPriority 11 12 "BandwidthBits" < specPriority 11 12 "Gauge32")%Z).
Proof. split_and!; by vm_compute. Qed.

(** The first sample of ifInOctets.1 on sw01, the counter state empty. *)
Lemma counter_first_observation_zero_witness :
  Forall (λ m, Metric.Value m = VUint64 0)
         (SNMPMetric.Metrics
            (Build (H := Samples.noExtern) Go.canonical_order 0%Z
                   (Samples.octetsAt 1000%Z 1000)
                   (Samples.withCounters (Some NewCounterState))).1).
Proof.
  apply Forall_forall. intros m Hm.
  apply (proj1 (proj2 (proj2 (proj2 (proj2 (proj2
           (counter_first_observation_zero (H := Samples.noExtern)
              Go.canonical_order 0%Z (Samples.octetsAt 1000%Z 1000)
              (Samples.withCounters (Some NewCounterState)) NewCounterState
              (metricKey "sw01" m) 1000 (WrapForSyntax "Counter32")
              1000%Z 0%Z 0%Z)))))) m).
  - reflexivity.
  - repeat constructor. intros _. eexists. reflexivity.
  - exact Hm.
  - assert (Hlist : Metric.Syntax <$>
                      SNMPMetric.Metrics
                        (Build (H := Samples.noExtern) Go.canonical_order 0%Z
                               (Samples.octetsAt 1000%Z 1000)
                               (Samples.withCounters (Some NewCounterState))).1
                    = ["Counter32"]) by (vm_compute; reflexivity).
    apply (list_elem_of_fmap_2 Metric.Syntax) in Hm. rewrite Hlist in Hm.
    apply list_elem_of_singleton in Hm. rewrite Hm. reflexivity.
  - reflexivity.
Defined.

End ProducerTheorems.

Module CounterTheorems.
Import Models.
Import Decoder.
Import Metrics.
Import ProducerSpec.
Import MetricsFacts.
Import BuildFacts.
Import ProducerFacts.

(** Assembling a Counter32 varbind that holds a uint64: the value is
    the delta, or 0, and the state is the one Delta leaves. *)
Lemma assemble_counter32 (opts : BuildOptions) (hostname : string)
    (now : Go.Time) (instance : string) (tags : gmap string string)
    (cs : CounterState) (vb : DecodedVarbind.t) (v : Z) :
  DecodedVarbind.Syntax vb = "Counter32" → DecodedVarbind.Value vb = VUint64 v →
  Counters opts = Some cs →
  let d := Delta cs (keyOf hostname instance vb) v now (2 ^ 32 - 1) in
  let r := assemble opts hostname now instance tags (Counters opts) vb in
  Metric.Value r.1 = (if Valid d.1 then VUint64 (Delta_ d.1) else VUint64 0)
  ∧ r.2 = Some d.2.
Proof.
  intros Hsyn Hval Hcs. cbv zeta. rewrite Hcs. unfold assemble. cbv zeta.
  rewrite Hsyn, Hval.
  replace (isEnumSyntax "Counter32") with false by (by vm_compute).
  replace (IsCounterSyntax "Counter32") with true by (by vm_compute).
  replace (WrapForSyntax "Counter32") with (2 ^ 32 - 1)%Z by (by vm_compute).
  replace (match Enums opts with Some _ => VUint64 v | None => VUint64 v end)
    with (VUint64 v) by (by destruct (Enums opts)).
  cbn [toUint64Safe]. fold (keyOf hostname instance vb).
  by destruct (Delta cs _ _ _ _) as [dr s1].
Qed.

(** The second sample of scenario S3 against the entry of the first. *)
Lemma Delta_after_wrap (s : CounterState) (key : CounterKey.t) (t0 : Go.Time) :
  entries s !! key = Some {| Value := 2 ^ 32 - 100; SeenAt := t0 |} →
  (Delta s key 400 (t0 + 60 * Go.Second)%Z (2 ^ 32 - 1)).1
  = {| Delta_ := 500; Elapsed := (60 * Go.Second)%Z; Valid := true |}.
Proof.
  intros Hk. unfold Delta. cbv zeta. rewrite Hk. cbn [Value SeenAt].
  unfold Go.Sub. cbv zeta.
  replace (t0 + 60 * Go.Second - t0)%Z with (60 * Go.Second)%Z by lia.
  change (Go.maxDuration <? 60 * Go.Second)%Z with false.
  change (60 * Go.Second <? Go.minDuration)%Z with false. cbv iota.
  rewrite decide_False by (unfold Go.Second; lia).
  rewrite decide_False by lia.
  reflexivity.
Qed.

(** C1, as the code computes it.  Counter state enabled, a Counter32
    key without an entry.  The poll at t0 holds the value 2^32 - 100 and the next, at
    t0 + 60 s, the value 400.  The first batch carries the metric with
    value 0; the second carries it with value 500, which is
    (wrap_max - previous) + current + 1 = 99 + 400 + 1 for
    wrap_max = 2^32 - 1, and the Delta behind it reports an elapsed time
    of 60 s. *)
Theorem counter32_wrap_delta `{Extern} (o0 o1 : MapOrder) (clock0 clock1 : Go.Time)
    (d0 d1 : DecodedPollResult.t) (vb0 vb1 : DecodedVarbind.t)
    (opts : BuildOptions) (cs0 : CounterState) (t0 : Go.Time) :
  DecodedPollResult.Varbinds d0 = [vb0] → DecodedPollResult.Varbinds d1 = [vb1] →
  hostOf d1 = hostOf d0 →
  DecodedVarbind.AttributeName vb1 = DecodedVarbind.AttributeName vb0 →
  DecodedVarbind.Instance vb1 = DecodedVarbind.Instance vb0 →
  DecodedVarbind.IsTag vb0 = false → DecodedVarbind.IsTag vb1 = false →
  DecodedVarbind.Syntax vb0 = "Counter32" → DecodedVarbind.Syntax vb1 = "Counter32" →
  DecodedVarbind.Value vb0 = VUint64 (2 ^ 32 - 100) →
  DecodedVarbind.Value vb1 = VUint64 400 →
  (0 < t0)%Z →
  DecodedPollResult.CollectedAt d0 = t0 →
  DecodedPollResult.CollectedAt d1 = (t0 + 60 * Go.Second)%Z →
  Counters opts = Some cs0 →
  entries cs0 !! keyOf (hostOf d0) (DecodedVarbind.Instance vb0) vb0 = None →
  let first := Build o0 clock0 d0 opts in
  let second := Build o1 clock1 d1 (setCounters opts first.2) in
  map Metric.Value (SNMPMetric.Metrics first.1) = [VUint64 0]
  ∧ map Metric.Value (SNMPMetric.Metrics second.1) = [VUint64 500]
  ∧ ∃ cs1, first.2 = Some cs1
           ∧ (Delta cs1 (keyOf (hostOf d0) (DecodedVarbind.Instance vb0) vb0)
                    400 (t0 + 60 * Go.Second)%Z (WrapForSyntax "Counter32")).1
             = {| Delta_ := 500; Elapsed := (60 * Go.Second)%Z; Valid := true |}.
Proof.
  intros Hv0 Hv1 Hhost Hname Hinst Htag0 Htag1 Hsyn0 Hsyn1 Hval0 Hval1
         Ht0 Hat0 Hat1 Hcs Hfresh first second.
  assert (Hnow0 : nowOf clock0 d0 = t0).
  { unfold nowOf, Go.IsZero. rewrite Hat0.
    by rewrite (proj2 (Z.eqb_neq t0 0)) by lia. }
  assert (Hnow1 : nowOf clock1 d1 = (t0 + 60 * Go.Second)%Z).
  { unfold nowOf, Go.IsZero. rewrite Hat1.
    rewrite (proj2 (Z.eqb_neq _ 0)); [done|]. unfold Go.Second. lia. }
  destruct (Build_single o0 clock0 d0 opts vb0 Hv0 Htag0) as [Hm0 Hs0].
  destruct (assemble_counter32 opts (hostOf d0) (nowOf clock0 d0)
              (DecodedVarbind.Instance vb0) ∅ cs0 vb0 _ Hsyn0 Hval0 Hcs)
    as [Hval Hst].
  set (key := keyOf (hostOf d0) (DecodedVarbind.Instance vb0) vb0) in *.
  rewrite (Delta_fresh _ _ _ _ _ Hfresh) in Hval. simpl in Hval.
  set (cs1 := (Delta cs0 key (2 ^ 32 - 100) (nowOf clock0 d0) (2 ^ 32 - 1)).2) in *.
  assert (Hfirst : first.2 = Some cs1) by (subst first; by rewrite Hs0, Hst).
  assert (Hentry : entries cs1 !! key
                   = Some {| Value := 2 ^ 32 - 100; SeenAt := t0 |}).
  { subst cs1. by rewrite Delta_entries, lookup_insert_eq, Hnow0. }
  split_and!.
  - subst first. rewrite Hm0. cbn [map]. by rewrite Hval.
  - subst second.
    destruct (Build_single o1 clock1 d1 (setCounters opts first.2) vb1 Hv1 Htag1)
      as [Hm1 _].
    rewrite Hm1. cbn [map]. f_equal.
    destruct (assemble_counter32 (setCounters opts first.2) (hostOf d1)
                (nowOf clock1 d1) (DecodedVarbind.Instance vb1) ∅ cs1 vb1 _
                Hsyn1 Hval1 Hfirst) as [Hval' _].
    rewrite Hval'. rewrite Hhost, Hinst, Hnow1.
    replace (keyOf (hostOf d0) (DecodedVarbind.Instance vb0) vb1) with key
      by (unfold key, keyOf; by rewrite Hname).
    by rewrite (Delta_after_wrap cs1 key t0 Hentry).
  - exists cs1. split; [done|].
    exact (Delta_after_wrap cs1 key t0 Hentry).
Qed.

(** Scenario S3 of the specification, with t0 = 1000 ns. *)
Lemma counter32_wrap_delta_witness :
  let first := Build (H := Samples.noExtern) Go.canonical_order 1000%Z
                 (Samples.octetsAt 1000%Z (2 ^ 32 - 100))
                 (Samples.withCounters (Some NewCounterState)) in
  let second := Build (H := Samples.noExtern) Go.canonical_order
                  (1000 + 60 * Go.Second)%Z
                  (Samples.octetsAt (1000 + 60 * Go.Second)%Z 400)
                  (setCounters (Samples.withCounters (Some NewCounterState))
                               first.2) in
  map Metric.Value (SNMPMetric.Metrics first.1) = [VUint64 0]
  ∧ map Metric.Value (SNMPMetric.Metrics second.1) = [VUint64 500].
Proof.
  intros first second.
  pose proof (counter32_wrap_delta (H := Samples.noExtern)
                Go.canonical_order Go.canonical_order 1000%Z
                (1000 + 60 * Go.Second)%Z
                (Samples.octetsAt 1000%Z (2 ^ 32 - 100))
                (Samples.octetsAt (1000 + 60 * Go.Second)%Z 400)
                (Samples.measurement "1.3.6.1.2.1.2.2.1.10.1" "netif.bytes.in" "1"
                                     (VUint64 (2 ^ 32 - 100)) "Counter32")
                (Samples.measurement "1.3.6.1.2.1.2.2.1.10.1" "netif.bytes.in" "1"
                                     (VUint64 400) "Counter32")
                (Samples.withCounters (Some NewCounterState))
                NewCounterState 1000%Z
                eq_refl eq_refl eq_refl eq_refl eq_refl eq_refl eq_refl eq_refl
                eq_refl eq_refl eq_refl eq_refl eq_refl eq_refl eq_refl eq_refl)
    as (H0 & H1 & _).
  split; [exact H0 | exact H1].
Defined.

(** C1, with the numbers of the specification.  Seeded with 2^32 - 100
    at t0 and read as 400 sixty seconds later, the counter gives a
    metric of value 500, not 501: Delta answers 500 for an elapsed
    minute. *)
Lemma counter32_wrap_not_501 :
  let key := {| CounterKey.Device := "sw01"; CounterKey.Attribute := "netif.bytes.in";
                CounterKey.Instance := "1" |} in
  let seeded := (Delta NewCounterState key (2 ^ 32 - 100) 1000%Z
                       (WrapForSyntax "Counter32")).2 in
  let first := Build (H := Samples.noExtern) Go.canonical_order 1000%Z
                 (Samples.octetsAt 1000%Z (2 ^ 32 - 100))
                 (Samples.withCounters (Some NewCounterState)) in
  let second := Build (H := Samples.noExtern) Go.canonical_order
                  (1000 + 60 * Go.Second)%Z
                  (Samples.octetsAt (1000 + 60 * Go.Second)%Z 400)
                  (setCounters (Samples.withCounters (Some NewCounterState))
                               first.2) in
  (Delta seeded key 400 (1000 + 60 * Go.Second)%Z (WrapForSyntax "Counter32")).1
  = {| Delta_ := 500; Elapsed := (60 * Go.Second)%Z; Valid := true |}
  ∧ map Metric.Value (SNMPMetric.Metrics second.1) = [VUint64 500]
  ∧ map Metric.Value (SNMPMetric.Metrics second.1) ≠ [VUint64 501].
Proof. split_and!; [by vm_compute..|]. vm_compute. discriminate. Qed.

End CounterTheorems.

Module PoolFacts.
Import Config.
Import Poller.
Import PoolSpec.

Lemma closed_closeConn (p : ConnectionPool) (c : Session) :
  closed (closeConn p c) = closed p.
Proof. unfold closeConn. by destruct (hasConn c). Qed.

Lemma Get_closed (p : ConnectionPool) (now : Go.Time) (ctxDone preferCtx : bool)
    (hostname : string) (cfg : DeviceConfig.t) :
  closed p = true →
  (Get p now ctxDone preferCtx hostname cfg).1 = GetError ErrPoolClosed
  ∧ closed (Get p now ctxDone preferCtx hostname cfg).2 = true.
Proof.
  intros Hc. unfold Get, getOrCreatePool.
  destruct (pools p !! hostname) as [dp|]; simpl; by rewrite Hc.
Qed.

Lemma Put_closed (p : ConnectionPool) (now : Go.Time) (hostname : string)
    (c : Session) :
  closed (Put p now hostname c).2 = closed p.
Proof.
  unfold Put, getPool. destruct (pools p !! hostname) as [dp|];
    [|apply closed_closeConn].
  case_decide; case_decide; simpl; by rewrite ?closed_closeConn.
Qed.

Lemma Discard_closed (p : ConnectionPool) (hostname : string) (c : Session) :
  closed (Discard p hostname c).2 = closed p.
Proof.
  unfold Discard, getPool. cbv zeta.
  destruct (pools (closeConn p c) !! hostname) as [dp|];
    [case_decide|]; simpl; by rewrite closed_closeConn.
Qed.

Lemma Close_closed (o : MapOrder) (p : ConnectionPool) : closed (Close o p) = true.
Proof. unfold Close. by destruct (closed p) eqn:Hc. Qed.

Lemma after_closed (p : ConnectionPool) (call : Call) :
  closed p = true → closed (after p call) = true.
Proof.
  intros Hc. destruct call; simpl.
  - by apply Get_closed.
  - by rewrite Put_closed.
  - by rewrite Discard_closed.
  - apply Close_closed.
Qed.

Lemma afterAll_closed (p : ConnectionPool) (calls : list Call) :
  closed p = true → closed (afterAll p calls) = true.
Proof.
  revert p. induction calls as [|call calls IH]; intros p Hc; [done|].
  simpl. by apply IH, after_closed.
Qed.

(** What Put does with the session, whatever the closed flag says. *)
Lemma Put_spec (p : ConnectionPool) (now : Go.Time) (hostname : string)
    (c : Session) :
  let p' := (Put p now hostname c).2 in
  match pools p !! hostname with
  | None => p' = closeConn p c
  | Some dp =>
      if decide (Z.of_nat (length (idle dp)) < MaxIdlePerDevice (opts p))%Z
      then idleOf p' hostname = map conn (idle dp) ++ [c]
           ∧ closedConns p' = closedConns p
      else idleOf p' hostname = map conn (idle dp)
           ∧ closedConns p' = closedConns (closeConn p c)
  end.
Proof.
  cbv zeta. unfold Put, getPool, idleOf.
  destruct (pools p !! hostname) as [dp|]; [|done].
  case_decide as Hfull; case_decide as Hroom; try lia;
    case_decide; simpl; rewrite lookup_insert_eq; simpl;
    rewrite ?map_app; try done.
  all: unfold closeConn; by destruct (hasConn c).
Qed.

(** C2, as the code behaves.  Once Close has been called, whatever
    calls follow, Get returns the error "pool closed".  Put does not look at the
    closed flag: for a device that has a pool, the session is appended
    to the idle list, and not closed, while the list holds fewer than
    MaxIdlePerDevice sessions, as it does right after Close; the
    session is closed instead when the list is full or the device has
    no pool. *)
Theorem pool_after_Close (o : MapOrder) (p : ConnectionPool) (calls : list Call)
    (now : Go.Time) (ctxDone preferCtx : bool) (hostname : string)
    (cfg : DeviceConfig.t) (c : Session) :
  let q := afterAll (Close o p) calls in
  (Get q now ctxDone preferCtx hostname cfg).1 = GetError ErrPoolClosed
  ∧ (let q' := (Put q now hostname c).2 in
     match pools q !! hostname with
     | None => q' = closeConn q c
     | Some dp =>
         if decide (Z.of_nat (length (idle dp)) < MaxIdlePerDevice (opts q))%Z
         then idleOf q' hostname = map conn (idle dp) ++ [c]
              ∧ closedConns q' = closedConns q
         else idleOf q' hostname = map conn (idle dp)
              ∧ closedConns q' = closedConns (closeConn q c)
     end)
  ∧ (closed p = false → is_Some (pools p !! hostname) →
     (0 < MaxIdlePerDevice (opts p))%Z →
     let q' := (Put (Close o p) now hostname c).2 in
     idleOf q' hostname = [c] ∧ closedConns q' = closedConns (Close o p)).
Proof.
  cbv zeta. split_and!.
  - apply Get_closed, afterAll_closed, Close_closed.
  - apply Put_spec.
  - intros Hopen [dp Hdp] Hmax.
    pose proof (Put_spec (Close o p) now hostname c) as Hput. cbv zeta in Hput.
    assert (Hq : pools (Close o p) !! hostname
                 = Some {| idle := []; sem := sem dp; semCap := semCap dp |}).
    { unfold Close. rewrite Hopen. simpl. by rewrite lookup_fmap, Hdp. }
    assert (Ho : opts (Close o p) = opts p).
    { unfold Close. by rewrite Hopen. }
    rewrite Hq, Ho in Hput. simpl in Hput.
    by rewrite decide_True in Hput by lia.
Qed.

(** A pool with a session out for sw1, closed, and the session put
    back. *)
Lemma pool_after_Close_witness :
  let q' := (Put (Close Go.canonical_order Samples.poolInUse) 0%Z "sw1"
                 Samples.session0).2 in
  idleOf q' "sw1" = [Samples.session0]
  ∧ closedConns q' = closedConns (Close Go.canonical_order Samples.poolInUse).
Proof.
  apply (proj2 (proj2 (pool_after_Close Go.canonical_order Samples.poolInUse []
                         0%Z false false "sw1" Samples.sw1Config
                         Samples.session0))).
  - reflexivity.
  - eexists. reflexivity.
  - vm_compute. reflexivity.
Defined.

(** C2, for Put.  Get hands out a session for sw1, the pool is closed,
    and the session is put back: Put returns having written the session
    into the idle list of sw1, and the session has not been closed. *)
Lemma Put_after_Close_keeps_session :
  (Get (NewConnectionPool Samples.poolOptions) 0%Z false false "sw1"
       Samples.sw1Config).1 = GetConn Samples.session0
  ∧ closed (Close Go.canonical_order Samples.poolInUse) = true
  ∧ idleOf (Close Go.canonical_order Samples.poolInUse) "sw1" = []
  ∧ (Put (Close Go.canonical_order Samples.poolInUse) 0%Z "sw1"
         Samples.session0).1 = PutDone
  ∧ idleOf (Put (Close Go.canonical_order Samples.poolInUse) 0%Z "sw1"
                Samples.session0).2 "sw1" = [Samples.session0]
  ∧ closedConns (Put (Close Go.canonical_order Samples.poolInUse) 0%Z "sw1"
                     Samples.session0).2 = [].
Proof. split_and!; by vm_compute. Qed.

End PoolFacts.

Module SchedulerFacts.
Import Models.
Import Config.
Import Poller.
Import Scheduler.
Import SchedulerSpec.

Lemma reorderConfig_reordered (sd sg so : list string → list string)
    (cfg : LoadedConfig.t) :
  (∀ l, sd l ≡ₚ l) → (∀ l, sg l ≡ₚ l) → (∀ l, so l ≡ₚ l) →
  reordered cfg (reorderConfig sd sg so cfg).
Proof.
  intros Hd Hg Ho. unfold reordered, reorderConfig. simpl. split_and!; [done|..].
  - intros n. rewrite lookup_fmap.
    destruct (LoadedConfig.ObjectGroups cfg !! n); simpl; constructor. apply Ho.
  - intros n. rewrite lookup_fmap.
    destruct (LoadedConfig.DeviceGroups cfg !! n); simpl; constructor. apply Hg.
  - intros h. rewrite lookup_fmap.
    destruct (LoadedConfig.Devices cfg !! h); simpl; constructor.
    split; [done|apply Hd].
Qed.

(** *** The walk of one device *)

Lemma foldl_flat_map {A B S : Type} (L : A → list B) (g : S → B → S)
    (l : list A) (s : S) :
  foldl (λ acc a, foldl g acc (L a)) s l = foldl g s (flat_map L l).
Proof.
  revert s. induction l as [|a l IH]; intros s; simpl; [done|].
  by rewrite foldl_app, IH.
Qed.

Lemma deviceGroup_walk (cfg : LoadedConfig.t) (hostname : string) (dev : Device.t)
    (devCfg : DeviceConfig.t) (acc : gset string * list PollJob.t)
    (dgs : list string) :
  foldl (deviceGroupStep cfg hostname dev devCfg) acc dgs
  = foldl (objectStep cfg hostname dev devCfg) acc
          (flat_map (objectsOfDeviceGroup cfg) dgs).
Proof.
  rewrite <- foldl_flat_map. revert acc.
  induction dgs as [|dg dgs IH]; intros acc; simpl; [done|].
  rewrite <- IH. f_equal.
  unfold deviceGroupStep, objectsOfDeviceGroup.
  destruct (LoadedConfig.DeviceGroups cfg !! dg) as [g|]; [|done].
  rewrite <- foldl_flat_map. generalize (DeviceGroup.ObjectGroups g). intros ogs.
  revert acc. induction ogs as [|og ogs IHo]; intros acc; simpl; [done|].
  rewrite <- IHo. f_equal. unfold objectGroupStep, objectsOfGroup.
  by destruct (LoadedConfig.ObjectGroups cfg !! og).
Qed.

Lemma firstDefined_spec (cfg : LoadedConfig.t) (keys : list string)
    (seen : gset string) :
  NoDup (firstDefined cfg seen keys)
  ∧ ∀ k, k ∈ firstDefined cfg seen keys
         ↔ k ∈ keys ∧ k ∉ seen ∧ is_Some (LoadedConfig.ObjectDefs cfg !! k).
Proof.
  revert seen. induction keys as [|k keys IH]; intros seen; simpl.
  - split; [constructor|]. intros k. set_solver.
  - case_decide as Hseen.
    + destruct (IH seen) as [Hnd Hks]. split; [done|].
      intros k'. rewrite Hks. set_solver.
    + destruct (IH ({[k]} ∪ seen)) as [Hnd Hks].
      destruct (LoadedConfig.ObjectDefs cfg !! k) as [objDef|] eqn:Hdef.
      * split.
        { constructor; [|done]. rewrite Hks. set_solver. }
        intros k'. rewrite elem_of_cons, Hks.
        destruct (decide (k' = k)) as [->|]; [|set_solver].
        rewrite Hdef. set_solver.
      * split; [done|]. intros k'. rewrite Hks.
        destruct (decide (k' = k)) as [->|]; [|set_solver].
        rewrite Hdef. split; [set_solver|]. by intros (_ & _ & []%is_Some_None).
Qed.

(** The walk over a list of keys adds one job for each key met for the
    first time and defined. *)
Lemma objectStep_walk (cfg : LoadedConfig.t) (hostname : string)
    (keys : list string) (seen : gset string) (jobs : list PollJob.t) :
  foldl (objectStep cfg hostname (deviceOf hostname (configOf cfg hostname))
                    (configOf cfg hostname)) (seen, jobs) keys
  = (seen ∪ list_to_set keys,
     jobs ++ omap (jobFor cfg hostname) (firstDefined cfg seen keys)).
Proof.
  revert seen jobs. induction keys as [|k keys IH]; intros seen jobs.
  - simpl. rewrite app_nil_r. f_equal. set_solver.
  - cbn [foldl firstDefined]. unfold objectStep at 2. case_decide as Hseen.
    + rewrite IH. f_equal. set_solver.
    + destruct (LoadedConfig.ObjectDefs cfg !! k) as [objDef|] eqn:Hdef.
      * rewrite IH. cbn [omap list_omap]. unfold jobFor at 2. rewrite Hdef. simpl.
        rewrite <- app_assoc. f_equal. set_solver.
      * rewrite IH. f_equal. set_solver.
Qed.

(** The jobs of one device: one for each defined key it reaches. *)
Lemma deviceStep_spec (cfg : LoadedConfig.t) (jobs : list PollJob.t)
    (hostname : string) :
  deviceStep cfg jobs hostname
  = jobs ++ omap (jobFor cfg hostname) (resolvedKeys cfg hostname).
Proof.
  unfold deviceStep. cbv zeta.
  fold (configOf cfg hostname) (deviceOf hostname (configOf cfg hostname)).
  rewrite deviceGroup_walk. fold (reachable cfg hostname).
  by rewrite objectStep_walk.
Qed.

Lemma resolvedKeys_spec (cfg : LoadedConfig.t) (hostname : string) :
  NoDup (resolvedKeys cfg hostname)
  ∧ ∀ k, k ∈ resolvedKeys cfg hostname
         ↔ k ∈ reachable cfg hostname
           ∧ is_Some (LoadedConfig.ObjectDefs cfg !! k).
Proof.
  destruct (firstDefined_spec cfg (reachable cfg hostname) ∅) as [Hnd Hks].
  split; [done|]. intros k. unfold resolvedKeys. rewrite Hks. set_solver.
Qed.

Lemma ResolveJobs_spec (o : MapOrder) (cfg : LoadedConfig.t) :
  ResolveJobs o (Some cfg)
  = flat_map (λ h, omap (jobFor cfg h) (resolvedKeys cfg h)) (hostnamesOf o cfg).
Proof.
  unfold ResolveJobs. fold (hostnamesOf o cfg).
  generalize (hostnamesOf o cfg). intros hs.
  rewrite <- (app_nil_l (flat_map _ hs)). generalize (@nil PollJob.t).
  induction hs as [|h hs IH]; intros jobs; simpl; [by rewrite app_nil_r|].
  by rewrite IH, deviceStep_spec, <- app_assoc.
Qed.

Lemma hostnamesOf_spec (o : MapOrder) (cfg : LoadedConfig.t) :
  NoDup (hostnamesOf o cfg)
  ∧ ∀ h, h ∈ hostnamesOf o cfg ↔ is_Some (LoadedConfig.Devices cfg !! h).
Proof.
  unfold hostnamesOf, sortStrings.
  assert (Hp : merge_sort String.le
                 (map fst (Go.range o "devices" (LoadedConfig.Devices cfg)))
               ≡ₚ (map_to_list (LoadedConfig.Devices cfg)).*1).
  { rewrite merge_sort_Permutation. unfold Go.range.
    by rewrite (Go.range_perm o _ "devices" (LoadedConfig.Devices cfg)). }
  split.
  - rewrite Hp. apply NoDup_fst_map_to_list.
  - intros h. rewrite Hp. rewrite list_elem_of_fmap. split.
    + intros ([h' d] & -> & Hin%elem_of_map_to_list). by eexists.
    + intros [d Hd]. exists (h, d). split; [done|]. by apply elem_of_map_to_list.
Qed.

(** *** Reordering the lists of a configuration *)

Lemma flat_map_Permutation2 {A B : Type} (f f' : A → list B) (l l' : list A) :
  l' ≡ₚ l → (∀ x, f' x ≡ₚ f x) → flat_map f' l' ≡ₚ flat_map f l.
Proof.
  intros Hl Hf. rewrite Hl. clear Hl l'.
  induction l as [|x l IH]; simpl; [done|]. by rewrite IH, Hf.
Qed.

Section reordered.
Context (cfg cfg' : LoadedConfig.t) (Hre : reordered cfg cfg').

Lemma reordered_defs :
  LoadedConfig.ObjectDefs cfg' = LoadedConfig.ObjectDefs cfg.
Proof. by destruct Hre. Qed.

Lemma objectsOfGroup_reordered (n : string) :
  objectsOfGroup cfg' n ≡ₚ objectsOfGroup cfg n.
Proof.
  destruct Hre as (_ & Hog & _). unfold objectsOfGroup.
  by destruct (Hog n).
Qed.

Lemma objectsOfDeviceGroup_reordered (n : string) :
  objectsOfDeviceGroup cfg' n ≡ₚ objectsOfDeviceGroup cfg n.
Proof.
  destruct Hre as (_ & _ & Hdg & _). unfold objectsOfDeviceGroup.
  destruct (Hdg n) as [g g' Hg|]; [|done].
  apply flat_map_Permutation2; [done|apply objectsOfGroup_reordered].
Qed.

Lemma configOf_reordered (h : string) :
  settingsOf (configOf cfg' h) = settingsOf (configOf cfg h)
  ∧ DeviceConfig.DeviceGroups (configOf cfg' h)
    ≡ₚ DeviceConfig.DeviceGroups (configOf cfg h).
Proof.
  destruct Hre as (_ & _ & _ & Hd). unfold configOf.
  by destruct (Hd h).
Qed.

Lemma devices_reordered (h : string) :
  is_Some (LoadedConfig.Devices cfg' !! h) ↔ is_Some (LoadedConfig.Devices cfg !! h).
Proof.
  destruct Hre as (_ & _ & _ & Hd).
  destruct (Hd h); split; intros [? [=]]; by eexists.
Qed.

Lemma reachable_reordered (h : string) :
  reachable cfg' h ≡ₚ reachable cfg h.
Proof.
  unfold reachable. apply flat_map_Permutation2.
  - apply configOf_reordered.
  - apply objectsOfDeviceGroup_reordered.
Qed.

Lemma resolvedKeys_reordered (h : string) :
  resolvedKeys cfg' h ≡ₚ resolvedKeys cfg h.
Proof.
  destruct (resolvedKeys_spec cfg h) as [Hnd Hks].
  destruct (resolvedKeys_spec cfg' h) as [Hnd' Hks'].
  apply NoDup_Permutation; [done|done|]. intros k.
  by rewrite Hks, Hks', reordered_defs, (reachable_reordered h).
Qed.

Lemma jobFor_reordered (h k : string) :
  jobView <$> jobFor cfg' h k = jobView <$> jobFor cfg h k.
Proof.
  unfold jobFor. rewrite reordered_defs.
  destruct (LoadedConfig.ObjectDefs cfg !! k) as [objDef|]; [|done].
  destruct (configOf_reordered h) as [Hs _]. unfold settingsOf in Hs.
  injection Hs as HIP HPort HPoll HTime HRetr HExp HVer HComm HCred HMax.
  simpl. f_equal. unfold jobView, settingsOf, deviceOf. simpl.
  by rewrite HIP, HPort, HPoll, HTime, HRetr, HExp, HVer, HComm, HCred, HMax.
Qed.

Lemma jobs_reordered (h : string) :
  map jobView (omap (jobFor cfg' h) (resolvedKeys cfg' h))
  ≡ₚ map jobView (omap (jobFor cfg h) (resolvedKeys cfg h)).
Proof.
  rewrite (resolvedKeys_reordered h).
  induction (resolvedKeys cfg h) as [|k ks IH]; [done|].
  cbn [omap list_omap]. pose proof (jobFor_reordered h k) as Hk.
  destruct (jobFor cfg' h k) as [j'|], (jobFor cfg h k) as [j|];
    try discriminate Hk; [|done].
  apply (inj Some) in Hk. cbn [map]. by rewrite IH, Hk.
Qed.

Lemma hostnames_reordered (o o' : MapOrder) :
  hostnamesOf o' cfg' ≡ₚ hostnamesOf o cfg.
Proof.
  destruct (hostnamesOf_spec o cfg) as [Hnd Hh].
  destruct (hostnamesOf_spec o' cfg') as [Hnd' Hh'].
  apply NoDup_Permutation; [done|done|]. intros h.
  by rewrite Hh, Hh', devices_reordered.
Qed.

Lemma ResolveJobs_reordered (o o' : MapOrder) :
  map jobView (ResolveJobs o' (Some cfg')) ≡ₚ map jobView (ResolveJobs o (Some cfg)).
Proof.
  rewrite !ResolveJobs_spec. rewrite (hostnames_reordered o o').
  induction (hostnamesOf o cfg) as [|h hs IH]; [done|].
  simpl. rewrite !map_app. by rewrite IH, (jobs_reordered h).
Qed.

End reordered.

(** With the devices untouched, the jobs are the same, field by field. *)
Lemma ResolveJobs_reordered_groups (cfg cfg' : LoadedConfig.t) (o o' : MapOrder) :
  reordered cfg cfg' → LoadedConfig.Devices cfg' = LoadedConfig.Devices cfg →
  ResolveJobs o' (Some cfg') ≡ₚ ResolveJobs o (Some cfg).
Proof.
  intros Hre Hdev. rewrite !ResolveJobs_spec.
  rewrite (hostnames_reordered cfg cfg' Hre o o').
  apply flat_map_Permutation2; [done|]. intros h.
  rewrite (resolvedKeys_reordered cfg cfg' Hre h).
  induction (resolvedKeys cfg h) as [|k ks IH]; [done|].
  cbn [omap list_omap].
  replace (jobFor cfg' h k) with (jobFor cfg h k).
  - destruct (jobFor cfg h k); by rewrite IH.
  - unfold jobFor, configOf. by rewrite (reordered_defs cfg cfg' Hre), Hdev.
Qed.

(** *** One job for each object of a device *)

Lemma jobFor_hostname (cfg : LoadedConfig.t) (h k : string) (j : PollJob.t) :
  jobFor cfg h k = Some j → PollJob.Hostname j = h.
Proof.
  unfold jobFor. destruct (LoadedConfig.ObjectDefs cfg !! k); [|done].
  by intros [= <-].
Qed.

Lemma filter_jobs_hostname (cfg : LoadedConfig.t) (h h' : string)
    (ks : list string) :
  filter (λ j, PollJob.Hostname j = h) (omap (jobFor cfg h') ks)
  = if decide (h' = h) then omap (jobFor cfg h') ks else [].
Proof.
  destruct (decide (h' = h)) as [Hh|Hh].
  - induction ks as [|k ks IH]; [done|].
    cbn [omap list_omap]. destruct (jobFor cfg h' k) as [j|] eqn:Hj; [|done].
    apply jobFor_hostname in Hj.
    rewrite filter_cons_True by congruence. by rewrite IH.
  - induction ks as [|k ks IH]; [done|].
    cbn [omap list_omap]. destruct (jobFor cfg h' k) as [j|] eqn:Hj; [|done].
    apply jobFor_hostname in Hj.
    by rewrite filter_cons_False by congruence.
Qed.

Lemma filter_jobs_of (cfg : LoadedConfig.t) (h : string) (hs : list string) :
  NoDup hs →
  filter (λ j, PollJob.Hostname j = h)
         (flat_map (λ h', omap (jobFor cfg h') (resolvedKeys cfg h')) hs)
  = if decide (h ∈ hs) then omap (jobFor cfg h) (resolvedKeys cfg h) else [].
Proof.
  induction 1 as [|h' hs Hnot Hnd IH]; [done|].
  cbn [flat_map]. rewrite filter_app, filter_jobs_hostname, IH.
  destruct (decide (h' = h)) as [->|Hne].
  - rewrite (decide_False (P := h ∈ hs)) by done.
    rewrite decide_True by (by left). by rewrite app_nil_r.
  - simpl. destruct (decide (h ∈ hs)) as [Hin|Hin].
    + rewrite decide_True by (by right). done.
    + rewrite decide_False; [done|]. by intros [->|?]%elem_of_cons.
Qed.

Lemma jobs_of_device (o : MapOrder) (cfg : LoadedConfig.t) (h : string) :
  is_Some (LoadedConfig.Devices cfg !! h) →
  filter (λ j, PollJob.Hostname j = h) (ResolveJobs o (Some cfg))
  = omap (jobFor cfg h) (resolvedKeys cfg h).
Proof.
  intros Hdev. rewrite ResolveJobs_spec.
  destruct (hostnamesOf_spec o cfg) as [Hnd Hh]. apply Hh in Hdev.
  rewrite filter_jobs_of by done. by rewrite decide_True.
Qed.

Lemma jobFor_listing (cfg : LoadedConfig.t) (h : string) (ks : list string) :
  Forall (λ k, is_Some (LoadedConfig.ObjectDefs cfg !! k)) ks →
  Forall2 (λ k j, jobFor cfg h k = Some j) ks (omap (jobFor cfg h) ks).
Proof.
  induction 1 as [|k ks [objDef Hk] _ IH]; [constructor|].
  cbn [omap list_omap].
  destruct (jobFor cfg h k) as [j|] eqn:Hj.
  - by constructor.
  - unfold jobFor in Hj. by rewrite Hk in Hj.
Qed.

(** C9.  The resolution does not depend on the order of the lists of a
    configuration, and gives each device one job for each object it
    reaches.  With the group names of the devices, the object-group
    names of the device groups and the object keys of the object groups
    put in any other order, ResolveJobs returns the same poll jobs, each
    as often: the same hostname, Device, device settings and
    ObjectDefinition (a job as the specification defines it; the Go
    struct carries the device's list of group names as well, which is
    the reordered list itself), and the very same jobs when the
    devices are left as they are.  The jobs of a device are, one each
    and in this order, the jobs of a list of object keys without
    repetition that holds exactly the defined keys the device reaches
    through its groups. *)
Theorem ResolveJobs_order_independent (o o' : MapOrder)
    (cfg cfg' : LoadedConfig.t) (h : string) :
  (reordered cfg cfg' →
     map jobView (ResolveJobs o' (Some cfg')) ≡ₚ map jobView (ResolveJobs o (Some cfg)))
  ∧ (reordered cfg cfg' → LoadedConfig.Devices cfg' = LoadedConfig.Devices cfg →
     ResolveJobs o' (Some cfg') ≡ₚ ResolveJobs o (Some cfg))
  ∧ (is_Some (LoadedConfig.Devices cfg !! h) →
     ∃ ks, NoDup ks
           ∧ (∀ k, k ∈ ks ↔ k ∈ reachable cfg h
                           ∧ is_Some (LoadedConfig.ObjectDefs cfg !! k))
           ∧ Forall2 (λ k j, jobFor cfg h k = Some j) ks
                     (filter (λ j, PollJob.Hostname j = h)
                             (ResolveJobs o (Some cfg)))).
Proof.
  split_and!.
  - intros Hre. by apply ResolveJobs_reordered.
  - intros Hre Hdev. by apply ResolveJobs_reordered_groups.
  - intros Hdev. destruct (resolvedKeys_spec cfg h) as [Hnd Hks].
    exists (resolvedKeys cfg h). split; [done|]. split; [done|].
    rewrite (jobs_of_device o cfg h Hdev). apply jobFor_listing.
    apply Forall_forall. intros k Hk. by apply Hks in Hk as [_ ?].
Qed.

(** A device that reaches ifEntry through two groups, with every list
    of the configuration reversed. *)
Lemma ResolveJobs_order_independent_witness :
  map jobView (ResolveJobs Go.canonical_order
                 (Some (reorderConfig reverse reverse reverse Samples.twoPaths)))
  ≡ₚ map jobView (ResolveJobs Go.canonical_order (Some Samples.twoPaths)).
Proof.
  apply (proj1 (ResolveJobs_order_independent Go.canonical_order Go.canonical_order
                  Samples.twoPaths (reorderConfig reverse reverse reverse Samples.twoPaths)
                  "switch1")).
  apply reorderConfig_reordered; intros l; apply reverse_Permutation.
Defined.

End SchedulerFacts.

Module StringFacts.

Lemma bytes_app (a b : string) : Go.bytes (a +:+ b) = Go.bytes a ++ Go.bytes b.
Proof.
  unfold Go.bytes. induction a as [|c a IH]; [done|].
  rewrite GoFacts.app_cons. simpl. by rewrite IH.
Qed.

Lemma of_bytes_app (l1 l2 : list ascii) :
  Go.of_bytes (l1 ++ l2) = Go.of_bytes l1 +:+ Go.of_bytes l2.
Proof.
  unfold Go.of_bytes. induction l1 as [|c l1 IH]; [done|].
  simpl. rewrite GoFacts.app_cons. by rewrite IH.
Qed.

Lemma of_bytes_bytes (s : string) : Go.of_bytes (Go.bytes s) = s.
Proof. apply String.string_of_list_ascii_of_string. Qed.

Lemma bytes_of_bytes (l : list ascii) : Go.bytes (Go.of_bytes l) = l.
Proof. apply String.list_ascii_of_string_of_list_ascii. Qed.

Lemma prefix_app (p q : string) : String.prefix p (p +:+ q) = true.
Proof.
  induction p as [|c p IH]; [by destruct q|].
  rewrite GoFacts.app_cons. simpl. by destruct (ascii_dec c c).
Qed.

Lemma prefix_inv (p s : string) :
  String.prefix p s = true → ∃ q, s = p +:+ q.
Proof.
  revert s. induction p as [|c p IH]; intros s Hp.
  - by exists s.
  - destruct s as [|d s]; [done|]. simpl in Hp.
    destruct (ascii_dec c d) as [->|]; [|done].
    destruct (IH s Hp) as [q ->]. exists q. by rewrite GoFacts.app_cons.
Qed.

Lemma HasSuffix_app (a b : string) : Go.HasSuffix (a +:+ b) b = true.
Proof.
  unfold Go.HasSuffix. rewrite bytes_app, rev_app_distr, of_bytes_app.
  apply prefix_app.
Qed.

Lemma HasSuffix_inv (s p : string) :
  Go.HasSuffix s p = true → ∃ a, s = a +:+ p.
Proof.
  unfold Go.HasSuffix. intros [q Hq]%prefix_inv.
  exists (Go.of_bytes (rev (Go.bytes q))).
  apply (f_equal Go.bytes) in Hq. rewrite bytes_app, !bytes_of_bytes in Hq.
  apply (f_equal (@rev ascii)) in Hq. rewrite rev_involutive, rev_app_distr in Hq.
  rewrite rev_involutive in Hq.
  rewrite <- (of_bytes_bytes s), Hq, of_bytes_app. by rewrite of_bytes_bytes.
Qed.

Lemma TrimSuffix_app (a b : string) : Go.TrimSuffix (a +:+ b) b = a.
Proof.
  unfold Go.TrimSuffix. rewrite HasSuffix_app, GoFacts.length_app.
  replace (String.length a + String.length b - String.length b)
    with (String.length a) by lia.
  apply GoFacts.slice_to_app.
Qed.

Lemma HasPrefix_app (p q : string) : Go.HasPrefix (p +:+ q) p = true.
Proof. apply prefix_app. Qed.

Lemma TrimPrefix_app (p q : string) : Go.TrimPrefix (p +:+ q) p = q.
Proof.
  unfold Go.TrimPrefix. rewrite HasPrefix_app. apply GoFacts.slice_from_app.
Qed.

End StringFacts.

Module PoolProperties.
Import Config.
Import Poller.
Import PoolSpec.

(** popIdle, on the stack top first: the sessions skipped are the
    expired ones above the first that is not, and they are the ones
    closed. *)
Lemma popIdleRev_spec (o : PoolOptions) (now : Go.Time) (stack : list poolEntry) :
  ∃ stale,
    Forall (expired o now) stale
    ∧ (popIdleRev o now stack).2
      = filter (λ c, hasConn c = true) (map conn stale)
    ∧ match (popIdleRev o now stack).1.1 with
      | Some c =>
          ∃ e, stack = stale ++ e :: (popIdleRev o now stack).1.2
               ∧ conn e = c ∧ ¬ expired o now e
      | None => stack = stale ∧ (popIdleRev o now stack).1.2 = []
      end.
Proof.
  induction stack as [|entry rest IH]; simpl.
  - exists []. by split_and!.
  - case_decide as Hexp.
    + destruct IH as (stale & Hall & Hclosed & Hres).
      destruct (popIdleRev o now rest) as [[r rest'] closedNow]. simpl in *.
      exists (entry :: stale). split_and!.
      * by constructor.
      * rewrite Hclosed. simpl. rewrite filter_cons.
        destruct (hasConn (conn entry)); by case_decide.
      * destruct r as [c|].
        -- destruct Hres as (e & -> & <- & Hne). by exists e.
        -- destruct Hres as [-> ->]. done.
    + exists []. simpl. split_and!; [done..|]. by exists entry.
Qed.

Lemma bounded_ext (p q : ConnectionPool) :
  opts q = opts p → pools q = pools p → bounded p → bounded q.
Proof. unfold bounded. by intros -> ->. Qed.

Lemma bounded_insert (p : ConnectionPool) (h : string) (dp : devicePool) :
  bounded p →
  (Z.of_nat (length (idle dp)) ≤ MaxIdlePerDevice (opts p))%Z →
  sem dp ≤ semCap dp → 0 < semCap dp →
  bounded (withPools p (<[h := dp]> (pools p))).
Proof.
  intros [Hmax Hb] Hi Hs Hc. split; [done|]. simpl. intros h' dp' Hl.
  destruct (decide (h' = h)) as [->|Hne].
  - rewrite lookup_insert_eq in Hl. by simplify_eq.
  - rewrite lookup_insert_ne in Hl by done. by eapply Hb.
Qed.

Lemma bounded_closeConn (p : ConnectionPool) (c : Session) :
  bounded p → bounded (closeConn p c).
Proof. unfold closeConn. by destruct (hasConn c). Qed.

Lemma bounded_Put (p : ConnectionPool) (now : Go.Time) (h : string) (c : Session) :
  bounded p → bounded (Put p now h c).2.
Proof.
  intros Hb. unfold Put, getPool.
  destruct (pools p !! h) as [dp|] eqn:Hl; [|by apply bounded_closeConn].
  destruct Hb as [Hmax Hb]. destruct (Hb h dp Hl) as (Hi & Hs & Hc).
  case_decide as Hfull.
  - assert (Hb' : bounded (closeConn p c)) by by apply bounded_closeConn.
    assert (Ho' : opts (closeConn p c) = opts p)
      by (unfold closeConn; by destruct (hasConn c)).
    generalize dependent (closeConn p c). intros q Hq Hoq.
    case_decide; cbn [snd]; apply bounded_insert; cbn [idle sem semCap];
      rewrite ?Hoq; try done; lia.
  - case_decide; cbn [snd]; apply bounded_insert; cbn [idle sem semCap]; try done;
      rewrite ?length_app; simpl; lia.
Qed.

Lemma bounded_Discard (p : ConnectionPool) (h : string) (c : Session) :
  bounded p → bounded (Discard p h c).2.
Proof.
  intros Hb%(bounded_closeConn _ c). unfold Discard, getPool.
  destruct (pools (closeConn p c) !! h) as [dp|] eqn:Hl; [|done].
  destruct Hb as [Hmax Hb']. destruct (Hb' h dp Hl) as (Hi & Hs & Hc).
  case_decide; simpl; [done|].
  apply bounded_insert; simpl; try done. lia.
Qed.

Lemma bounded_Close (o : MapOrder) (p : ConnectionPool) :
  bounded p → bounded (Close o p).
Proof.
  intros [Hmax Hb]. unfold Close. destruct (closed p); [done|].
  split; [done|]. simpl. intros h dp. rewrite lookup_fmap.
  destruct (pools p !! h) as [dp0|] eqn:Hl; [|done]. simpl. intros [= <-]. simpl.
  destruct (Hb h dp0 Hl) as (_ & Hs & Hc). split_and!; [lia|done..].
Qed.

Lemma bounded_getOrCreatePool (p : ConnectionPool) (h : string) (maxConcurrent : Z) :
  bounded p →
  bounded (getOrCreatePool p h maxConcurrent).2
  ∧ pools (getOrCreatePool p h maxConcurrent).2 !! h
    = Some (getOrCreatePool p h maxConcurrent).1
  ∧ opts (getOrCreatePool p h maxConcurrent).2 = opts p
  ∧ closed (getOrCreatePool p h maxConcurrent).2 = closed p.
Proof.
  intros Hb. unfold getOrCreatePool.
  destruct (pools p !! h) as [dp|] eqn:Hl; simpl; [done|].
  split_and!; [|by rewrite lookup_insert_eq|done..].
  apply bounded_insert; simpl; [done|destruct Hb; lia|lia|].
  case_decide; lia.
Qed.

Lemma bounded_popIdle (p : ConnectionPool) (now : Go.Time) (h : string)
    (dp : devicePool) :
  bounded p → pools p !! h = Some dp →
  bounded (popIdle p now h dp).2.
Proof.
  intros Hb Hl. unfold popIdle.
  destruct (popIdleRev_spec (opts p) now (rev (idle dp))) as (stale & _ & _ & Hres).
  destruct (popIdleRev (opts p) now (rev (idle dp))) as [[r rest] closedNow].
  simpl in *.
  destruct Hb as [Hmax Hb']. destruct (Hb' h dp Hl) as (Hi & Hs & Hc).
  assert (Hlen : length rest ≤ length (idle dp)).
  { rewrite <- (length_rev (idle dp)). destruct r as [c|].
    - destruct Hres as (e & -> & _). rewrite length_app. simpl. lia.
    - destruct Hres as [_ ->]. simpl. lia. }
  eapply (bounded_ext (withPools p _)); [done..|].
  apply bounded_insert; simpl; [done| |done..].
  rewrite length_rev. lia.
Qed.

Lemma bounded_Get (p : ConnectionPool) (now : Go.Time) (ctxDone preferCtx : bool)
    (h : string) (cfg : DeviceConfig.t) :
  bounded p → bounded (Get p now ctxDone preferCtx h cfg).2.
Proof.
  intros Hb. unfold Get.
  destruct (bounded_getOrCreatePool p h (DeviceConfig.MaxConcurrentPolls cfg) Hb)
    as (Hb1 & Hl1 & _ & _).
  destruct (getOrCreatePool p h (DeviceConfig.MaxConcurrentPolls cfg)) as [dp p1].
  simpl in *. destruct (closed p1); [done|].
  destruct (ctxDone && _); [done|].
  destruct (bool_decide (sem dp < semCap dp)) eqn:Hfree; simpl; [|done].
  apply bool_decide_eq_true in Hfree.
  destruct Hb1 as [Hmax Hb1']. destruct (Hb1' h dp Hl1) as (Hi & Hs & Hc).
  set (dp2 := {| idle := idle dp; sem := S (sem dp); semCap := semCap dp |}).
  set (p2 := withPools p1 (<[h := dp2]> (pools p1))).
  assert (Hb2 : bounded p2).
  { apply bounded_insert; simpl; [done|done|lia|done]. }
  assert (Hl2 : pools p2 !! h = Some dp2) by (simpl; by rewrite lookup_insert_eq).
  pose proof (bounded_popIdle p2 now h dp2 Hb2 Hl2) as Hb3.
  destruct (popIdle p2 now h dp2) as [[c|] p3]; simpl in *; [done|].
  destruct (Dial (opts p3) (dialled p3) cfg) as [c|cause]; simpl.
  - by eapply bounded_ext.
  - destruct Hb3 as [Hmax3 Hb3']. split; [done|]. simpl. intros h' dp'.
    destruct (decide (h' = h)) as [->|Hne].
    + rewrite lookup_alter_eq.
      destruct (pools p3 !! h) as [d|] eqn:Hd; simpl; [|done]. intros [= <-]. simpl.
      destruct (Hb3' h d Hd) as (? & ? & ?). split_and!; [done|lia|done].
    + rewrite lookup_alter_ne by done. apply Hb3'.
Qed.

Lemma bounded_after (p : ConnectionPool) (call : Call) :
  bounded p → bounded (after p call).
Proof.
  destruct call; simpl; auto using bounded_Get, bounded_Put, bounded_Discard,
    bounded_Close.
Qed.

(** X1.  Whatever calls are made on a new pool, in any order, no
    device ever has more idle sessions than MaxIdlePerDevice (after
    defaults), nor more slots of its semaphore taken than the semaphore
    has, and every semaphore has at least one slot. *)
Theorem pool_stays_bounded (o : PoolOptions) (calls : list Call) :
  bounded (afterAll (NewConnectionPool o) calls).
Proof.
  unfold afterAll. induction calls as [|call calls IH] using rev_ind.
  - split; [|done]. simpl. unfold defaults. simpl. case_decide; lia.
  - rewrite foldl_snoc. by apply bounded_after.
Qed.

Lemma slotsOf_closeConn (p : ConnectionPool) (c : Session) (h : string) :
  slotsOf (closeConn p c) h = slotsOf p h.
Proof. unfold closeConn. by destruct (hasConn c). Qed.

Lemma slotsOf_insert (p : ConnectionPool) (h h' : string) (dp : devicePool) :
  slotsOf (withPools p (<[h := dp]> (pools p))) h'
  = if decide (h' = h) then sem dp else slotsOf p h'.
Proof.
  unfold slotsOf. simpl. case_decide as Hh.
  - subst. by rewrite lookup_insert_eq.
  - by rewrite lookup_insert_ne.
Qed.

Lemma slotsOf_popIdle (p : ConnectionPool) (now : Go.Time) (h h' : string)
    (dp : devicePool) :
  pools p !! h = Some dp →
  slotsOf (popIdle p now h dp).2 h' = slotsOf p h'.
Proof.
  intros Hl. unfold popIdle.
  destruct (popIdleRev (opts p) now (rev (idle dp))) as [[r rest] closedNow].
  unfold slotsOf. simpl. destruct (decide (h' = h)) as [->|Hne].
  - by rewrite lookup_insert_eq, Hl.
  - by rewrite lookup_insert_ne.
Qed.

(** The slots Get takes. *)
Lemma Get_slots (p : ConnectionPool) (now : Go.Time)
    (ctxDone preferCtx : bool) (h h' : string) (cfg : DeviceConfig.t) :
  let r := Get p now ctxDone preferCtx h cfg in
  match r.1 with
  | GetConn _ =>
      slotsOf r.2 h = S (slotsOf p h)
      ∧ match pools p !! h with
        | Some dp => sem dp < semCap dp
        | None => True
        end
  | _ => slotsOf r.2 h = slotsOf p h
  end
  ∧ (h' ≠ h → slotsOf r.2 h' = slotsOf p h').
Proof.
  cbv zeta. unfold Get, getOrCreatePool.
  set (fresh := {| idle := []; sem := 0; semCap := _ |}).
  assert (Hcase : ∃ dp p1,
    (match pools p !! h with
     | Some dp => (dp, p)
     | None => (fresh, withPools p (<[h := fresh]> (pools p)))
     end) = (dp, p1)
    ∧ pools p1 !! h = Some dp ∧ closed p1 = closed p
    ∧ sem dp = slotsOf p h
    ∧ (∀ k, slotsOf p1 k = slotsOf p k)
    ∧ match pools p !! h with Some d => d = dp | None => True end).
  { unfold slotsOf. destruct (pools p !! h) as [dp|] eqn:Hl.
    - exists dp, p. by rewrite Hl.
    - exists fresh, (withPools p (<[h := fresh]> (pools p))). simpl.
      rewrite lookup_insert_eq. split_and!; try done.
      intros k. destruct (decide (k = h)) as [->|Hne].
      + by rewrite lookup_insert_eq, Hl.
      + by rewrite lookup_insert_ne. }
  destruct Hcase as (dp & p1 & -> & Hl1 & Hc1 & Hsem & Hslots & Hsame).
  destruct (closed p1); [simpl; split; [apply Hslots|intros _; apply Hslots]|].
  destruct (ctxDone && _); [simpl; split; [apply Hslots|intros _; apply Hslots]|].
  destruct (bool_decide (sem dp < semCap dp)) eqn:Hfree; simpl;
    [|split; [apply Hslots|intros _; apply Hslots]].
  apply bool_decide_eq_true in Hfree.
  set (dp2 := {| idle := idle dp; sem := S (sem dp); semCap := semCap dp |}).
  set (p2 := withPools p1 (<[h := dp2]> (pools p1))).
  assert (Hl2 : pools p2 !! h = Some dp2) by (simpl; by rewrite lookup_insert_eq).
  assert (Hs2 : ∀ k, slotsOf p2 k = if decide (k = h) then S (sem dp) else slotsOf p k).
  { intros k. unfold p2. rewrite slotsOf_insert. by rewrite Hslots. }
  pose proof (λ k, slotsOf_popIdle p2 now h k dp2 Hl2) as Hs3.
  assert (Hfree' : match pools p !! h with
                   | Some d => sem d < semCap d | None => True end).
  { destruct (pools p !! h); [by subst|done]. }
  destruct (popIdle p2 now h dp2) as [[c'|] p3]; simpl in *.
  { split; [split; [|done]|].
    - rewrite Hs3, Hs2, decide_True by done. by rewrite Hsem.
    - intros Hne. by rewrite Hs3, Hs2, decide_False. }
  destruct (Dial (opts p3) (dialled p3) cfg) as [c'|cause]; simpl.
  { change (slotsOf {| opts := opts p3; pools := pools p3; closed := closed p3;
                       dialled := S (dialled p3); closedConns := closedConns p3 |})
      with (slotsOf p3).
    split; [split; [|done]|].
    - rewrite Hs3, Hs2, decide_True by done. by rewrite Hsem.
    - intros Hne. by rewrite Hs3, Hs2, decide_False. }
  pose proof (Hs3 h) as Hh. rewrite Hs2, decide_True in Hh by done.
  unfold slotsOf in *. simpl. split.
  + rewrite lookup_alter_eq. destruct (pools p3 !! h) as [d|]; simpl in *; lia.
  + intros Hne. rewrite lookup_alter_ne by done.
    by rewrite Hs3, Hs2, decide_False.
Qed.

(** The slot Put gives back. *)
Lemma Put_slots (p : ConnectionPool) (now : Go.Time) (h h' : string) (c : Session) :
  let r := Put p now h c in
  slotsOf r.2 h = slotsOf p h - 1
  ∧ (r.1 = PutBlocked ↔ is_Some (pools p !! h) ∧ slotsOf p h = 0)
  ∧ (h' ≠ h → slotsOf r.2 h' = slotsOf p h').
Proof.
  cbv zeta. unfold Put, getPool, slotsOf.
  destruct (pools p !! h) as [dp|] eqn:Hl.
  + set (branch := if decide (MaxIdlePerDevice (opts p) ≤ Z.of_nat (length (idle dp)))%Z
                   then (idle dp, closeConn p c)
                   else (idle dp ++ [{| conn := c; returnedAt := now |}], p)).
    assert (Hbp : pools branch.2 = pools p).
    { unfold branch. case_decide; simpl; [|done].
      unfold closeConn. by destruct (hasConn c). }
    destruct branch as [idle' q]. simpl in Hbp.
    case_decide as Hz; simpl; rewrite Hbp.
    * rewrite lookup_insert_eq. simpl. split_and!; [lia| |].
      -- split; [by eauto|done].
      -- intros Hne. by rewrite lookup_insert_ne.
    * rewrite lookup_insert_eq. simpl. split_and!; [done| |].
      -- split; [done|]. by intros [_ ?].
      -- intros Hne. by rewrite lookup_insert_ne.
  + assert (Hbp : pools (closeConn p c) = pools p)
      by (unfold closeConn; by destruct (hasConn c)).
    simpl. rewrite Hbp, Hl. split_and!; [done| |done].
    split; [done|]. by intros [[? ?] _].
Qed.

(** The slot Discard gives back. *)
Lemma Discard_slots (p : ConnectionPool) (h h' : string) (c : Session) :
  let r := Discard p h c in
  slotsOf r.2 h = slotsOf p h - 1
  ∧ (r.1 = PutBlocked ↔ is_Some (pools p !! h) ∧ slotsOf p h = 0)
  ∧ (h' ≠ h → slotsOf r.2 h' = slotsOf p h').
Proof.
  cbv zeta. unfold Discard, getPool, slotsOf. cbv zeta.
  assert (Hbp : pools (closeConn p c) = pools p)
    by (unfold closeConn; by destruct (hasConn c)).
  rewrite Hbp. destruct (pools p !! h) as [dp|] eqn:Hl.
  + case_decide as Hz; simpl; rewrite ?Hbp.
    * rewrite Hl. split_and!; [lia| |done]. split; [by eauto|done].
    * rewrite lookup_insert_eq. simpl. split_and!; [done| |].
      -- split; [done|]. by intros [_ ?].
      -- intros Hne. by rewrite lookup_insert_ne.
  + simpl. rewrite ?Hbp, Hl. split_and!; [done| |done].
    split; [done|]. by intros [[? ?] _].
Qed.

Lemma Close_slots (o : MapOrder) (p : ConnectionPool) (h : string) :
  slotsOf (Close o p) h = slotsOf p h.
Proof.
  unfold Close, slotsOf. destruct (closed p); [done|]. simpl.
  rewrite lookup_fmap. by destruct (pools p !! h).
Qed.

(** X2.  The semaphore of a device counts the sessions that are out.
    A Get that hands out a session takes one slot of its device, and
    only when one is free; a Get that fails (pool closed, context done,
    dial error) or has to wait takes none, so a failed dial gives its
    slot back.  Put and Discard give one slot back, and would wait on a
    semaphore with no slot taken.  No call changes the slots of
    another device, and Close changes none. *)
Theorem slot_accounting (p : ConnectionPool) (now : Go.Time)
    (ctxDone preferCtx : bool) (h h' : string) (cfg : DeviceConfig.t)
    (c : Session) (o : MapOrder) :
  (let r := Get p now ctxDone preferCtx h cfg in
   match r.1 with
   | GetConn _ =>
       slotsOf r.2 h = S (slotsOf p h)
       ∧ match pools p !! h with
         | Some dp => sem dp < semCap dp
         | None => True
         end
   | _ => slotsOf r.2 h = slotsOf p h
   end
   ∧ (h' ≠ h → slotsOf r.2 h' = slotsOf p h'))
  ∧ (let r := Put p now h c in
     slotsOf r.2 h = slotsOf p h - 1
     ∧ (r.1 = PutBlocked ↔ is_Some (pools p !! h) ∧ slotsOf p h = 0)
     ∧ (h' ≠ h → slotsOf r.2 h' = slotsOf p h'))
  ∧ (let r := Discard p h c in
     slotsOf r.2 h = slotsOf p h - 1
     ∧ (r.1 = PutBlocked ↔ is_Some (pools p !! h) ∧ slotsOf p h = 0)
     ∧ (h' ≠ h → slotsOf r.2 h' = slotsOf p h'))
  ∧ slotsOf (Close o p) h = slotsOf p h.
Proof.
  split_and!.
  - apply Get_slots.
  - apply Put_slots.
  - apply Discard_slots.
  - apply Close_slots.
Qed.


(** Get on an open pool whose device has a pool and a free slot: the
    slot is taken, then popIdle decides. *)
Lemma Get_open (p : ConnectionPool) (now : Go.Time) (preferCtx : bool)
    (h : string) (cfg : DeviceConfig.t) (dp : devicePool) :
  closed p = false → pools p !! h = Some dp → sem dp < semCap dp →
  let dp2 := {| idle := idle dp; sem := S (sem dp); semCap := semCap dp |} in
  let p2 := withPools p (<[h := dp2]> (pools p)) in
  Get p now false preferCtx h cfg
  = match popIdle p2 now h dp2 with
    | (Some c, p3) => (GetConn c, p3)
    | (None, p3) =>
        let p4 := {| opts := opts p3; pools := pools p3; closed := closed p3;
                     dialled := S (dialled p3); closedConns := closedConns p3 |} in
        match Dial (opts p4) (dialled p3) cfg with
        | inr cause =>
            (GetError (ErrDial cause),
             withPools p4
               (alter (λ d, {| idle := idle d; sem := sem d - 1; semCap := semCap d |})
                      h (pools p4)))
        | inl c => (GetConn c, p4)
        end
    end.
Proof.
  intros Hc Hl Hfree. unfold Get, getOrCreatePool. rewrite Hl, Hc. simpl.
  by rewrite bool_decide_eq_true_2.
Qed.

(** X3.  A session put back is the one handed out next (the idle list
    is a stack), without dialling and without closing anything, when
    the pool is open, the idle list of the device is not full, and the
    session has not waited longer than IdleTimeout (or there is no
    timeout). *)
Theorem Put_then_Get_reuses (p : ConnectionPool) (now now' : Go.Time)
    (preferCtx : bool) (h : string) (cfg : DeviceConfig.t) (c : Session)
    (dp : devicePool) :
  closed p = false → pools p !! h = Some dp →
  0 < sem dp → sem dp ≤ semCap dp →
  (Z.of_nat (length (idle dp)) < MaxIdlePerDevice (opts p))%Z →
  (IdleTimeout (opts p) ≤ 0 ∨ Go.Sub now' now ≤ IdleTimeout (opts p))%Z →
  let p1 := (Put p now h c).2 in
  let r := Get p1 now' false preferCtx h cfg in
  (Put p now h c).1 = PutDone
  ∧ r.1 = GetConn c
  ∧ dialled r.2 = dialled p
  ∧ closedConns r.2 = closedConns p
  ∧ idleOf r.2 h = map conn (idle dp)
  ∧ slotsOf r.2 h = sem dp.
Proof.
  intros Hc Hl Hsem Hcap Hroom Hfresh. cbv zeta.
  assert (HPut : Put p now h c
    = (PutDone,
       withPools p (<[h := {| idle := idle dp ++ [{| conn := c; returnedAt := now |}];
                             sem := sem dp - 1; semCap := semCap dp |}]> (pools p)))).
  { unfold Put, getPool. rewrite Hl. rewrite decide_False by lia.
    by rewrite decide_False by lia. }
  rewrite HPut. cbn [fst snd]. split; [done|].
  set (dp1 := {| idle := idle dp ++ [{| conn := c; returnedAt := now |}];
                 sem := sem dp - 1; semCap := semCap dp |}).
  set (p1 := withPools p (<[h := dp1]> (pools p))).
  assert (Hl1 : pools p1 !! h = Some dp1) by (simpl; by rewrite lookup_insert_eq).
  rewrite (Get_open p1 now' preferCtx h cfg dp1 Hc Hl1) by (simpl; lia).
  cbv zeta.
  set (dp2 := {| idle := idle dp1; sem := S (sem dp1); semCap := semCap dp1 |}).
  set (p2 := withPools p1 (<[h := dp2]> (pools p1))).
  assert (Hpop : popIdle p2 now' h dp2
    = (Some c, withClosedConns
                 (withPools p2 (<[h := {| idle := idle dp; sem := sem dp2;
                                          semCap := semCap dp2 |}]> (pools p2)))
                 (closedConns p2 ++ []))).
  { unfold popIdle. simpl. rewrite rev_app_distr. simpl.
    rewrite decide_False by (simpl; lia). by rewrite rev_involutive. }
  rewrite Hpop. cbn [fst snd]. unfold idleOf, slotsOf. simpl.
  rewrite lookup_insert_eq. simpl. rewrite app_nil_r. split_and!; try done. lia.
Qed.


(** X5.  Close on an open pool empties every idle list, closes every
    idle session that has a connection and no other, keeps every
    device's pool, and a second Close changes nothing. *)
Theorem Close_drains (o o' : MapOrder) (p : ConnectionPool) (h : string)
    (c : Session) :
  closed p = false →
  let q := Close o p in
  idleOf q h = []
  ∧ (c ∈ closedConns q
     ↔ c ∈ closedConns p
       ∨ (hasConn c = true ∧ ∃ h', c ∈ idleOf p h'))
  ∧ dom (pools q) = dom (pools p)
  ∧ Close o' q = q.
Proof.
  intros Hc. cbv zeta. unfold Close. rewrite Hc. split_and!.
  - unfold idleOf. simpl. rewrite lookup_fmap. by destruct (pools p !! h).
  - simpl. rewrite elem_of_app. apply or_iff_compat_l.
    rewrite list_elem_of_In, in_flat_map. split.
    + intros ([h' dp] & Hin%list_elem_of_In & Hc'%list_elem_of_In).
      apply list_elem_of_filter in Hc' as [Hconn Hc']. split; [done|].
      exists h'. unfold idleOf.
      apply RangeFacts.elem_of_range in Hin. simpl in *.
      by rewrite Hin.
    + intros (Hconn & h' & Hin). unfold idleOf in Hin.
      destruct (pools p !! h') as [dp|] eqn:Hl; [|by apply elem_of_nil in Hin].
      exists (h', dp). split.
      * by apply list_elem_of_In, RangeFacts.elem_of_range.
      * apply list_elem_of_In, list_elem_of_filter. by split.
  - simpl. by rewrite dom_fmap_L.
  - done.
Qed.

Lemma Put_then_Get_reuses_witness :
  let p1 := (Put Samples.poolInUse 0%Z "sw1" Samples.session0).2 in
  let r := Get p1 5%Z false false "sw1" Samples.sw1Config in
  (Put Samples.poolInUse 0%Z "sw1" Samples.session0).1 = PutDone
  ∧ r.1 = GetConn Samples.session0
  ∧ dialled r.2 = dialled Samples.poolInUse
  ∧ closedConns r.2 = closedConns Samples.poolInUse
  ∧ idleOf r.2 "sw1" = map conn (idle Samples.sw1InUse)
  ∧ slotsOf r.2 "sw1" = sem Samples.sw1InUse.
Proof.
  apply (Put_then_Get_reuses Samples.poolInUse 0%Z 5%Z false "sw1"
           Samples.sw1Config Samples.session0 Samples.sw1InUse).
  - reflexivity.
  - vm_compute. reflexivity.
  - simpl. lia.
  - simpl. lia.
  - vm_compute. reflexivity.
  - left. vm_compute. discriminate.
Defined.


Lemma Close_drains_witness :
  idleOf (Close Go.canonical_order Samples.poolIdle) "sw1" = []
  ∧ (Samples.session0 ∈ closedConns (Close Go.canonical_order Samples.poolIdle)
     ↔ Samples.session0 ∈ closedConns Samples.poolIdle
       ∨ (hasConn Samples.session0 = true
          ∧ ∃ h', Samples.session0 ∈ idleOf Samples.poolIdle h'))
  ∧ dom (pools (Close Go.canonical_order Samples.poolIdle))
    = dom (pools Samples.poolIdle)
  ∧ Close Go.canonical_order (Close Go.canonical_order Samples.poolIdle)
    = Close Go.canonical_order Samples.poolIdle.
Proof.
  apply (Close_drains Go.canonical_order Go.canonical_order Samples.poolIdle "sw1"
           Samples.session0).
  reflexivity.
Defined.

End PoolProperties.

Module CounterProperties.
Import Models.
Import Decoder.
Import Metrics.
Import ProducerSpec.
Import MetricsFacts.
Import BuildFacts.
Import ProducerFacts.

(** The delta of two values within the range of a counter. *)
Lemma Delta_mod (s : CounterState) (key : CounterKey.t)
    (prev : counterEntry) (current : Z) (now : Go.Time) (syntax : string) :
  entries s !! key = Some prev →
  (SeenAt prev < now)%Z →
  (0 ≤ Value prev ≤ WrapForSyntax syntax)%Z →
  (0 ≤ current ≤ WrapForSyntax syntax)%Z →
  (Delta s key current now (WrapForSyntax syntax)).1
  = {| Delta_ := (current - Value prev) mod (WrapForSyntax syntax + 1);
       Elapsed := Z.min (now - SeenAt prev) Go.maxDuration;
       Valid := true |}.
Proof.
  set (wrap := WrapForSyntax syntax).
  intros Hprev Hlater Hp Hc. unfold Delta. rewrite Hprev.
  assert (Hwrap : (wrap = 2 ^ 32 - 1 ∨ wrap = 2 ^ 64 - 1)%Z).
  { unfold wrap, WrapForSyntax. case_decide; auto. }
  assert (Hsub : Go.Sub now (SeenAt prev) = Z.min (now - SeenAt prev) Go.maxDuration).
  { unfold Go.Sub, Go.maxDuration, Go.minDuration.
    destruct (Z.ltb_spec (2 ^ 63 - 1) (now - SeenAt prev)); [lia|].
    destruct (Z.ltb_spec (now - SeenAt prev) (- 2 ^ 63)); lia. }
  rewrite Hsub. rewrite decide_False by (unfold Go.maxDuration; lia).
  unfold Go.wrap_uint64. case_decide as Hle; simpl; f_equal.
  - rewrite !Z.mod_small; lia.
  - rewrite (Z.mod_small (wrap - Value prev)) by lia.
    rewrite (Z.mod_small (wrap - Value prev + current)) by lia.
    rewrite (Z.mod_small (wrap - Value prev + current + 1)) by lia.
    apply Z.mod_unique with (q := (-1)%Z); lia.
Qed.

(** X6.  For a counter of syntax Counter32 or Counter64 whose stored
    and current values are within its range, and a sample later than
    the stored one, Delta is valid and its delta is the difference of
    the two values modulo 2^32 (Counter32) or 2^64 (any other syntax):
    the plain difference when the counter has not wrapped, the
    difference plus the modulus when it has.  The elapsed time is the
    difference of the two instants, capped at the largest Duration. *)
Theorem Delta_difference_mod (s : CounterState) (key : CounterKey.t)
    (prev : counterEntry) (current : Z) (now : Go.Time) (syntax : string) :
  let wrap := WrapForSyntax syntax in
  entries s !! key = Some prev →
  (SeenAt prev < now)%Z →
  (0 ≤ Value prev ≤ wrap)%Z → (0 ≤ current ≤ wrap)%Z →
  (Delta s key current now wrap).1
  = {| Delta_ := (current - Value prev) mod (wrap + 1);
       Elapsed := Z.min (now - SeenAt prev) Go.maxDuration;
       Valid := true |}.
Proof. apply Delta_mod. Qed.

(** X7.  A sample that is not later than the stored one is answered
    with Valid = false, and is stored all the same: the next delta is
    taken against it. *)
Theorem Delta_without_progress (s : CounterState) (key : CounterKey.t)
    (prev : counterEntry) (current next : Z) (now later : Go.Time) (wrap : Z) :
  entries s !! key = Some prev →
  (now ≤ SeenAt prev)%Z →
  let r := Delta s key current now wrap in
  r.1 = invalidResult
  ∧ entries r.2 !! key = Some {| Value := current; SeenAt := now |}
  ∧ (Delta r.2 key next later wrap).1
    = (Delta {| entries := {[ key := {| Value := current; SeenAt := now |} ]} |}
             key next later wrap).1.
Proof.
  intros Hprev Hle r. subst r.
  assert (Hs : entries (Delta s key current now wrap).2 !! key
               = Some {| Value := current; SeenAt := now |}).
  { by rewrite Delta_entries, lookup_insert_eq. }
  split_and!; [|done|].
  - unfold Delta. rewrite Hprev. rewrite decide_True; [done|].
    unfold Go.Sub, Go.maxDuration, Go.minDuration.
    destruct (Z.ltb_spec (2 ^ 63 - 1) (now - SeenAt prev)); [lia|].
    destruct (Z.ltb_spec (now - SeenAt prev) (- 2 ^ 63)); lia.
  - apply Delta_local. rewrite Hs. simpl. by rewrite lookup_singleton_eq.
Qed.

(** The cutoff of Purge for a maxAge that is a Duration. *)
Lemma Purge_cutoff (maxAge : Go.Duration) (now : Go.Time) :
  (Go.minDuration ≤ maxAge ≤ Go.maxDuration)%Z →
  Go.Add now (Go.wrap_int64 (- maxAge)) = cutoffOf maxAge now.
Proof.
  unfold Go.Add, Go.wrap_int64, cutoffOf, Go.minDuration, Go.maxDuration.
  intros Hr. case_decide as Hmin.
  - subst maxAge. f_equal.
  - f_equal. replace (- maxAge + 2 ^ 63)%Z with (2 ^ 63 - maxAge)%Z by lia.
    rewrite Z.mod_small; lia.
Qed.

Lemma Purge_fresh_lookup (s : CounterState) (maxAge : Go.Duration) (now : Go.Time)
    (key : CounterKey.t) :
  (Go.minDuration ≤ maxAge ≤ Go.maxDuration)%Z →
  entries (Purge s maxAge now).2 !! key
  = match entries s !! key with
    | Some e => if decide (SeenAt e < cutoffOf maxAge now)%Z then None else Some e
    | None => None
    end.
Proof.
  intros Hr. rewrite Purge_lookup, (Purge_cutoff maxAge now Hr).
  destruct (entries s !! key) as [e|]; [|done]. unfold Go.Before.
  destruct (Z.ltb_spec (SeenAt e) (cutoffOf maxAge now)).
  - by rewrite decide_True.
  - by rewrite decide_False by lia.
Qed.

(** X8.  For a maxAge that is a Duration, Purge keeps exactly the
    entries seen at or after its cutoff, each as it was, and returns
    how many it removed.  The cutoff is now - maxAge, but for the
    least Duration -2^63, whose negation in int64 is itself: the
    cutoff is then now - 2^63. *)
Theorem Purge_keeps_fresh (s : CounterState) (maxAge : Go.Duration)
    (now : Go.Time) (key : CounterKey.t) (e : counterEntry) :
  (Go.minDuration ≤ maxAge ≤ Go.maxDuration)%Z →
  let r := Purge s maxAge now in
  let cutoff := if decide (maxAge = - 2 ^ 63)%Z then (now - 2 ^ 63)%Z
                else (now - maxAge)%Z in
  (entries r.2 !! key = Some e
   ↔ entries s !! key = Some e ∧ (cutoff ≤ SeenAt e)%Z)
  ∧ (0 ≤ r.1)%Z
  ∧ (r.1 + Z.of_nat (size (entries r.2)) = Z.of_nat (size (entries s)))%Z.
Proof.
  intros Hr. cbv zeta. split_and!.
  - rewrite (Purge_fresh_lookup s maxAge now key Hr).
    replace (if decide (maxAge = - 2 ^ 63)%Z then (now - 2 ^ 63)%Z
             else (now - maxAge)%Z) with (cutoffOf maxAge now)
      by (unfold cutoffOf, Go.minDuration; case_decide; lia).
    destruct (entries s !! key) as [e'|]; [|naive_solver].
    case_decide as Hlt.
    + split; [done|]. intros [[= ->] ?]. lia.
    + split; [intros [= ->]; split; [done|lia]|]. by intros [[= ->] _].
  - unfold Purge. simpl. lia.
  - unfold Purge. simpl.
    pose proof (map_filter_subseteq
                  (λ kv : CounterKey.t * counterEntry,
                     ¬ Go.Before (SeenAt kv.2)
                         (Go.Add now (Go.wrap_int64 (- maxAge))) = true)
                  (entries s)) as Hsub.
    apply map_subseteq_size in Hsub. lia.
Qed.

(** What one winning varbind does to the counter state and to its
    own value, when counter state is enabled. *)
Lemma assemble_counter (opts : BuildOptions) (hostname : string)
    (now : Go.Time) (instance : string) (tags : gmap string string)
    (c : CounterState) (vb : DecodedVarbind.t) :
  let r := assemble opts hostname now instance tags (Some c) vb in
  let key := keyOf hostname instance vb in
  ∃ c', r.2 = Some c'
    ∧ if IsCounterSyntax (DecodedVarbind.Syntax vb) then
        match toUint64Safe (DecodedVarbind.Value vb) with
        | Some raw =>
            let d := Delta c key raw now (WrapForSyntax (DecodedVarbind.Syntax vb)) in
            entries c' = <[key := {| Value := raw; SeenAt := now |}]> (entries c)
            ∧ Metric.Value r.1
              = (if Valid d.1 then VUint64 (Delta_ d.1) else VUint64 0)
        | None => c' = c ∧ Metric.Value r.1 = DecodedVarbind.Value vb
        end
      else c' = c.
Proof.
  cbv zeta. unfold assemble. cbv zeta.
  destruct (IsCounterSyntax (DecodedVarbind.Syntax vb)) eqn:Hsyn.
  - rewrite (counter_not_enum _ Hsyn).
    replace (match Enums opts with Some _ => _ | None => _ end)
      with (DecodedVarbind.Value vb) by (by destruct (Enums opts)).
    destruct (toUint64Safe (DecodedVarbind.Value vb)) as [raw|]; [|by exists c].
    fold (keyOf hostname instance vb).
    destruct (Delta c (keyOf hostname instance vb) raw now
                    (WrapForSyntax (DecodedVarbind.Syntax vb))) as [dr c'] eqn:Hd.
    exists c'. simpl. split; [done|]. split; [|done].
    change c' with (dr, c').2. rewrite <- Hd. apply Delta_entries.
  - by exists c.
Qed.

Lemma assemble_no_counters (opts : BuildOptions) (hostname : string)
    (now : Go.Time) (instance : string) (tags : gmap string string)
    (vb : DecodedVarbind.t) :
  (assemble opts hostname now instance tags None vb).2 = None.
Proof. unfold assemble. cbv zeta. by destruct (Enums opts). Qed.

(** The counter state after the loop of steps 4 and 5. *)
Lemma emit_items_state (opts : BuildOptions) (hostname : string) (now : Go.Time)
    (tagsByInstance : gmap string (gmap string string))
    (items : list ((string * gmap string DecodedVarbind.t)
                   * (string * DecodedVarbind.t)))
    (ms : list Metric.t) (c : CounterState) :
  NoDup (map (λ ab, keyOf hostname ab.1.1 ab.2.2) items) →
  ∃ c', (foldl (emitItem opts hostname now tagsByInstance) (ms, Some c) items).2
        = Some c'
    ∧ (∀ ab raw, ab ∈ items →
         IsCounterSyntax (DecodedVarbind.Syntax ab.2.2) = true →
         toUint64Safe (DecodedVarbind.Value ab.2.2) = Some raw →
         entries c' !! keyOf hostname ab.1.1 ab.2.2
         = Some {| Value := raw; SeenAt := now |})
    ∧ (∀ k, (∀ ab, ab ∈ items →
               IsCounterSyntax (DecodedVarbind.Syntax ab.2.2) = true →
               is_Some (toUint64Safe (DecodedVarbind.Value ab.2.2)) →
               keyOf hostname ab.1.1 ab.2.2 ≠ k) →
            entries c' !! k = entries c !! k).
Proof.
  induction items as [|ab items IH] using rev_ind; intros Hnd.
  - exists c. split_and!; [done| |done]. intros ab raw Hin. by apply elem_of_nil in Hin.
  - rewrite map_app in Hnd. apply NoDup_app in Hnd as (Hnd & Hfresh & _).
    destruct (IH Hnd) as (c1 & Hc1 & Hset & Hframe). clear IH.
    rewrite foldl_snoc.
    destruct (foldl (emitItem opts hostname now tagsByInstance) (ms, Some c) items)
      as [ms1 st1]. simpl in Hc1. subst st1.
    unfold emitItem at 1. unfold emit.
    destruct (assemble_counter opts hostname now ab.1.1
                (default ∅ (tagsByInstance !! ab.1.1)) c1 ab.2.2)
      as (c2 & Hc2 & Hcase).
    destruct (assemble opts hostname now ab.1.1
                (default ∅ (tagsByInstance !! ab.1.1)) (Some c1) ab.2.2)
      as [m st2]. simpl in Hc2. subst st2. simpl.
    exists c2. split; [done|].
    assert (Hother : ∀ ab0, ab0 ∈ items →
              keyOf hostname ab0.1.1 ab0.2.2 ≠ keyOf hostname ab.1.1 ab.2.2).
    { intros ab0 Hin Heq. apply (Hfresh (keyOf hostname ab.1.1 ab.2.2)).
      - rewrite <- Heq. apply list_elem_of_fmap. by exists ab0.
      - simpl. apply list_elem_of_here. }
    assert (Hc2' : ∀ k, k ≠ keyOf hostname ab.1.1 ab.2.2 →
              entries c2 !! k = entries c1 !! k).
    { intros k Hk. destruct (IsCounterSyntax _); [|by subst].
      destruct (toUint64Safe _); [|by destruct Hcase as [-> _]].
      destruct Hcase as [-> _]. by rewrite lookup_insert_ne. }
    split.
    + intros ab0 raw [Hin| ->%list_elem_of_singleton]%elem_of_app Hsyn Hraw.
      * rewrite Hc2' by by apply Hother. by apply Hset.
      * rewrite Hsyn, Hraw in Hcase. destruct Hcase as [-> _].
        by rewrite lookup_insert_eq.
    + intros k Hk. destruct (decide (k = keyOf hostname ab.1.1 ab.2.2)) as [->|Hne].
      * destruct (IsCounterSyntax (DecodedVarbind.Syntax ab.2.2)) eqn:Hsyn.
        -- destruct (toUint64Safe (DecodedVarbind.Value ab.2.2)) eqn:Hraw.
           ++ exfalso. apply (Hk ab); [set_solver|done|by eexists|done].
           ++ destruct Hcase as [-> _]. apply Hframe.
              intros ab0 Hin ? ?. by apply Hother.
        -- subst c2. apply Hframe. intros ab0 Hin ? ?. by apply Hother.
      * rewrite Hc2' by done. apply Hframe.
        intros ab0 Hin. apply Hk. set_solver.
Qed.

Lemma Build_state `{Extern} (o : MapOrder) (clock : Go.Time)
    (decoded : DecodedPollResult.t) (opts : BuildOptions) :
  (Build o clock decoded opts).2
  = (foldl (emitItem opts (hostOf decoded) (nowOf clock decoded) (partsOf decoded).1)
           ([], Counters opts) (itemsOf o (winnersOf decoded))).2.
Proof.
  unfold Build. cbv zeta. cbn [snd]. rewrite resolveAll_eq.
  by rewrite emit_loop_items.
Qed.

(** With counter state, Build returns counter state. *)
Lemma Build_counters_some `{Extern} (o : MapOrder) (clock : Go.Time)
    (decoded : DecodedPollResult.t) (opts : BuildOptions) (s : CounterState) :
  Counters opts = Some s → ∃ s', (Build o clock decoded opts).2 = Some s'.
Proof.
  intros Hc. rewrite Build_state, Hc.
  destruct (emit_items_state opts (hostOf decoded) (nowOf clock decoded)
              (partsOf decoded).1 (itemsOf o (winnersOf decoded)) [] s
              (NoDup_item_keys o decoded (hostOf decoded)))
    as (s' & Hs' & _).
  by exists s'.
Qed.

(** A counter metric, the measurement it comes from and the state. *)
Lemma Build_counter_metric `{Extern} (o : MapOrder) (clock : Go.Time)
    (decoded : DecodedPollResult.t) (opts : BuildOptions) (s : CounterState)
    (m : Metric.t) :
  Counters opts = Some s →
  m ∈ SNMPMetric.Metrics (Build o clock decoded opts).1 →
  IsCounterSyntax (Metric.Syntax m) = true →
  let key := metricKey (hostOf decoded) m in
  let now := nowOf clock decoded in
  ∃ w, w ∈ DecodedPollResult.Varbinds decoded
       ∧ DecodedVarbind.IsTag w = false
       ∧ DecodedVarbind.AttributeName w = Metric.Name m
       ∧ DecodedVarbind.Instance w = Metric.Instance m
       ∧ DecodedVarbind.Syntax w = Metric.Syntax m
       ∧ match toUint64Safe (DecodedVarbind.Value w) with
         | Some raw =>
             let d := (Delta s key raw now (WrapForSyntax (Metric.Syntax m))).1 in
             Metric.Value m = (if Valid d then VUint64 (Delta_ d) else VUint64 0)
             ∧ ∃ s', (Build o clock decoded opts).2 = Some s'
                     ∧ entries s' !! key = Some {| Value := raw; SeenAt := now |}
         | None => Metric.Value m = DecodedVarbind.Value w
         end.
Proof.
  intros Hc Hm Hsyn key now.
  pose proof Hm as Hm'. rewrite Build_metrics in Hm'.
  apply list_elem_of_fmap in Hm' as ([[i b] [n w]] & Hmeq & Hin).
  pose proof Hin as Hitem. apply elem_of_itemsOf in Hitem as [Hi Hn].
  destruct (winnersOf_spec decoded i b n w Hi Hn) as [Hname Hfirst].
  apply firstHighest_elem in Hfirst. unfold candidates, measurementsOf in Hfirst.
  apply list_elem_of_filter in Hfirst as [_ [[Htag Hinst] Hw]%list_elem_of_filter].
  unfold metricOf in Hmeq. simpl in Hmeq. rewrite Hc in Hmeq.
  pose proof (assemble_fields opts (hostOf decoded) now i
                (default ∅ ((partsOf decoded).1 !! i)) (Some s) w) as Hf.
  cbv zeta in Hf. fold now in Hmeq. rewrite <- Hmeq in Hf.
  destruct Hf as (_ & Hfn & Hfi & _ & Hfs).
  destruct (assemble_counter opts (hostOf decoded) now i
              (default ∅ ((partsOf decoded).1 !! i)) s w) as (c' & _ & Hcase).
  rewrite <- Hmeq in Hcase. rewrite <- Hfs, Hsyn in Hcase.
  assert (Hkey : keyOf (hostOf decoded) i w = key).
  { unfold keyOf, key, metricKey. by rewrite Hfn, Hfi. }
  rewrite Hkey in Hcase.
  exists w. split_and!; [done|done|done|by rewrite Hfi|done|].
  destruct (toUint64Safe (DecodedVarbind.Value w)) as [raw|] eqn:Hraw;
    [|by destruct Hcase].
  destruct Hcase as [_ Hval]. split; [done|].
  rewrite Build_state, Hc.
  destruct (emit_items_state opts (hostOf decoded) now (partsOf decoded).1
              (itemsOf o (winnersOf decoded)) [] s
              (NoDup_item_keys o decoded (hostOf decoded)))
    as (s' & Hs' & Hset & _).
  exists s'. split; [done|]. rewrite <- Hkey.
  apply (Hset ((i, b), (n, w)) raw Hin); simpl; [by rewrite <- Hfs|done].
Qed.

(** X9.  With counter state enabled, every metric of counter syntax
    comes from a measurement of the poll with its name, instance and
    syntax.  When that measurement's value is an unsigned integer, the
    metric carries the delta Delta computes against the state as it
    was before the poll (0 when Delta is not valid), and the state
    after the poll holds the raw value and the poll's timestamp under
    the metric's key; otherwise the value is passed on as it is. *)
Theorem Build_counter_delta `{Extern} (o : MapOrder) (clock : Go.Time)
    (decoded : DecodedPollResult.t) (opts : BuildOptions) (s : CounterState)
    (m : Metric.t) :
  Counters opts = Some s →
  m ∈ SNMPMetric.Metrics (Build o clock decoded opts).1 →
  IsCounterSyntax (Metric.Syntax m) = true →
  let key := metricKey (hostOf decoded) m in
  let now := nowOf clock decoded in
  ∃ w, w ∈ DecodedPollResult.Varbinds decoded
       ∧ DecodedVarbind.IsTag w = false
       ∧ DecodedVarbind.AttributeName w = Metric.Name m
       ∧ DecodedVarbind.Instance w = Metric.Instance m
       ∧ DecodedVarbind.Syntax w = Metric.Syntax m
       ∧ match toUint64Safe (DecodedVarbind.Value w) with
         | Some raw =>
             let d := (Delta s key raw now (WrapForSyntax (Metric.Syntax m))).1 in
             Metric.Value m = (if Valid d then VUint64 (Delta_ d) else VUint64 0)
             ∧ ∃ s', (Build o clock decoded opts).2 = Some s'
                     ∧ entries s' !! key = Some {| Value := raw; SeenAt := now |}
         | None => Metric.Value m = DecodedVarbind.Value w
         end.
Proof. apply Build_counter_metric. Qed.

(** X10.  Build leaves the counter entry of every key untouched that is
    not the key (hostname, name, instance) of a counter metric of its
    batch; the entries of other devices in particular.  Without counter
    state it returns none. *)
Theorem Build_counter_frame `{Extern} (o : MapOrder) (clock : Go.Time)
    (decoded : DecodedPollResult.t) (opts : BuildOptions) :
  match Counters opts with
  | None => (Build o clock decoded opts).2 = None
  | Some s =>
      ∃ s', (Build o clock decoded opts).2 = Some s'
        ∧ (∀ key,
             (∀ m, m ∈ SNMPMetric.Metrics (Build o clock decoded opts).1 →
                   IsCounterSyntax (Metric.Syntax m) = true →
                   metricKey (hostOf decoded) m ≠ key) →
             entries s' !! key = entries s !! key)
        ∧ (∀ key, CounterKey.Device key ≠ hostOf decoded →
             entries s' !! key = entries s !! key)
  end.
Proof.
  rewrite Build_state. destruct (Counters opts) as [s|] eqn:Hc.
  - destruct (emit_items_state opts (hostOf decoded) (nowOf clock decoded)
                (partsOf decoded).1 (itemsOf o (winnersOf decoded)) [] s
                (NoDup_item_keys o decoded (hostOf decoded)))
      as (s' & Hs' & _ & Hframe).
    exists s'. split; [done|].
    assert (Hkeys : ∀ key,
      (∀ m, m ∈ SNMPMetric.Metrics (Build o clock decoded opts).1 →
            IsCounterSyntax (Metric.Syntax m) = true →
            metricKey (hostOf decoded) m ≠ key) →
      entries s' !! key = entries s !! key).
    { intros key Hk. apply Hframe. intros ab Hin Hsyn _.
      pose proof (assemble_fields opts (hostOf decoded) (nowOf clock decoded) ab.1.1
                    (default ∅ ((partsOf decoded).1 !! ab.1.1)) (Counters opts)
                    ab.2.2) as Hf.
      cbv zeta in Hf. destruct Hf as (_ & Hfn & Hfi & _ & Hfs).
      specialize (Hk (metricOf opts (hostOf decoded) (nowOf clock decoded)
                               (partsOf decoded).1 ab)).
      unfold metricKey, metricOf in Hk. rewrite Hfn, Hfi, Hfs in Hk.
      apply Hk; [|done]. rewrite Build_metrics. apply list_elem_of_fmap. by exists ab. }
    split; [done|].
    intros key Hdev. apply Hkeys. intros m _ _ <-. by apply Hdev.
  - generalize (itemsOf o (winnersOf decoded)). intros items.
    assert (Hgen : ∀ ms, (foldl (emitItem opts (hostOf decoded) (nowOf clock decoded)
                                   (partsOf decoded).1) (ms, None) items).2 = None).
    { induction items as [|ab items IH]; intros ms; [done|]. cbn [foldl].
      assert (Hstep : ∃ ms', emitItem opts (hostOf decoded) (nowOf clock decoded)
                               (partsOf decoded).1 (ms, None) ab = (ms', None)).
      { unfold emitItem, emit.
        pose proof (assemble_no_counters opts (hostOf decoded) (nowOf clock decoded)
                      ab.1.1 (default ∅ ((partsOf decoded).1 !! ab.1.1)) ab.2.2) as Hn.
        destruct (assemble _ _ _ _ _ None _) as [m st]. simpl in Hn. subst st.
        by eexists. }
      destruct Hstep as [ms' ->]. apply IH. }
    apply Hgen.
Qed.

(** X28.  A counter that is forgotten starts anew.  After Remove, and
    after a Purge that finds the counter last seen before its cutoff,
    the next Delta for the key is not valid, as for a counter never
    seen.  Remove leaves the deltas of all other keys as they were,
    and Purge those of the counters seen at or after the cutoff.
    Removing a key that is not stored changes nothing.  The cutoff of
    Purge, for a maxAge that is a Duration, is purgedAt - maxAge, but
    for the least Duration -2^63, whose negation in int64 is itself:
    the cutoff is then purgedAt - 2^63. *)
Theorem forgotten_counter_restarts (s : CounterState) (key other : CounterKey.t)
    (current : Z) (now : Go.Time) (wrap : Z) (maxAge : Go.Duration)
    (purgedAt : Go.Time) :
  (Go.minDuration ≤ maxAge ≤ Go.maxDuration)%Z →
  let cutoff := if decide (maxAge = - 2 ^ 63)%Z then (purgedAt - 2 ^ 63)%Z
                else (purgedAt - maxAge)%Z in
  (Delta (Remove s key) key current now wrap).1 = invalidResult
  ∧ (other ≠ key →
     (Delta (Remove s key) other current now wrap).1
     = (Delta s other current now wrap).1)
  ∧ (entries s !! key = None → Remove s key = s)
  ∧ match entries s !! key with
    | Some e =>
        if decide (SeenAt e < cutoff)%Z
        then (Delta (Purge s maxAge purgedAt).2 key current now wrap).1
             = invalidResult
        else (Delta (Purge s maxAge purgedAt).2 key current now wrap).1
             = (Delta s key current now wrap).1
    | None =>
        (Delta (Purge s maxAge purgedAt).2 key current now wrap).1 = invalidResult
    end.
Proof.
  intros Hr. cbv zeta.
  replace (if decide (maxAge = - 2 ^ 63)%Z then (purgedAt - 2 ^ 63)%Z
           else (purgedAt - maxAge)%Z) with (cutoffOf maxAge purgedAt)
    by (unfold cutoffOf, Go.minDuration; case_decide; lia).
  split_and!.
  - apply Delta_fresh, Remove_lookup.
  - intros Hne. apply Delta_local. unfold Remove. simpl. by rewrite lookup_delete_ne.
  - intros Hnone. destruct s as [m]. unfold Remove. simpl in *. f_equal.
    by apply delete_id.
  - pose proof (Purge_fresh_lookup s maxAge purgedAt key Hr) as Hp.
    destruct (entries s !! key) as [e|] eqn:He.
    + case_decide as Hlt.
      * by apply Delta_fresh.
      * apply Delta_local. by rewrite Hp, He.
    + by apply Delta_fresh.
Qed.

Lemma Delta_difference_mod_witness :
  (Delta Samples.seededCounters Samples.octetsKey 400 (1000 + 60 * Go.Second)%Z
         (WrapForSyntax "Counter32")).1
  = {| Delta_ := (400 - (2 ^ 32 - 100)) mod (WrapForSyntax "Counter32" + 1);
       Elapsed := Z.min (1000 + 60 * Go.Second - 1000) Go.maxDuration;
       Valid := true |}.
Proof.
  apply (Delta_difference_mod Samples.seededCounters Samples.octetsKey
           {| Value := 2 ^ 32 - 100; SeenAt := 1000%Z |} 400
           (1000 + 60 * Go.Second)%Z "Counter32").
  - vm_compute. reflexivity.
  - vm_compute. reflexivity.
  - vm_compute. split; discriminate.
  - vm_compute. split; discriminate.
Defined.

Lemma Delta_without_progress_witness :
  let r := Delta Samples.seededCounters Samples.octetsKey 5 1000%Z (2 ^ 32 - 1) in
  r.1 = invalidResult
  ∧ entries r.2 !! Samples.octetsKey = Some {| Value := 5; SeenAt := 1000%Z |}
  ∧ (Delta r.2 Samples.octetsKey 9 2000%Z (2 ^ 32 - 1)).1
    = (Delta {| entries := {[ Samples.octetsKey
                              := {| Value := 5; SeenAt := 1000%Z |} ]} |}
             Samples.octetsKey 9 2000%Z (2 ^ 32 - 1)).1.
Proof.
  apply (Delta_without_progress Samples.seededCounters Samples.octetsKey
           {| Value := 2 ^ 32 - 100; SeenAt := 1000%Z |} 5 9 1000%Z 2000%Z
           (2 ^ 32 - 1)).
  - vm_compute. reflexivity.
  - simpl. lia.
Defined.

Lemma Build_counter_delta_witness :
  Forall (λ m,
    ∃ w, w ∈ DecodedPollResult.Varbinds
               (Samples.octetsAt (1000 + 60 * Go.Second)%Z 400)
         ∧ DecodedVarbind.IsTag w = false
         ∧ DecodedVarbind.AttributeName w = Metric.Name m
         ∧ DecodedVarbind.Instance w = Metric.Instance m
         ∧ DecodedVarbind.Syntax w = Metric.Syntax m
         ∧ match toUint64Safe (DecodedVarbind.Value w) with
           | Some raw =>
               let d := (Delta Samples.seededCounters (metricKey "sw01" m) raw
                               (1000 + 60 * Go.Second)%Z
                               (WrapForSyntax (Metric.Syntax m))).1 in
               Metric.Value m = (if Valid d then VUint64 (Delta_ d) else VUint64 0)
               ∧ ∃ s', (Build (H := Samples.noExtern) Go.canonical_order 0%Z
                          (Samples.octetsAt (1000 + 60 * Go.Second)%Z 400)
                          (Samples.withCounters (Some Samples.seededCounters))).2
                       = Some s'
                       ∧ entries s' !! metricKey "sw01" m
                         = Some {| Value := raw;
                                   SeenAt := (1000 + 60 * Go.Second)%Z |}
           | None => Metric.Value m = DecodedVarbind.Value w
           end)
    (SNMPMetric.Metrics
       (Build (H := Samples.noExtern) Go.canonical_order 0%Z
          (Samples.octetsAt (1000 + 60 * Go.Second)%Z 400)
          (Samples.withCounters (Some Samples.seededCounters))).1).
Proof.
  apply Forall_forall. intros m Hm.
  apply (Build_counter_delta (H := Samples.noExtern) Go.canonical_order 0%Z
           (Samples.octetsAt (1000 + 60 * Go.Second)%Z 400)
           (Samples.withCounters (Some Samples.seededCounters))
           Samples.seededCounters m).
  - reflexivity.
  - exact Hm.
  - assert (Hlist : Metric.Syntax <$>
                      SNMPMetric.Metrics
                        (Build (H := Samples.noExtern) Go.canonical_order 0%Z
                           (Samples.octetsAt (1000 + 60 * Go.Second)%Z 400)
                           (Samples.withCounters (Some Samples.seededCounters))).1
                    = ["Counter32"]) by (vm_compute; reflexivity).
    apply (list_elem_of_fmap_2 Metric.Syntax) in Hm. rewrite Hlist in Hm.
    apply list_elem_of_singleton in Hm. rewrite Hm. reflexivity.
Defined.

(** The counter seen at 1000 ns, purged two minutes later with a
    maximal age of one minute, and with the least Duration. *)
Lemma Purge_keeps_fresh_witness :
  (let r := Purge Samples.seededCounters (60 * Go.Second)%Z
                  (1000 + 120 * Go.Second)%Z in
   let cutoff := if decide (60 * Go.Second = - 2 ^ 63)%Z
                 then (1000 + 120 * Go.Second - 2 ^ 63)%Z
                 else (1000 + 120 * Go.Second - 60 * Go.Second)%Z in
   (entries r.2 !! Samples.octetsKey = Some {| Value := 2 ^ 32 - 100; SeenAt := 1000%Z |}
    ↔ entries Samples.seededCounters !! Samples.octetsKey
      = Some {| Value := 2 ^ 32 - 100; SeenAt := 1000%Z |}
      ∧ (cutoff ≤ SeenAt {| Value := 2 ^ 32 - 100; SeenAt := 1000%Z |})%Z)
   ∧ (0 ≤ r.1)%Z
   ∧ (r.1 + Z.of_nat (size (entries r.2))
      = Z.of_nat (size (entries Samples.seededCounters)))%Z)
  ∧ (Purge Samples.seededCounters (60 * Go.Second)%Z (1000 + 120 * Go.Second)%Z).1
    = 1%Z
  ∧ (Purge Samples.seededCounters Go.minDuration (1000 + 120 * Go.Second)%Z).1 = 0%Z.
Proof.
  split_and!.
  - apply (Purge_keeps_fresh Samples.seededCounters (60 * Go.Second)%Z
             (1000 + 120 * Go.Second)%Z Samples.octetsKey
             {| Value := 2 ^ 32 - 100; SeenAt := 1000%Z |}).
    vm_compute. split; discriminate.
  - vm_compute. reflexivity.
  - vm_compute. reflexivity.
Defined.

Lemma forgotten_counter_restarts_witness :
  let cutoff := if decide (60 * Go.Second = - 2 ^ 63)%Z
                then (1000 + 120 * Go.Second - 2 ^ 63)%Z
                else (1000 + 120 * Go.Second - 60 * Go.Second)%Z in
  (Delta (Remove Samples.seededCounters Samples.octetsKey) Samples.octetsKey 400
         (1000 + 180 * Go.Second)%Z (2 ^ 32 - 1)).1 = invalidResult
  ∧ (Samples.octetsOutKey ≠ Samples.octetsKey →
     (Delta (Remove Samples.seededCounters Samples.octetsKey) Samples.octetsOutKey 400
            (1000 + 180 * Go.Second)%Z (2 ^ 32 - 1)).1
     = (Delta Samples.seededCounters Samples.octetsOutKey 400
              (1000 + 180 * Go.Second)%Z (2 ^ 32 - 1)).1)
  ∧ (entries Samples.seededCounters !! Samples.octetsKey = None →
     Remove Samples.seededCounters Samples.octetsKey = Samples.seededCounters)
  ∧ match entries Samples.seededCounters !! Samples.octetsKey with
    | Some e =>
        if decide (SeenAt e < cutoff)%Z
        then (Delta (Purge Samples.seededCounters (60 * Go.Second)%Z
                           (1000 + 120 * Go.Second)%Z).2
                    Samples.octetsKey 400 (1000 + 180 * Go.Second)%Z (2 ^ 32 - 1)).1
             = invalidResult
        else (Delta (Purge Samples.seededCounters (60 * Go.Second)%Z
                           (1000 + 120 * Go.Second)%Z).2
                    Samples.octetsKey 400 (1000 + 180 * Go.Second)%Z (2 ^ 32 - 1)).1
             = (Delta Samples.seededCounters Samples.octetsKey 400
                      (1000 + 180 * Go.Second)%Z (2 ^ 32 - 1)).1
    | None =>
        (Delta (Purge Samples.seededCounters (60 * Go.Second)%Z
                      (1000 + 120 * Go.Second)%Z).2
               Samples.octetsKey 400 (1000 + 180 * Go.Second)%Z (2 ^ 32 - 1)).1
        = invalidResult
    end.
Proof.
  apply (forgotten_counter_restarts Samples.seededCounters Samples.octetsKey
           Samples.octetsOutKey 400 (1000 + 180 * Go.Second)%Z (2 ^ 32 - 1)
           (60 * Go.Second)%Z (1000 + 120 * Go.Second)%Z).
  vm_compute. split; discriminate.
Defined.

End CounterProperties.

Module BuildProperties.
Import Models.
Import Decoder.
Import Metrics.
Import ProducerSpec.
Import MetricsFacts.
Import BuildFacts.
Import ProducerFacts.

(** The tags step 1 collects for an instance: for every name, the
    value of the last tag varbind of the instance with that name. *)
Lemma partition_tags `{Extern} (vbs : list DecodedVarbind.t) (instance name : string) :
  default ∅ ((foldl partitionStep (∅, ∅) vbs).1 !! instance) !! name
  = (λ vb, tagValue (DecodedVarbind.Value vb))
      <$> last (filter (λ vb, DecodedVarbind.IsTag vb = true
                              ∧ DecodedVarbind.Instance vb = instance
                              ∧ DecodedVarbind.AttributeName vb = name) vbs).
Proof.
  induction vbs as [|vb vbs IH] using rev_ind; [done|].
  rewrite foldl_snoc, filter_app, last_app.
  destruct (foldl partitionStep (∅, ∅) vbs) as [tags mets]. simpl in IH.
  unfold partitionStep. rewrite filter_cons, filter_nil.
  destruct (DecodedVarbind.IsTag vb) eqn:Htag; simpl.
  - destruct (decide (DecodedVarbind.Instance vb = instance)) as [Hi|Hi].
    + rewrite Hi, lookup_insert_eq. simpl.
      destruct (decide (DecodedVarbind.AttributeName vb = name)) as [Hn|Hn].
      * rewrite decide_True by done. simpl. by rewrite Hn, lookup_insert_eq.
      * rewrite decide_False by naive_solver. simpl.
        by rewrite lookup_insert_ne.
    + rewrite decide_False by naive_solver. simpl.
      by rewrite lookup_insert_ne.
  - rewrite ?decide_False by naive_solver. done.
Qed.

Lemma assemble_tags (opts : BuildOptions) (hostname : string) (now : Go.Time)
    (instance : string) (tags : gmap string string) (c : option CounterState)
    (vb : DecodedVarbind.t) :
  Metric.Tags (assemble opts hostname now instance tags c vb).1 = tags.
Proof.
  unfold assemble. cbv zeta.
  destruct (match c with Some _ => _ | None => _ end) as [v c'].
  simpl. case_decide as Hsz; [done|].
  symmetry. apply map_size_empty_iff. lia.
Qed.

(** X11.  Every metric carries the tags of its own instance and no
    other: under each name, the value (as text) of the last tag
    varbind of the poll that has the metric's instance and that
    name, and nothing under a name no such varbind has. *)
Theorem Build_tags `{Extern} (o : MapOrder) (clock : Go.Time)
    (decoded : DecodedPollResult.t) (opts : BuildOptions) (m : Metric.t)
    (name : string) :
  m ∈ SNMPMetric.Metrics (Build o clock decoded opts).1 →
  Metric.Tags m !! name
  = (λ vb, tagValue (DecodedVarbind.Value vb))
      <$> last (filter (λ vb, DecodedVarbind.IsTag vb = true
                              ∧ DecodedVarbind.Instance vb = Metric.Instance m
                              ∧ DecodedVarbind.AttributeName vb = name)
                       (DecodedPollResult.Varbinds decoded)).
Proof.
  rewrite Build_metrics. intros ([[i b] [n w]] & -> & Hin)%list_elem_of_fmap.
  unfold metricOf. simpl. rewrite assemble_tags.
  pose proof (assemble_fields opts (hostOf decoded) (nowOf clock decoded) i
                (default ∅ ((partsOf decoded).1 !! i)) (Counters opts) w) as Hf.
  cbv zeta in Hf. destruct Hf as (_ & _ & -> & _).
  apply partition_tags.
Qed.

(** X12.  Build does not touch a value it has no reason to touch: a
    metric whose syntax is no counter syntax, or built without counter
    state, and whose syntax is no enum syntax, or built without a
    registry, carries the value of the measurement it comes from, a
    varbind of the poll that is not a tag and has its OID, name,
    instance, type and syntax. *)
Theorem Build_passes_values `{Extern} (o : MapOrder) (clock : Go.Time)
    (decoded : DecodedPollResult.t) (opts : BuildOptions) (m : Metric.t) :
  m ∈ SNMPMetric.Metrics (Build o clock decoded opts).1 →
  IsCounterSyntax (Metric.Syntax m) = false ∨ Counters opts = None →
  isEnumSyntax (Metric.Syntax m) = false ∨ Enums opts = None →
  ∃ w, w ∈ DecodedPollResult.Varbinds decoded
       ∧ DecodedVarbind.IsTag w = false
       ∧ DecodedVarbind.OID w = Metric.OID m
       ∧ DecodedVarbind.AttributeName w = Metric.Name m
       ∧ DecodedVarbind.Instance w = Metric.Instance m
       ∧ DecodedVarbind.SNMPType w = Metric.Type_ m
       ∧ DecodedVarbind.Syntax w = Metric.Syntax m
       ∧ DecodedVarbind.Value w = Metric.Value m.
Proof.
  rewrite Build_metrics. intros ([[i b] [n w]] & -> & Hin)%list_elem_of_fmap.
  apply elem_of_itemsOf in Hin as [Hi Hn].
  destruct (winnersOf_spec decoded i b n w Hi Hn) as [Hname Hfirst].
  apply firstHighest_elem in Hfirst. unfold candidates, measurementsOf in Hfirst.
  apply list_elem_of_filter in Hfirst as [_ [[Htag Hinst] Hw]%list_elem_of_filter].
  unfold metricOf. simpl.
  pose proof (assemble_fields opts (hostOf decoded) (nowOf clock decoded) i
                (default ∅ ((partsOf decoded).1 !! i)) (Counters opts) w) as Hf.
  cbv zeta in Hf. destruct Hf as (Hfo & Hfn & Hfi & Hft & Hfs).
  rewrite Hfs. intros Hcount Henum.
  exists w. split_and!; [done|done|done|done|by rewrite Hfi|done|done|].
  unfold assemble. cbv zeta.
  assert (Hv : match Enums opts with
               | Some enums =>
                   if isEnumSyntax (DecodedVarbind.Syntax w)
                   then Resolve enums
                          (if decide (DecodedVarbind.Instance w ≠ "")
                           then Go.TrimSuffix (DecodedVarbind.OID w)
                                  ("." +:+ DecodedVarbind.Instance w)
                           else DecodedVarbind.OID w) (DecodedVarbind.Value w)
                   else DecodedVarbind.Value w
               | None => DecodedVarbind.Value w
               end = DecodedVarbind.Value w).
  { destruct Henum as [-> | ->]; [by destruct (Enums opts)|done]. }
  rewrite Hv.
  destruct Hcount as [-> | ->]; [by destruct (Counters opts)|done].
Qed.

(** X13.  With a registry, a metric of enum syntax carries what
    Resolve answers for the value of its measurement, asked under the
    measurement's OID without the instance: under the attribute's OID
    itself when the OID is that OID, a dot and the instance, as for
    every row of a table. *)
Theorem Build_resolves_enums `{Extern} (o : MapOrder) (clock : Go.Time)
    (decoded : DecodedPollResult.t) (opts : BuildOptions) (enums : EnumRegistry)
    (m : Metric.t) :
  Enums opts = Some enums →
  m ∈ SNMPMetric.Metrics (Build o clock decoded opts).1 →
  isEnumSyntax (Metric.Syntax m) = true →
  ∃ w, w ∈ DecodedPollResult.Varbinds decoded
       ∧ DecodedVarbind.IsTag w = false
       ∧ DecodedVarbind.OID w = Metric.OID m
       ∧ DecodedVarbind.AttributeName w = Metric.Name m
       ∧ DecodedVarbind.Instance w = Metric.Instance m
       ∧ (∀ key, Metric.Instance m ≠ "" →
                 Metric.OID m = key +:+ "." +:+ Metric.Instance m →
                 Metric.Value m = Resolve enums key (DecodedVarbind.Value w))
       ∧ (Metric.Instance m = "" →
          Metric.Value m = Resolve enums (Metric.OID m) (DecodedVarbind.Value w)).
Proof.
  intros He. rewrite Build_metrics.
  intros ([[i b] [n w]] & -> & Hin)%list_elem_of_fmap.
  apply elem_of_itemsOf in Hin as [Hi Hn].
  destruct (winnersOf_spec decoded i b n w Hi Hn) as [Hname Hfirst].
  apply firstHighest_elem in Hfirst. unfold candidates, measurementsOf in Hfirst.
  apply list_elem_of_filter in Hfirst as [_ [[Htag Hinst] Hw]%list_elem_of_filter].
  unfold metricOf. simpl.
  pose proof (assemble_fields opts (hostOf decoded) (nowOf clock decoded) i
                (default ∅ ((partsOf decoded).1 !! i)) (Counters opts) w) as Hf.
  cbv zeta in Hf. destruct Hf as (Hfo & Hfn & Hfi & Hft & Hfs).
  rewrite Hfs, Hfo, Hfi. intros Hsyn.
  assert (Hnc : IsCounterSyntax (DecodedVarbind.Syntax w) = false).
  { destruct (IsCounterSyntax (DecodedVarbind.Syntax w)) eqn:Hcs; [|done].
    apply counter_not_enum in Hcs. congruence. }
  assert (Hval : Metric.Value (assemble opts (hostOf decoded) (nowOf clock decoded) i
                                 (default ∅ ((partsOf decoded).1 !! i))
                                 (Counters opts) w).1
                 = Resolve enums
                     (if decide (DecodedVarbind.Instance w ≠ "")
                      then Go.TrimSuffix (DecodedVarbind.OID w)
                             ("." +:+ DecodedVarbind.Instance w)
                      else DecodedVarbind.OID w) (DecodedVarbind.Value w)).
  { unfold assemble. cbv zeta. rewrite He, Hsyn, Hnc.
    by destruct (Counters opts). }
  exists w. split_and!; [done|done|done|done|done| |].
  - intros key Hne Hoid. rewrite Hval, Hinst, decide_True by done.
    by rewrite Hoid, StringFacts.TrimSuffix_app.
  - intros ->. rewrite Hval, Hinst. by rewrite decide_False by auto.
Qed.

Lemma operStatusMetric_built (opts : BuildOptions) :
  SNMPMetric.Metrics (Build (H := Samples.noExtern) Go.canonical_order 0%Z
                            Samples.twoInterfaces opts).1
  = [ {| Metric.OID := "1.3.6.1.2.1.2.2.1.8.1"; Metric.Name := "netif.state.oper";
         Metric.Instance := "1";
         Metric.Value := match Enums opts with
                         | Some r => Resolve r "1.3.6.1.2.1.2.2.1.8" (VInt64 1)
                         | None => VInt64 1
                         end;
         Metric.Type_ := "EnumInteger"; Metric.Syntax := "EnumInteger";
         Metric.Tags := {[ "netif.descr" := "eth0" ]} |};
      Samples.operStatusMetric
        match Enums opts with
        | Some r => Resolve r "1.3.6.1.2.1.2.2.1.8" (VInt64 2)
        | None => VInt64 2
        end ].
Proof.
  destruct opts as [cid status enums counters].
  destruct enums as [r|], counters as [c|]; by vm_compute.
Qed.

Lemma Build_tags_witness :
  Metric.Tags (Samples.operStatusMetric (VInt64 2)) !! "netif.descr"
  = (λ vb, tagValue (H := Samples.noExtern) (DecodedVarbind.Value vb))
      <$> last (filter (λ vb, DecodedVarbind.IsTag vb = true
                              ∧ DecodedVarbind.Instance vb
                                = Metric.Instance (Samples.operStatusMetric (VInt64 2))
                              ∧ DecodedVarbind.AttributeName vb = "netif.descr")
                       (DecodedPollResult.Varbinds Samples.twoInterfaces)).
Proof.
  apply (Build_tags (H := Samples.noExtern) Go.canonical_order 0%Z
           Samples.twoInterfaces (Samples.withCounters None)
           (Samples.operStatusMetric (VInt64 2)) "netif.descr").
  rewrite operStatusMetric_built. simpl.
  apply list_elem_of_further, list_elem_of_here.
Defined.

Lemma Build_passes_values_witness :
  ∃ w, w ∈ DecodedPollResult.Varbinds Samples.twoInterfaces
       ∧ DecodedVarbind.IsTag w = false
       ∧ DecodedVarbind.OID w = Metric.OID (Samples.operStatusMetric (VInt64 2))
       ∧ DecodedVarbind.AttributeName w
         = Metric.Name (Samples.operStatusMetric (VInt64 2))
       ∧ DecodedVarbind.Instance w
         = Metric.Instance (Samples.operStatusMetric (VInt64 2))
       ∧ DecodedVarbind.SNMPType w
         = Metric.Type_ (Samples.operStatusMetric (VInt64 2))
       ∧ DecodedVarbind.Syntax w
         = Metric.Syntax (Samples.operStatusMetric (VInt64 2))
       ∧ DecodedVarbind.Value w
         = Metric.Value (Samples.operStatusMetric (VInt64 2)).
Proof.
  apply (Build_passes_values (H := Samples.noExtern) Go.canonical_order 0%Z
           Samples.twoInterfaces (Samples.withCounters None)
           (Samples.operStatusMetric (VInt64 2))).
  - rewrite operStatusMetric_built. simpl.
    apply list_elem_of_further, list_elem_of_here.
  - left. reflexivity.
  - right. reflexivity.
Defined.

Lemma Build_resolves_enums_witness :
  ∃ w, w ∈ DecodedPollResult.Varbinds Samples.twoInterfaces
       ∧ DecodedVarbind.IsTag w = false
       ∧ DecodedVarbind.OID w = Metric.OID (Samples.operStatusMetric (VString "down"))
       ∧ DecodedVarbind.AttributeName w
         = Metric.Name (Samples.operStatusMetric (VString "down"))
       ∧ DecodedVarbind.Instance w
         = Metric.Instance (Samples.operStatusMetric (VString "down"))
       ∧ (∀ key, Metric.Instance (Samples.operStatusMetric (VString "down")) ≠ "" →
                 Metric.OID (Samples.operStatusMetric (VString "down"))
                 = key +:+ "." +:+ Metric.Instance
                                     (Samples.operStatusMetric (VString "down")) →
                 Metric.Value (Samples.operStatusMetric (VString "down"))
                 = Resolve Samples.operStatusEnums key (DecodedVarbind.Value w))
       ∧ (Metric.Instance (Samples.operStatusMetric (VString "down")) = "" →
          Metric.Value (Samples.operStatusMetric (VString "down"))
          = Resolve Samples.operStatusEnums
                    (Metric.OID (Samples.operStatusMetric (VString "down")))
                    (DecodedVarbind.Value w)).
Proof.
  apply (Build_resolves_enums (H := Samples.noExtern) Go.canonical_order 0%Z
           Samples.twoInterfaces (Samples.withEnums Samples.operStatusEnums)
           Samples.operStatusEnums (Samples.operStatusMetric (VString "down"))).
  - reflexivity.
  - rewrite operStatusMetric_built. simpl.
    apply list_elem_of_further.
    replace (Resolve Samples.operStatusEnums "1.3.6.1.2.1.2.2.1.8" (VInt64 2))
      with (VString "down") by (by vm_compute).
    apply list_elem_of_here.
  - reflexivity.
Defined.

End BuildProperties.

Module EnumProperties.
Import Models.
Import Metrics.
Import ProducerSpec.

(** X14.  An integer enumeration registered for an attribute whose OID
    has no label of its own: Resolve turns a raw value of any integer
    type into the label registered for it, and hands back a value
    without label as it came; it hands back as it came every value
    that is neither an integer nor a string. *)
Theorem Resolve_int_enum (r : EnumRegistry) (oid : string)
    (values : gmap Z string) (rawValue : Go.Value) :
  oids r !! normaliseRegistryOID oid = None →
  let r' := RegisterIntEnum r oid false values in
  (∀ v, toInt64ForEnum rawValue = Some v →
        Resolve r' oid rawValue
        = match values !! v with
          | Some label => VString label
          | None => rawValue
          end)
  ∧ (toInt64ForEnum rawValue = None → (∀ s, rawValue ≠ VString s) →
     Resolve r' oid rawValue = rawValue).
Proof.
  intros Hoid r'. unfold Resolve. subst r'. unfold RegisterIntEnum. simpl.
  rewrite Hoid, lookup_insert_eq. simpl. split.
  - intros v Hv. rewrite Hv.
    assert (Hns : match rawValue with
                  | VString strVal => oids r !! normaliseRegistryOID strVal
                  | _ => None
                  end = None) by (by destruct rawValue).
    by rewrite Hns.
  - intros Hv Hs. rewrite Hv.
    assert (Hns : match rawValue with
                  | VString strVal => oids r !! normaliseRegistryOID strVal
                  | _ => None
                  end = None) by (destruct rawValue; try done; by destruct (Hs s)).
    by rewrite Hns.
Qed.

Lemma Resolve_int_enum_witness :
  let r' := RegisterIntEnum NewEnumRegistry ".1.3.6.1.2.1.2.2.1.8" false
              {[ 1%Z := "up"; 2%Z := "down" ]} in
  (∀ v, toInt64ForEnum (VInt 2) = Some v →
        Resolve r' ".1.3.6.1.2.1.2.2.1.8" (VInt 2)
        = match ({[ 1%Z := "up"; 2%Z := "down" ]} : gmap Z string) !! v with
          | Some label => VString label
          | None => VInt 2
          end)
  ∧ (toInt64ForEnum (VInt 2) = None → (∀ s, VInt 2 ≠ VString s) →
     Resolve r' ".1.3.6.1.2.1.2.2.1.8" (VInt 2) = VInt 2).
Proof.
  apply (Resolve_int_enum NewEnumRegistry ".1.3.6.1.2.1.2.2.1.8"
           {[ 1%Z := "up"; 2%Z := "down" ]} (VInt 2)).
  reflexivity.
Defined.

(** X15.  A label registered under an OID is also what Resolve answers
    for a raw value that is that OID as a string (with or without the
    leading dot it was registered with), whatever attribute is asked
    for, unless the attribute's own OID has a label, which comes
    first. *)
Theorem Resolve_oid_value (r : EnumRegistry) (oid valueOID label : string)
    (rawOID : string) :
  normaliseRegistryOID rawOID = normaliseRegistryOID valueOID →
  let r' := RegisterOIDEnum r valueOID label in
  Resolve r' oid (VString rawOID)
  = match oids r !! normaliseRegistryOID oid with
    | Some own =>
        if decide (normaliseRegistryOID oid = normaliseRegistryOID valueOID)
        then VString label else VString own
    | None => VString label
    end.
Proof.
  intros Hraw r'. unfold Resolve. subst r'. unfold RegisterOIDEnum. simpl.
  rewrite Hraw.
  destruct (decide (normaliseRegistryOID oid = normaliseRegistryOID valueOID))
    as [->|Hne].
  - rewrite lookup_insert_eq. by destruct (oids r !! _).
  - rewrite (lookup_insert_ne (oids r)) by done.
    destruct (oids r !! normaliseRegistryOID oid); [done|].
    by rewrite lookup_insert_eq.
Qed.

Lemma Resolve_oid_value_witness :
  Resolve (RegisterOIDEnum NewEnumRegistry ".1.3.6.1.4.1.9.1.1" "cisco-router")
          "1.3.6.1.2.1.1.2" (VString "1.3.6.1.4.1.9.1.1")
  = match oids NewEnumRegistry !! normaliseRegistryOID "1.3.6.1.2.1.1.2" with
    | Some own =>
        if decide (normaliseRegistryOID "1.3.6.1.2.1.1.2"
                   = normaliseRegistryOID ".1.3.6.1.4.1.9.1.1")
        then VString "cisco-router" else VString own
    | None => VString "cisco-router"
    end.
Proof.
  apply (Resolve_oid_value NewEnumRegistry "1.3.6.1.2.1.1.2" ".1.3.6.1.4.1.9.1.1"
           "cisco-router" "1.3.6.1.4.1.9.1.1").
  vm_compute. reflexivity.
Defined.

Lemma land_pow2 (a n : Z) :
  (0 ≤ n)%Z → Z.land a (2 ^ n) = if Z.testbit a n then (2 ^ n)%Z else 0%Z.
Proof.
  intros Hn. apply Z.bits_inj'. intros m Hm.
  rewrite Z.land_spec, Z.pow2_bits_eqb by done.
  destruct (Z.eqb_spec n m) as [->|Hne].
  - destruct (Z.testbit a m); simpl; [|by rewrite Z.bits_0].
    by rewrite Z.pow2_bits_eqb, Z.eqb_refl.
  - rewrite andb_false_r.
    destruct (Z.testbit a n); [|by rewrite Z.bits_0].
    rewrite Z.pow2_bits_eqb by done. symmetry. by apply Z.eqb_neq.
Qed.

Lemma sign_bits (mask m : Z) :
  (- 2 ^ 63 ≤ mask < 2 ^ 63)%Z → (63 ≤ m)%Z →
  Z.testbit mask m = (mask <? 0)%Z.
Proof.
  intros Hr Hm. destruct (Z.ltb_spec mask 0) as [Hneg|Hpos].
  - apply Z.bits_above_log2_neg; [done|].
    destruct (decide (Z.pred (- mask) = 0)%Z) as [->|Hnz]; [simpl; lia|].
    apply Z.log2_lt_pow2; [lia|].
    assert (2 ^ 63 ≤ 2 ^ m)%Z by (apply Z.pow_le_mono_r; lia). lia.
  - destruct (decide (mask = 0%Z)) as [->|Hnz]; [apply Z.bits_0|].
    apply Z.bits_above_log2; [done|].
    apply Z.log2_lt_pow2; [lia|].
    assert (2 ^ 63 ≤ 2 ^ m)%Z by (apply Z.pow_le_mono_r; lia). lia.
Qed.

Lemma high_mask_bits (m : Z) :
  (0 ≤ m)%Z → Z.testbit (- 2 ^ 63) m = (63 <=? m)%Z.
Proof.
  intros Hm. rewrite Z.bits_opp by done.
  replace (Z.pred (2 ^ 63)) with (Z.ones 63) by (by rewrite Z.ones_equiv).
  destruct (Z.leb_spec 63 m).
  - by rewrite Z.ones_spec_high by lia.
  - by rewrite Z.ones_spec_low by lia.
Qed.

(** The test of resolveBitmap on a bit of an int64. *)
Lemma bit_test (mask bit : Z) :
  (- 2 ^ 63 ≤ mask < 2 ^ 63)%Z → (0 ≤ bit < 64)%Z →
  Z.land mask (Go.wrap_int64 (Z.shiftl 1 bit)) ≠ 0%Z ↔ Z.testbit mask bit = true.
Proof.
  intros Hr Hb. rewrite Z.shiftl_1_l.
  destruct (decide (bit = 63%Z)) as [->|Hlow].
  - replace (Go.wrap_int64 (2 ^ 63)) with (- 2 ^ 63)%Z by (by vm_compute).
    split.
    + intros Hnz. destruct (Z.testbit mask 63) eqn:Hbit; [done|].
      exfalso. apply Hnz. apply Z.bits_inj'. intros m Hm.
      rewrite Z.land_spec, Z.bits_0, high_mask_bits by done.
      destruct (Z.leb_spec 63 m); [|by rewrite andb_false_r].
      rewrite (sign_bits mask m), <- (sign_bits mask 63) by (done || lia).
      by rewrite Hbit.
    + intros Hbit Hz. apply (f_equal (λ x, Z.testbit x 63%Z)) in Hz.
      rewrite Z.land_spec, Z.bits_0, high_mask_bits, Hbit in Hz by lia. done.
  - assert (Hpow : (0 < 2 ^ bit < 2 ^ 63)%Z).
    { split; [apply Z.pow_pos_nonneg; lia|apply Z.pow_lt_mono_r; lia]. }
    replace (Go.wrap_int64 (2 ^ bit)) with (2 ^ bit)%Z.
    + rewrite land_pow2 by lia. destruct (Z.testbit mask bit); [|done].
      split; [done|lia].
    + unfold Go.wrap_int64. rewrite Z.mod_small; lia.
Qed.

Lemma foldl_labels {A : Type} (test : A → Prop) `{!∀ a, Decision (test a)}
    (label : A → option string) (pick : A → bool) (l : list A)
    (acc : list string) :
  (∀ a, a ∈ l → test a ↔ pick a = true) →
  foldl (λ active a,
           if decide (test a)
           then match label a with
                | Some s => active ++ [s]
                | None => active
                end
           else active) acc l
  = acc ++ omap (λ a, if pick a then label a else None) l.
Proof.
  revert acc. induction l as [|a l IH]; intros acc Hl; simpl.
  - by rewrite app_nil_r.
  - rewrite IH by (intros b Hb; apply Hl; by right).
    pose proof (Hl a (list_elem_of_here _ _)) as Ha.
    destruct (pick a) eqn:Hp.
    + rewrite decide_True by by apply Ha.
      destruct (label a); [by rewrite <- app_assoc|done].
    + rewrite decide_False; [done|]. intros Ht%Ha. done.
Qed.

(** X16.  For a mask that is an int64, resolveBitmap answers the
    labels of the bits that are set, lowest bit first and joined by
    commas, bit 63 (the sign) included; with no labelled bit set it
    hands back the mask. *)
Theorem resolveBitmap_labels (values : gmap Z string) (mask : Z) :
  (- 2 ^ 63 ≤ mask < 2 ^ 63)%Z →
  resolveBitmap values mask
  = if decide (bitLabels values mask = []) then VInt64 mask
    else VString (Go.Join (bitLabels values mask) ",").
Proof.
  intros Hr. unfold resolveBitmap. cbv zeta.
  match goal with |- context [foldl ?f ?a ?l] => set (active := foldl f a l) end.
  assert (Hfold : active = bitLabels values mask).
  { subst active. unfold bitLabels.
    etrans; [|apply app_nil_l].
    apply (foldl_labels
             (λ bit, Z.land mask (Go.wrap_int64 (Z.shiftl 1 bit)) ≠ 0%Z)
             (λ bit, values !! bit) (Z.testbit mask)).
    intros bit (n & -> & Hn%elem_of_seq)%list_elem_of_fmap.
    apply bit_test; [done|lia]. }
  clearbody active. subst active.
  destruct (bitLabels values mask) as [|l ls].
  - by rewrite !decide_True.
  - rewrite decide_False by (simpl; lia). by rewrite decide_False.
Qed.

Lemma resolveBitmap_labels_witness :
  resolveBitmap {[ 0%Z := "rx"; 2%Z := "tx"; 63%Z := "fault" ]} (- 2 ^ 63 + 5)
  = if decide (bitLabels {[ 0%Z := "rx"; 2%Z := "tx"; 63%Z := "fault" ]}
                         (- 2 ^ 63 + 5) = [])
    then VInt64 (- 2 ^ 63 + 5)
    else VString (Go.Join (bitLabels {[ 0%Z := "rx"; 2%Z := "tx"; 63%Z := "fault" ]}
                                     (- 2 ^ 63 + 5)) ",").
Proof.
  apply (resolveBitmap_labels {[ 0%Z := "rx"; 2%Z := "tx"; 63%Z := "fault" ]}
           (- 2 ^ 63 + 5)).
  lia.
Defined.

End EnumProperties.

Module DecoderProperties.
Import Models.
Import Decoder.
Import DecoderSpec.

(** *** Dots in a string *)

Lemma dot_split_cons (c : ascii) (s a b : string) :
  String c s = a +:+ "." +:+ b →
  (a = "" ∧ c = "."%char ∧ s = b) ∨ ∃ a', a = String c a' ∧ s = a' +:+ "." +:+ b.
Proof.
  destruct a as [|c' a']; intros Heq.
  - left. rewrite GoFacts.app_empty_l, GoFacts.app_cons, GoFacts.app_empty_l in Heq.
    by injection Heq as -> ->.
  - right. rewrite GoFacts.app_cons in Heq. injection Heq as -> ->. by exists a'.
Qed.

(** The last dot: nothing after it has a dot. *)
Lemma LastIndex_from_last (s : string) (pos : Z) :
  (0 ≤ pos)%Z →
  (Go.LastIndex_from pos s "." = (-1)%Z ∧ ∀ a b, s ≠ a +:+ "." +:+ b)
  ∨ ∃ a b, s = a +:+ "." +:+ b
           ∧ Go.LastIndex_from pos s "." = (pos + Z.of_nat (String.length a))%Z
           ∧ ∀ a' b', b ≠ a' +:+ "." +:+ b'.
Proof.
  revert pos. induction s as [|c s IH]; intros pos Hpos.
  { left. split; [done|]. intros [|??] ?; by rewrite ?GoFacts.app_cons. }
  rewrite GoFacts.LastIndex_from_cons. cbv zeta.
  destruct (IH (pos + 1)%Z ltac:(lia)) as [[-> Hfree]|(a & b & Hs & -> & Hfree)].
  - change (0 <=? -1)%Z with false. cbv iota.
    rewrite GoFacts.prefix_dot_cons. case_bool_decide as Hc.
    + subst c. right. exists "", s. split; [done|]. split; [simpl; lia|done].
    + left. split; [done|]. intros a b [(_ & -> & _)|(a' & _ & Hs)]%dot_split_cons;
        [done|by apply (Hfree a' b)].
  - right. exists (String c a), b. split; [by rewrite Hs|].
    change (String.length (String c a)) with (S (String.length a)).
    split; [|done]. case_match eqn:Hle; [lia|].
    apply Z.leb_gt in Hle. lia.
Qed.

Lemma LastIndex_last (s : string) :
  ((Go.LastIndex s "." < 0)%Z ∧ ∀ a b, s ≠ a +:+ "." +:+ b)
  ∨ ∃ a b, s = a +:+ "." +:+ b
           ∧ Go.LastIndex s "." = Z.of_nat (String.length a)
           ∧ ∀ a' b', b ≠ a' +:+ "." +:+ b'.
Proof.
  unfold Go.LastIndex.
  destruct (LastIndex_from_last s 0 ltac:(lia)) as [[-> ?]|(a & b & Hs & -> & ?)].
  - left. split; [lia|done].
  - right. exists a, b. split; [done|]. split; [lia|done].
Qed.

Lemma app_eq_split (a a' x y : string) :
  a +:+ x = a' +:+ y → String.length a' ≤ String.length a →
  ∃ m, a = a' +:+ m ∧ y = m +:+ x.
Proof.
  revert a. induction a' as [|c a' IH]; intros a Heq Hlen.
  - exists a. by rewrite !GoFacts.app_empty_l in *.
  - destruct a as [|c0 a]; [simpl in Hlen; lia|].
    rewrite !GoFacts.app_cons in Heq. injection Heq as -> Heq.
    destruct (IH a Heq) as (m & -> & ->); [simpl in Hlen; lia|].
    exists m. by rewrite GoFacts.app_cons.
Qed.

(** Of two ways to cut a string at a dot, the one at the last dot has
    the longer head. *)
Lemma last_dot_longest (a b a' b' : string) :
  a +:+ "." +:+ b = a' +:+ "." +:+ b' →
  (∀ x y, b ≠ x +:+ "." +:+ y) →
  String.length a' ≤ String.length a.
Proof.
  intros Heq Hfree.
  destruct (decide (String.length a' ≤ String.length a)) as [|Hgt]; [done|].
  symmetry in Heq.
  destruct (app_eq_split a' a ("." +:+ b') ("." +:+ b) Heq) as (m & -> & Hm); [lia|].
  destruct m as [|c m].
  - rewrite GoFacts.app_empty_r in Hgt. lia.
  - rewrite GoFacts.app_cons, GoFacts.app_empty_l in Hm. injection Hm as <- Hb.
    by destruct (Hfree m b').
Qed.

(** The shorter head is a head of the longer, up to a dot. *)
Lemma shorter_dot_prefix (a b a' b' : string) :
  a +:+ "." +:+ b = a' +:+ "." +:+ b' →
  String.length a' < String.length a →
  ∃ r, a = a' +:+ "." +:+ r.
Proof.
  intros Heq Hlt.
  destruct (app_eq_split a a' ("." +:+ b) ("." +:+ b') Heq) as (m & -> & Hm); [lia|].
  destruct m as [|c m].
  - rewrite GoFacts.app_empty_r in Hlt. lia.
  - rewrite GoFacts.app_cons, GoFacts.app_empty_l in Hm. injection Hm as <- _.
    by exists m.
Qed.

Lemma app_inj_length (a a' x y : string) :
  a +:+ x = a' +:+ y → String.length a = String.length a' → a = a'.
Proof.
  intros Heq Hlen.
  destruct (app_eq_split a a' x y Heq) as (m & -> & _); [lia|].
  rewrite GoFacts.length_app in Hlen.
  destruct m; [by rewrite GoFacts.app_empty_r|simpl in Hlen; lia].
Qed.

(** *** The prefix scan *)

(** The scan looks at the heads of the OID from the longest to the
    shortest: what it finds is the longest head that is a key, and it
    finds nothing only when no head is a key. *)
Lemma prefixScan_longest (fuel : nat) (p : VarbindParser)
    (fullOID remaining tail : string) :
  fullOID = remaining +:+ tail → String.length remaining < fuel →
  (∀ key inst, is_Some (attrByOID p !! key) → fullOID = key +:+ "." +:+ inst →
     ∃ r, remaining = key +:+ "." +:+ r) →
  (∃ key inst a,
     prefixScan fuel p fullOID remaining = Some (a, inst, true)
     ∧ attrByOID p !! key = Some a
     ∧ fullOID = key +:+ "." +:+ inst
     ∧ ∀ key' inst', is_Some (attrByOID p !! key') →
         fullOID = key' +:+ "." +:+ inst' →
         String.length key' ≤ String.length key)
  ∨ (prefixScan fuel p fullOID remaining = Some (zeroAttribute, "", false)
     ∧ ∀ key inst, is_Some (attrByOID p !! key) → fullOID ≠ key +:+ "." +:+ inst).
Proof.
  revert remaining tail.
  induction fuel as [|fuel IH]; intros remaining tail Hfull Hlen Hinv; [lia|].
  simpl. destruct (LastIndex_last remaining) as [[Hneg Hfree]|(a & b & Hrem & Hdot & Hfree)].
  - rewrite decide_True by done. right. split; [done|].
    intros key inst Hkey Hoid. destruct (Hinv key inst Hkey Hoid) as [r Hr].
    by apply (Hfree key r).
  - rewrite decide_False by lia. rewrite Hdot, Nat2Z.id.
    assert (Hp : Go.slice_to remaining (String.length a) = a)
      by (rewrite Hrem; apply GoFacts.slice_to_app).
    rewrite Hp.
    assert (Hoid : fullOID = a +:+ "." +:+ (b +:+ tail)).
    { rewrite Hfull, Hrem. by rewrite !GoFacts.app_assoc. }
    destruct (attrByOID p !! a) as [attr|] eqn:Hlook.
    + left. exists a, (b +:+ tail), attr. split_and!; [|done|done|].
      * do 3 f_equal. rewrite Hoid.
        replace (a +:+ "." +:+ (b +:+ tail)) with ((a +:+ ".") +:+ (b +:+ tail))
          by apply GoFacts.app_assoc.
        replace (String.length a + 1) with (String.length (a +:+ "."))
          by (rewrite GoFacts.length_app; done).
        apply GoFacts.slice_from_app.
      * intros key' inst' Hkey' Hoid'.
        destruct (Hinv key' inst' Hkey' Hoid') as [r Hr].
        apply (last_dot_longest a b key' r); [by rewrite <- Hrem|done].
    + apply (IH a ("." +:+ b +:+ tail)).
      * rewrite Hfull, Hrem. by rewrite !GoFacts.app_assoc.
      * rewrite Hrem, !GoFacts.length_app in Hlen.
        change (String.length ".") with 1 in Hlen. lia.
      * intros key' inst' Hkey' Hoid'.
        destruct (Hinv key' inst' Hkey' Hoid') as [r Hr].
        assert (Hle : String.length key' ≤ String.length a)
          by (apply (last_dot_longest a b key' r); [by rewrite <- Hrem|done]).
        destruct (decide (String.length key' = String.length a)) as [Heq|Hne].
        { assert (key' = a) as ->.
          { apply (app_inj_length key' a ("." +:+ r) ("." +:+ b)); [|done].
            by rewrite <- Hr, <- Hrem. }
          rewrite Hlook in Hkey'. by destruct Hkey'. }
        apply (shorter_dot_prefix a b key' r); [by rewrite <- Hrem|lia].
Qed.

(** X17.  The matcher prefers the OID itself: when the OID is a key
    the instance is 0.  Otherwise it matches the longest key that the
    OID continues with a dot, the instance being all that follows the
    dot, and it finds nothing exactly when no key is continued by the
    OID in this way. *)
Theorem matchAttribute_longest (p : VarbindParser) (fullOID : string) :
  match attrByOID p !! fullOID with
  | Some a => matchAttribute p fullOID = Some (a, "0", true)
  | None =>
      (∃ key inst a,
         matchAttribute p fullOID = Some (a, inst, true)
         ∧ attrByOID p !! key = Some a
         ∧ fullOID = key +:+ "." +:+ inst
         ∧ ∀ key' inst', is_Some (attrByOID p !! key') →
             fullOID = key' +:+ "." +:+ inst' →
             String.length key' ≤ String.length key)
      ∨ (matchAttribute p fullOID = Some (zeroAttribute, "", false)
         ∧ ∀ key inst, is_Some (attrByOID p !! key) →
             fullOID ≠ key +:+ "." +:+ inst)
  end.
Proof.
  unfold matchAttribute. destruct (attrByOID p !! fullOID) as [a|] eqn:Hlook; [done|].
  apply (prefixScan_longest (S (String.length fullOID)) p fullOID fullOID "");
    [by rewrite GoFacts.app_empty_r|lia|].
  intros key inst _ ->. by exists inst.
Qed.

(** *** Building the parser *)

Lemma NewVarbindParser_fold (def : ObjectDefinition.t)
    (l : list (string * AttributeDefinition.t))
    (acc : gmap string AttributeDefinition.t + error) :
  match
    foldl (λ (acc : gmap string AttributeDefinition.t + error) kv,
             match acc with
             | inr e => inr e
             | inl m =>
                 let attr := kv.2 in
                 let norm := normaliseOID (AttributeDefinition.OID attr) in
                 if decide (norm = "")
                 then inr (ErrEmptyOID (AttributeDefinition.Name attr)
                                       (ObjectDefinition.Key def))
                 else inl (<[norm := attr]> m)
             end) acc l
  with
  | inl m =>
      (∃ m0, acc = inl m0 ∧ ∀ k, is_Some (m0 !! k) → is_Some (m !! k))
      ∧ Forall (λ kv, normaliseOID (AttributeDefinition.OID kv.2) ≠ ""
                      ∧ is_Some (m !! normaliseOID (AttributeDefinition.OID kv.2))) l
  | inr e =>
      acc = inr e
      ∨ ∃ kv, kv ∈ l
              ∧ normaliseOID (AttributeDefinition.OID kv.2) = ""
              ∧ e = ErrEmptyOID (AttributeDefinition.Name kv.2)
                                (ObjectDefinition.Key def)
  end.
Proof.
  revert acc. induction l as [|kv l IH]; intros acc.
  { simpl. destruct acc as [m|e]; [|by left]. split; [by exists m|done]. }
  cbn [foldl]. destruct acc as [m0|e0].
  - cbv zeta. case_decide as Hnorm.
    + match goal with
      | |- context [foldl ?f ?a l] => specialize (IH a); destruct (foldl f a l) as [m|e]
      end.
      * by destruct IH as [(m1 & Hm1 & _) _].
      * right. destruct IH as [[= <-]|(kv' & Hin & Hnorm' & ->)].
        { exists kv. split; [by left|done]. }
        exists kv'. split; [by right|done].
    + match goal with
      | |- context [foldl ?f ?a l] => specialize (IH a); destruct (foldl f a l) as [m|e]
      end.
      * destruct IH as [(m1 & [= <-] & Hmono) Hall]. split.
        { exists m0. split; [done|]. intros k Hk. apply Hmono.
          destruct (decide (k = normaliseOID (AttributeDefinition.OID kv.2))) as [->|Hne].
          - by rewrite lookup_insert_eq.
          - by rewrite lookup_insert_ne. }
        constructor; [|done]. split; [done|]. apply Hmono. by rewrite lookup_insert_eq.
      * destruct IH as [?|(kv' & Hin & Hnorm' & ->)]; [done|].
        right. exists kv'. split; [by right|done].
  - match goal with
    | |- context [foldl ?f ?a l] => specialize (IH a); destruct (foldl f a l) as [m|e]
    end.
    + by destruct IH as [(m1 & Hm1 & _) _].
    + destruct IH as [[= <-]|(kv' & Hin & Hnorm' & ->)]; [by left|].
      right. exists kv'. split; [by right|done].
Qed.

(** X18.  NewVarbindParser fails exactly for a definition without
    attributes, or with an attribute whose OID is empty once
    normalised, and the error names the definition (and such an
    attribute), whatever the order the map of attributes is ranged in.
    When it succeeds, the OID of every attribute, normalised, is a key
    of the table, and every entry of the table is an attribute of the
    definition under its normalised OID. *)
Theorem NewVarbindParser_outcome (o : MapOrder) (def : ObjectDefinition.t) :
  match NewVarbindParser o def with
  | inl p =>
      ObjectDefinition.Attributes def ≠ ∅
      ∧ (∀ name attr, ObjectDefinition.Attributes def !! name = Some attr →
           normaliseOID (AttributeDefinition.OID attr) ≠ ""
           ∧ is_Some (attrByOID p !! normaliseOID (AttributeDefinition.OID attr)))
      ∧ (∀ key attr, attrByOID p !! key = Some attr →
           key = normaliseOID (AttributeDefinition.OID attr)
           ∧ ∃ name, ObjectDefinition.Attributes def !! name = Some attr)
  | inr (ErrNoAttributes key) =>
      ObjectDefinition.Attributes def = ∅ ∧ key = ObjectDefinition.Key def
  | inr (ErrEmptyOID attrName key) =>
      key = ObjectDefinition.Key def
      ∧ ∃ name attr, ObjectDefinition.Attributes def !! name = Some attr
                     ∧ normaliseOID (AttributeDefinition.OID attr) = ""
                     ∧ attrName = AttributeDefinition.Name attr
  | inr (ErrConversion _ _ _ _) => False
  end.
Proof.
  destruct (NewVarbindParser o def) as [p|e] eqn:Hnew.
  - pose proof (DecoderFacts.NewVarbindParser_keys o def p Hnew) as Hkeys.
    revert Hnew. unfold NewVarbindParser. case_decide as Hsize; [done|].
    pose proof (NewVarbindParser_fold def
                  (Go.range o "attributes" (ObjectDefinition.Attributes def))
                  (inl ∅)) as Hfold.
    destruct (foldl _ _ _) as [m|e]; [|done]. intros [= <-].
    destruct Hfold as [_ Hall]. split_and!; [|  |done].
    + intros Hempty. apply Hsize. by rewrite Hempty.
    + intros name attr Hattr. rewrite Forall_forall in Hall.
      apply (Hall (name, attr)). by apply RangeFacts.elem_of_range.
  - revert Hnew. unfold NewVarbindParser. case_decide as Hsize.
    + intros [= <-]. split; [|done]. by apply map_size_empty_iff.
    + pose proof (NewVarbindParser_fold def
                    (Go.range o "attributes" (ObjectDefinition.Attributes def))
                    (inl ∅)) as Hfold.
      destruct (foldl _ _ _) as [m|e']; [done|]. intros [= <-].
      destruct Hfold as [?|([name attr] & Hin & Hnorm & ->)]; [done|].
      split; [done|]. exists name, attr. split; [|done].
      by apply RangeFacts.elem_of_range in Hin.
Qed.

(** *** The loop of Parse *)

Lemma parseLoop_in_order (ConvertValue : Converter) (p : VarbindParser)
    (pdus : list Gosnmp.SnmpPDU) (result0 : list DecodedVarbind.t) :
  ∃ result err done rest,
    parseLoop ConvertValue p result0 pdus = Some (result0 ++ result, err)
    ∧ pdus = done ++ rest
    ∧ Forall2 (decodes ConvertValue p) (filter (decodable p) done) result
    ∧ match err with
      | None => rest = []
      | Some e => ∃ pdu rest', rest = pdu :: rest' ∧ failsWith ConvertValue p pdu e
      end.
Proof.
  revert result0. induction pdus as [|pdu pdus IH]; intros result0.
  { exists [], None, [], []. simpl. by rewrite app_nil_r. }
  cbn [parseLoop]. unfold parseStep.
  destruct (IsErrorType (Gosnmp.Type_ pdu)) eqn:Herr.
  { destruct (IH result0) as (result & err & done & rest & -> & -> & Hall & Herr').
    exists result, err, (pdu :: done), rest. split_and!; [done|done| |done].
    rewrite filter_cons_False; [done|]. intros [Hne _]. congruence. }
  destruct (DecoderFacts.matchAttribute_spec p (normaliseOID (Gosnmp.Name pdu)))
    as ([[attr inst] found] & Hm & _).
  rewrite Hm. destruct found; simpl.
  - destruct (ConvertValue _ _ _) as [v|cause] eqn:Hcv.
    + destruct (IH (result0 ++
                [ {| DecodedVarbind.OID := normaliseOID (Gosnmp.Name pdu);
                     DecodedVarbind.AttributeName := AttributeDefinition.Name attr;
                     DecodedVarbind.Instance := inst;
                     DecodedVarbind.Value := v;
                     DecodedVarbind.SNMPType := PDUTypeString (Gosnmp.Type_ pdu);
                     DecodedVarbind.Syntax := AttributeDefinition.Syntax attr;
                     DecodedVarbind.IsTag := AttributeDefinition.IsTag attr |} ]))
        as (result & err & done & rest & -> & -> & Hall & Herr').
      eexists (_ :: result), err, (pdu :: done), rest.
      split_and!; [by rewrite <- app_assoc|done| |done].
      rewrite filter_cons_True.
      * constructor; [|done]. exists attr, inst. by split_and!.
      * split; [done|]. unfold recognised. by rewrite Hm.
    + exists [], (Some (ErrConversion (normaliseOID (Gosnmp.Name pdu))
                         (AttributeDefinition.Name attr)
                         (AttributeDefinition.Syntax attr) cause)),
        [], (pdu :: pdus).
      split_and!; [by rewrite app_nil_r|done|constructor|].
      exists pdu, pdus. split; [done|]. by exists attr, inst, cause.
  - destruct (IH result0) as (result & err & done & rest & -> & -> & Hall & Herr').
    exists result, err, (pdu :: done), rest. split_and!; [done|done| |done].
    rewrite filter_cons_False; [done|]. intros [_ Hrec].
    unfold recognised in Hrec. by rewrite Hm in Hrec.
Qed.

(** X19.  Parse always returns.  It decodes the PDUs in their order,
    one decoded varbind for each PDU that is not of an error type and
    whose OID the matcher finds an attribute for, none for the others,
    each with the OID, attribute, instance, type and converted value
    of its PDU.  It stops at the first PDU whose conversion fails, and
    then returns the error of that PDU together with what was decoded
    before it; without an error it has gone through all PDUs. *)
Theorem Parse_in_order (ConvertValue : Converter) (p : VarbindParser)
    (pdus : list Gosnmp.SnmpPDU) :
  ∃ result err done rest,
    Parse ConvertValue p pdus = Some (result, err)
    ∧ pdus = done ++ rest
    ∧ Forall2 (decodes ConvertValue p) (filter (decodable p) done) result
    ∧ match err with
      | None => rest = []
      | Some e => ∃ pdu rest', rest = pdu :: rest' ∧ failsWith ConvertValue p pdu e
      end.
Proof. apply (parseLoop_in_order ConvertValue p pdus []). Qed.

(** *** Decode *)

(** X25.  Decode always returns.  It forwards the device, the key of
    the object and the time of collection, and gives the duration of
    the poll in whole milliseconds.  A poll without varbinds is no
    error, whatever the object definition.  Otherwise Decode fails
    exactly when the parser cannot be built, and then returns no
    varbind, or when Parse fails, and then returns what Parse decoded
    before the error; the error carries the key of the object and the
    hostname.  Every varbind it returns is decoded from an attribute
    of the definition. *)
Theorem Decode_outcome (ConvertValue : Converter) (o : MapOrder)
    (raw : RawPollResult.t) :
  let def := RawPollResult.ObjectDef raw in
  let pdus := RawPollResult.Varbinds raw in
  let elapsed := (RawPollResult.CollectedAt raw - RawPollResult.PollStartedAt raw)%Z in
  ∃ result err,
    Decode ConvertValue o raw = Some (result, err)
    ∧ DecodedPollResult.Device result = RawPollResult.Device raw
    ∧ DecodedPollResult.ObjectDefKey result = ObjectDefinition.Key def
    ∧ DecodedPollResult.CollectedAt result = RawPollResult.CollectedAt raw
    ∧ ((0 ≤ elapsed ≤ Go.maxDuration)%Z →
       DecodedPollResult.PollDurationMs result = (elapsed / 1000000)%Z)
    ∧ (pdus = [] → err = None ∧ DecodedPollResult.Varbinds result = [])
    ∧ (pdus ≠ [] →
       match NewVarbindParser o def with
       | inr cause =>
           err = Some (ErrBuildParser (ObjectDefinition.Key def)
                         (Device.Hostname (RawPollResult.Device raw)) cause)
           ∧ DecodedPollResult.Varbinds result = []
       | inl p =>
           ∃ cause,
             Parse ConvertValue p pdus
             = Some (DecodedPollResult.Varbinds result, cause)
             ∧ err = ErrPartialParse (ObjectDefinition.Key def)
                       (Device.Hostname (RawPollResult.Device raw)) <$> cause
       end)
    ∧ Forall (decodedFrom def) (DecodedPollResult.Varbinds result).
Proof.
  intros def pdus elapsed.
  assert (Hms : (0 ≤ elapsed ≤ Go.maxDuration)%Z →
                Go.Milliseconds (Go.Sub (RawPollResult.CollectedAt raw)
                                        (RawPollResult.PollStartedAt raw))
                = (elapsed / 1000000)%Z).
  { intros Hel. unfold Go.Milliseconds, Go.Sub. cbv zeta. fold elapsed.
    destruct (Z.ltb_spec Go.maxDuration elapsed); [lia|].
    destruct (Z.ltb_spec elapsed Go.minDuration) as [Hlt|_].
    - unfold Go.minDuration in Hlt. lia.
    - apply Z.quot_div_nonneg; lia. }
  unfold Decode. cbv zeta. fold def pdus.
  case_decide as Hlen.
  { eexists _, _. split; [reflexivity|]. simpl.
    split_and!; try done. intros Hne. destruct pdus; [done|]. simpl in Hlen. lia. }
  assert (Hne : pdus ≠ []) by (by intros Heq; rewrite Heq in Hlen).
  destruct (NewVarbindParser o def) as [p|cause] eqn:Hnew.
  - destruct (DecoderFacts.parseLoop_spec ConvertValue p (decodedFrom def) pdus [])
      as (decoded & err & Hparse & Hall); [|done|].
    { intros key attr fullOID inst v ty Hkey Hm.
      destruct (DecoderFacts.NewVarbindParser_keys o def p Hnew key attr Hkey)
        as (-> & name & Hname).
      by exists name, attr. }
    unfold Parse. rewrite Hparse.
    destruct err as [e|]; eexists _, _; (split; [reflexivity|]); simpl;
      split_and!; try done; intros _; by eexists.
  - eexists _, _. split; [reflexivity|]. simpl. split_and!; try done.
Qed.

End DecoderProperties.

Module TrapProperties.
Import Models.
Import TrapSpec.

(** *** The normal form of an OID *)

Lemma starts_with_dot (s : string) :
  Go.HasPrefix s "." = true → ∃ r, s = "." +:+ r.
Proof. unfold Go.HasPrefix. apply GoFacts.prefix_dot. Qed.

Lemma TrimSuffix_dot_shape (r : string) :
  Go.TrimSuffix ("." +:+ r) "." = ""
  ∨ ∃ r', Go.TrimSuffix ("." +:+ r) "." = "." +:+ r'.
Proof.
  unfold Go.TrimSuffix at 1 2.
  destruct (Go.HasSuffix ("." +:+ r) ".") eqn:Hsuf; [|right; by exists r].
  apply StringFacts.HasSuffix_inv in Hsuf as [a Ha].
  replace (Go.slice_to _ _) with (Go.TrimSuffix ("." +:+ r) ".")
    by (unfold Go.TrimSuffix; rewrite Ha at 1; by rewrite StringFacts.HasSuffix_app).
  rewrite Ha, StringFacts.TrimSuffix_app.
  destruct a as [|c a]; [by left|right].
  rewrite GoFacts.app_cons, GoFacts.app_empty_l, GoFacts.app_cons in Ha.
  injection Ha as <- _. exists a. by rewrite GoFacts.app_cons, GoFacts.app_empty_l.
Qed.

Lemma TrimSuffix_dot_empty (r : string) :
  Go.TrimSuffix ("." +:+ r) "." = "" → r = "".
Proof.
  unfold Go.TrimSuffix.
  destruct (Go.HasSuffix ("." +:+ r) ".") eqn:Hsuf; [|done].
  apply StringFacts.HasSuffix_inv in Hsuf as [a Ha]. intros Hempty.
  assert (Ht : Go.TrimSuffix ("." +:+ r) "." = a)
    by (rewrite Ha; apply StringFacts.TrimSuffix_app).
  unfold Go.TrimSuffix in Ht. rewrite Ha in Ht at 1.
  rewrite StringFacts.HasSuffix_app in Ht. rewrite Hempty in Ht. subst a.
  rewrite GoFacts.app_empty_l, GoFacts.app_cons, GoFacts.app_empty_l in Ha.
  by injection Ha as ->.
Qed.

Lemma HasSuffix_dot_cons (c : ascii) (t : string) :
  t ≠ "" → Go.HasSuffix (String c t) "." = Go.HasSuffix t ".".
Proof.
  intros Ht. unfold Go.HasSuffix.
  change (Go.bytes (String c t)) with (c :: Go.bytes t).
  change (rev (c :: Go.bytes t)) with (rev (Go.bytes t) ++ [c]).
  destruct (rev (Go.bytes t)) as [|a l] eqn:Hrev.
  - apply (f_equal (@rev ascii)) in Hrev. rewrite rev_involutive in Hrev.
    apply (f_equal Go.of_bytes) in Hrev. rewrite StringFacts.of_bytes_bytes in Hrev.
    by destruct Ht.
  - change (Go.of_bytes (rev (Go.bytes "."))) with ".".
    change (Go.of_bytes ((a :: l) ++ [c])) with (String a (Go.of_bytes (l ++ [c]))).
    change (Go.of_bytes (a :: l)) with (String a (Go.of_bytes l)).
    by rewrite !GoFacts.prefix_dot_cons.
Qed.

(** X20.  The normal form of an OID in a trap is empty or begins with
    a dot.  It is empty exactly for an OID that, without surrounding
    white space, is empty or a lone dot.  An OID written without
    leading and without trailing dot gets the leading dot and is
    otherwise left as it is, without its surrounding white space. *)
Theorem normaliseOID_shape (oid : string) :
  (Trap.normaliseOID oid = "" ∨ ∃ r, Trap.normaliseOID oid = "." +:+ r)
  ∧ (Trap.normaliseOID oid = "" ↔ Go.TrimSpace oid = "" ∨ Go.TrimSpace oid = ".")
  ∧ (Go.TrimSpace oid ≠ "" → Go.HasPrefix (Go.TrimSpace oid) "." = false →
     Go.HasSuffix (Go.TrimSpace oid) "." = false →
     Trap.normaliseOID oid = "." +:+ Go.TrimSpace oid).
Proof.
  unfold Trap.normaliseOID. cbv zeta. set (t := Go.TrimSpace oid).
  case_decide as Ht.
  { split_and!; [by left|by split; [left|]|done]. }
  destruct (Go.HasPrefix t ".") eqn:Hpre.
  - destruct (starts_with_dot t Hpre) as [r Hr]. rewrite Hr. split_and!.
    + apply TrimSuffix_dot_shape.
    + split.
      * intros ->%TrimSuffix_dot_empty. by right.
      * intros [?|Hdot]; [done|]. by rewrite Hdot.
    + by intros _ ?.
  - split_and!.
    + apply TrimSuffix_dot_shape.
    + split.
      * by intros ->%TrimSuffix_dot_empty.
      * intros [?|Hdot]; [done|]. by rewrite Hdot in Hpre.
    + intros _ _ Hsuf. unfold Go.TrimSuffix.
      change ("." +:+ t) with (String "." t).
      by rewrite (HasSuffix_dot_cons "." t Ht), Hsuf.
Qed.

(** *** Parse *)

Lemma parsev2Info_no_error `{Extern} (pkt : Gosnmp.SnmpPacket) :
  ∃ info remaining, Trap.parsev2Info pkt = Some (info, remaining, None).
Proof.
  destruct (TrapFacts.parsev2Info_total pkt) as [[[info remaining] err] Hp].
  exists info, remaining. rewrite Hp. revert Hp.
  unfold Trap.parsev2Info. cbv zeta. case_decide; [by intros [= <- <- <-]|].
  destruct (_ !! _); [by intros [= <- <- <-]|done].
Qed.

(** X21.  Parse always returns; it fails for a nil packet, with an
    empty trap, and for a packet whose version is none of 1, 2c and 3,
    and for no other.  For a packet it stamps the trap with the clock
    and names the sender: the agent address of a v1 packet that has
    one, the address the packet came from otherwise (nothing when
    there is none).  A trap returned with the version error has no
    varbinds; a v1 trap has the header of parsev1Info and all the
    packet's variables converted. *)
Theorem Parse_outcome `{Extern} (now : Go.Time) (pkt : option Gosnmp.SnmpPacket)
    (remoteAddr : option string) :
  ∃ trap err,
    Trap.Parse now pkt remoteAddr = Some (trap, err)
    ∧ match pkt with
      | None =>
          err = Some Trap.ErrNilPacket
          ∧ trap = {| SNMPTrap.Timestamp := 0%Z; SNMPTrap.Device := zeroDevice;
                      SNMPTrap.TrapInfo := zeroTrapInfo; SNMPTrap.Varbinds := [] |}
      | Some pkt =>
          let v := Gosnmp.Version pkt in
          SNMPTrap.Timestamp trap = now
          ∧ Device.SNMPVersion (SNMPTrap.Device trap) = Trap.snmpVersionString v
          ∧ Device.IPAddress (SNMPTrap.Device trap)
            = (if decide (v = Gosnmp.Version1 ∧ Gosnmp.AgentAddress pkt ≠ "")
               then Gosnmp.AgentAddress pkt else default "" remoteAddr)
          ∧ (err = None
             ↔ v = Gosnmp.Version1 ∨ v = Gosnmp.Version2c ∨ v = Gosnmp.Version3)
          ∧ (∀ e, err = Some e →
               e = Trap.ErrUnsupportedVersion v
               ∧ SNMPTrap.Varbinds trap = []
               ∧ SNMPTrap.TrapInfo trap = zeroTrapInfo)
          ∧ (v = Gosnmp.Version1 →
               SNMPTrap.TrapInfo trap = Trap.parsev1Info pkt
               ∧ SNMPTrap.Varbinds trap = Trap.convertVarbinds (Gosnmp.Variables pkt))
      end.
Proof.
  destruct pkt as [pkt|]; [|eexists _, _; split; [reflexivity|done]].
  unfold Trap.Parse. cbv zeta.
  assert (Hip : Device.IPAddress (Trap.deviceFromPacket pkt remoteAddr)
                = (if decide (Gosnmp.Version pkt = Gosnmp.Version1
                              ∧ Gosnmp.AgentAddress pkt ≠ "")
                   then Gosnmp.AgentAddress pkt else default "" remoteAddr)).
  { unfold Trap.deviceFromPacket. simpl. by destruct remoteAddr. }
  destruct (decide (Gosnmp.Version pkt = Gosnmp.Version1)) as [Hv1|Hv1].
  { eexists _, _. split; [reflexivity|]. simpl. split_and!; try done.
    split; [by left|done]. }
  destruct (decide (Gosnmp.Version pkt = Gosnmp.Version2c
                    ∨ Gosnmp.Version pkt = Gosnmp.Version3)) as [Hv2|Hv2].
  { destruct (parsev2Info_no_error pkt) as (info & remaining & ->).
    eexists _, _. split; [reflexivity|]. simpl. split_and!; try done.
    split; [by right|done]. }
  eexists _, _. split; [reflexivity|]. simpl. split_and!; try done.
  - split; [done|]. intros [?|?]; [done|by destruct Hv2].
  - by intros e [= <-].
Qed.

(** *** The varbinds of a trap *)

Lemma convertVarbinds_loop `{Extern} (pdus : list Gosnmp.SnmpPDU)
    (out : list Metric.t) :
  foldl (λ out pdu,
    if Trap.isErrorPDU (Gosnmp.Type_ pdu) then out
    else out ++ [ {| Metric.OID := Trap.normaliseOID (Gosnmp.Name pdu);
                     Metric.Name := Gosnmp.Name pdu;
                     Metric.Instance := "";
                     Metric.Value := Trap.convertPDUValue pdu;
                     Metric.Type_ := Trap.pduTypeString (Gosnmp.Type_ pdu);
                     Metric.Syntax := "";
                     Metric.Tags := ∅ |} ]) out pdus
  = out ++ Trap.convertVarbinds pdus.
Proof.
  unfold Trap.convertVarbinds.
  induction pdus as [|pdu pdus IH] using rev_ind; [by rewrite app_nil_r|].
  rewrite !foldl_app. cbn [foldl]. rewrite IH.
  destruct (Trap.isErrorPDU _); [done|]. by rewrite app_assoc.
Qed.

Lemma convertVarbinds_cons `{Extern} (pdu : Gosnmp.SnmpPDU)
    (pdus : list Gosnmp.SnmpPDU) :
  Trap.convertVarbinds (pdu :: pdus)
  = (if Trap.isErrorPDU (Gosnmp.Type_ pdu) then []
     else [ {| Metric.OID := Trap.normaliseOID (Gosnmp.Name pdu);
               Metric.Name := Gosnmp.Name pdu;
               Metric.Instance := "";
               Metric.Value := Trap.convertPDUValue pdu;
               Metric.Type_ := Trap.pduTypeString (Gosnmp.Type_ pdu);
               Metric.Syntax := "";
               Metric.Tags := ∅ |} ]) ++ Trap.convertVarbinds pdus.
Proof.
  unfold Trap.convertVarbinds at 1. cbn [foldl].
  rewrite convertVarbinds_loop. by destruct (Trap.isErrorPDU _).
Qed.

(** X22.  The varbinds of a trap are the variables of the packet in
    their order, without those of type NoSuchObject, NoSuchInstance,
    EndOfMibView or Null.  Each carries the name of its variable as it
    came, the name in normal form as OID, the converted value, the
    name of the type, and neither instance, syntax nor tags.
    Converting two lists one after the other is converting the two
    together. *)
Theorem convertVarbinds_in_order `{Extern} (pdus more : list Gosnmp.SnmpPDU) :
  Forall2 (λ pdu m,
             Metric.Name m = Gosnmp.Name pdu
             ∧ Metric.OID m = Trap.normaliseOID (Gosnmp.Name pdu)
             ∧ Metric.Value m = Trap.convertPDUValue pdu
             ∧ Metric.Type_ m = Trap.pduTypeString (Gosnmp.Type_ pdu)
             ∧ Metric.Instance m = "" ∧ Metric.Syntax m = "" ∧ Metric.Tags m = ∅)
          (filter (λ pdu, Gosnmp.Type_ pdu ∉ [Gosnmp.NoSuchObject; Gosnmp.NoSuchInstance;
                                              Gosnmp.EndOfMibView; Gosnmp.Null])
                  pdus)
          (Trap.convertVarbinds pdus)
  ∧ Trap.convertVarbinds (pdus ++ more)
    = Trap.convertVarbinds pdus ++ Trap.convertVarbinds more.
Proof.
  split.
  - induction pdus as [|pdu pdus IH]; [constructor|].
    rewrite convertVarbinds_cons. unfold Trap.isErrorPDU.
    case_bool_decide as Herr.
    + rewrite filter_cons_False; [done|]. intros Hnot. apply Hnot.
      rewrite !elem_of_cons. tauto.
    + rewrite filter_cons_True.
      * constructor; [done|apply IH].
      * rewrite !elem_of_cons, elem_of_nil. tauto.
  - unfold Trap.convertVarbinds at 1. rewrite foldl_app.
    fold (Trap.convertVarbinds pdus). apply convertVarbinds_loop.
Qed.

End TrapProperties.

Module SchedulerProperties.
Import Models.
Import Config.
Import Poller.
Import Scheduler.
Import SchedulerSpec.

Lemma hostnamesOf_sorted (o : MapOrder) (cfg : LoadedConfig.t) :
  StronglySorted String.le (hostnamesOf o cfg).
Proof. unfold hostnamesOf, sortStrings. apply StronglySorted_merge_sort; apply _. Qed.

Lemma hostnamesOf_order (o o' : MapOrder) (cfg : LoadedConfig.t) :
  hostnamesOf o' cfg = hostnamesOf o cfg.
Proof.
  apply (StronglySorted_unique String.le); [apply hostnamesOf_sorted..|].
  unfold hostnamesOf, sortStrings. rewrite !merge_sort_Permutation.
  unfold Go.range.
  by rewrite (Go.range_perm o _ "devices"), (Go.range_perm o' _ "devices").
Qed.

Lemma jobs_hostnames (cfg : LoadedConfig.t) (h : string) (ks : list string) :
  Forall (λ j, PollJob.Hostname j = h) (omap (jobFor cfg h) ks).
Proof.
  rewrite Forall_forall. intros j (k & _ & Hj)%list_elem_of_omap.
  by apply SchedulerFacts.jobFor_hostname in Hj.
Qed.

(** X23.  The jobs come in ascending order of hostname, so the jobs of
    a device stand together, and the list does not depend on the order
    in which the map of devices is ranged: two calls on the same
    configuration return the same list.  A nil configuration gives no
    jobs. *)
Theorem ResolveJobs_sorted (o o' : MapOrder) (cfg : LoadedConfig.t) :
  StronglySorted String.le (map PollJob.Hostname (ResolveJobs o (Some cfg)))
  ∧ ResolveJobs o' (Some cfg) = ResolveJobs o (Some cfg)
  ∧ ResolveJobs o None = [].
Proof.
  split_and!; [| |done].
  - rewrite SchedulerFacts.ResolveJobs_spec.
    pose proof (hostnamesOf_sorted o cfg) as Hs.
    induction Hs as [|h hs Hs IH Hle]; [constructor|].
    cbn [flat_map]. rewrite map_app. apply StronglySorted_app_2.
    + intros x1 x2 Hx1 Hx2.
      apply list_elem_of_In, in_map_iff in Hx1 as (j1 & <- & Hin1%list_elem_of_In).
      apply list_elem_of_In, in_map_iff in Hx2 as (j2 & <- & Hin2%list_elem_of_In).
      pose proof (jobs_hostnames cfg h (resolvedKeys cfg h)) as Hh.
      rewrite Forall_forall in Hh. rewrite (Hh j1 Hin1).
      apply list_elem_of_In, in_flat_map in Hin2 as (h2 & Hh2 & Hin2).
      apply list_elem_of_In in Hin2, Hh2.
      pose proof (jobs_hostnames cfg h2 (resolvedKeys cfg h2)) as Hh'.
      rewrite Forall_forall in Hh'. rewrite (Hh' j2 Hin2).
      rewrite Forall_forall in Hle. by apply Hle.
    + pose proof (jobs_hostnames cfg h (resolvedKeys cfg h)) as Hh.
      induction Hh as [|j js Hj Hjs IHj]; [constructor|].
      cbn [map]. constructor; [done|].
      rewrite Forall_forall. intros x Hx.
      apply list_elem_of_In, in_map_iff in Hx as (j' & <- & Hin%list_elem_of_In).
      rewrite Forall_forall in Hjs. by rewrite Hj, (Hjs j' Hin).
    + done.
  - by rewrite !SchedulerFacts.ResolveJobs_spec, (hostnamesOf_order o o').
Qed.

(** *** Grouping the jobs *)

Lemma jobsByHostname_loop (jobs : list PollJob.t)
    (m : gmap string (list PollJob.t)) (h : string) :
  foldl (λ m j,
           <[PollJob.Hostname j := default [] (m !! PollJob.Hostname j) ++ [j]]> m)
        m jobs !! h
  = match m !! h, filter (λ j, PollJob.Hostname j = h) jobs with
    | None, [] => None
    | old, js => Some (default [] old ++ js)
    end.
Proof.
  revert m. induction jobs as [|j jobs IH]; intros m.
  { simpl. destruct (m !! h); [by rewrite app_nil_r|done]. }
  cbn [foldl]. rewrite IH.
  destruct (decide (PollJob.Hostname j = h)) as [Hj|Hj].
  - rewrite filter_cons_True by done. rewrite Hj, lookup_insert_eq.
    destruct (m !! h) as [old|]; simpl.
    + destruct (filter _ jobs); by rewrite <- app_assoc.
    + by destruct (filter _ jobs).
  - rewrite filter_cons_False by done. by rewrite lookup_insert_ne.
Qed.

(** X24.  jobsByHostname files every job under its hostname and keeps
    the order of the list: the group of a hostname is the jobs of that
    hostname as they follow each other in the list, and a hostname
    without job has no group (never an empty one).  On the jobs of
    ResolveJobs the group of a device is the list of its jobs, one for
    each object it resolves, and a device without object has no
    group. *)
Theorem jobsByHostname_groups (jobs : list PollJob.t) (o : MapOrder)
    (cfg : LoadedConfig.t) (h : string) :
  jobsByHostname jobs !! h
  = (let js := filter (λ j, PollJob.Hostname j = h) jobs in
     if decide (js = []) then None else Some js)
  ∧ jobsByHostname (ResolveJobs o (Some cfg)) !! h
    = (let js := omap (jobFor cfg h) (resolvedKeys cfg h) in
       if decide (is_Some (LoadedConfig.Devices cfg !! h) ∧ js ≠ [])
       then Some js else None).
Proof.
  assert (Hgroups : ∀ jobs,
            jobsByHostname jobs !! h
            = (let js := filter (λ j, PollJob.Hostname j = h) jobs in
               if decide (js = []) then None else Some js)).
  { intros l. unfold jobsByHostname. rewrite jobsByHostname_loop, lookup_empty.
    cbv zeta. by destruct (filter _ l). }
  split; [apply Hgroups|].
  rewrite Hgroups. cbv zeta.
  destruct (decide (is_Some (LoadedConfig.Devices cfg !! h))) as [Hdev|Hdev].
  - rewrite (SchedulerFacts.jobs_of_device o cfg h Hdev).
    destruct (omap _ _) as [|j js].
    + rewrite decide_True by done. by rewrite decide_False by (by intros [_ ?]).
    + rewrite decide_False by done. by rewrite decide_True.
  - rewrite SchedulerFacts.ResolveJobs_spec, SchedulerFacts.filter_jobs_of
      by apply SchedulerFacts.hostnamesOf_spec.
    assert (Hnot : h ∉ hostnamesOf o cfg).
    { intros Hin. by apply (proj2 (SchedulerFacts.hostnamesOf_spec o cfg)) in Hin. }
    destruct (decide (h ∈ hostnamesOf o cfg)); [done|].
    rewrite decide_True by done. by rewrite decide_False by (by intros [? _]).
Qed.

End SchedulerProperties.

Module ProducerProperties.
Import Models.
Import Decoder.
Import Metrics.
Import ProducerSpec.

(** X26.  A producer that takes deltas remembers a counter from one
    poll to the next.  When two polls of the same device, the second
    later than the first, both give a metric of counter syntax with
    the same name and instance, the two metrics come from a
    measurement of their poll each, and for unsigned values within
    the range of the counter the first metric carries 0, there being
    nothing to compare with, and the second the difference of the two
    raw values modulo the range of the counter. *)
Theorem Produce_twice `{Extern} (o1 o2 : MapOrder) (clock1 clock2 : Go.Time)
    (cfg : ProducerConfig.t) (d1 d2 : DecodedPollResult.t) (m1 m2 : Metric.t) :
  ProducerConfig.CounterDeltaEnabled cfg = true →
  hostOf d1 = hostOf d2 →
  (nowOf clock1 d1 < nowOf clock2 d2)%Z →
  let r1 := Produce o1 clock1 (New cfg) d1 in
  let r2 := Produce o2 clock2 r1.2 d2 in
  m1 ∈ SNMPMetric.Metrics r1.1 → m2 ∈ SNMPMetric.Metrics r2.1 →
  Metric.Name m1 = Metric.Name m2 → Metric.Instance m1 = Metric.Instance m2 →
  IsCounterSyntax (Metric.Syntax m1) = true →
  IsCounterSyntax (Metric.Syntax m2) = true →
  ∃ w1 w2,
    w1 ∈ DecodedPollResult.Varbinds d1 ∧ w2 ∈ DecodedPollResult.Varbinds d2
    ∧ DecodedVarbind.IsTag w1 = false ∧ DecodedVarbind.IsTag w2 = false
    ∧ DecodedVarbind.AttributeName w1 = Metric.Name m1
    ∧ DecodedVarbind.AttributeName w2 = Metric.Name m2
    ∧ DecodedVarbind.Instance w1 = Metric.Instance m1
    ∧ DecodedVarbind.Instance w2 = Metric.Instance m2
    ∧ DecodedVarbind.Syntax w1 = Metric.Syntax m1
    ∧ DecodedVarbind.Syntax w2 = Metric.Syntax m2
    ∧ ∀ raw1 raw2,
        toUint64Safe (DecodedVarbind.Value w1) = Some raw1 →
        toUint64Safe (DecodedVarbind.Value w2) = Some raw2 →
        (0 ≤ raw1 ≤ WrapForSyntax (Metric.Syntax m2))%Z →
        (0 ≤ raw2 ≤ WrapForSyntax (Metric.Syntax m2))%Z →
        Metric.Value m1 = VUint64 0
        ∧ Metric.Value m2
          = VUint64 ((raw2 - raw1) mod (WrapForSyntax (Metric.Syntax m2) + 1)).
Proof.
  intros Hen Hhost Hlater r1 r2 Hm1 Hm2 Hname Hinst Hsyn1 Hsyn2.
  subst r2 r1. unfold Produce, New in Hm1, Hm2. cbv zeta in Hm1, Hm2.
  cbn [fst snd Metrics.cfg Metrics.counters] in Hm1, Hm2. rewrite Hen in Hm1, Hm2.
  set (opts1 := {| CollectorID := ProducerConfig.CollectorID cfg;
                   PollStatus := "success";
                   Enums := if ProducerConfig.EnumEnabled cfg
                            then ProducerConfig.Enums cfg else None;
                   Counters := Some NewCounterState |}) in *.
  destruct (CounterProperties.Build_counters_some o1 clock1 d1 opts1 NewCounterState
              eq_refl) as [s1 Hs1].
  rewrite Hs1 in Hm2.
  set (opts2 := {| CollectorID := ProducerConfig.CollectorID cfg;
                   PollStatus := "success";
                   Enums := if ProducerConfig.EnumEnabled cfg
                            then ProducerConfig.Enums cfg else None;
                   Counters := Some s1 |}) in *.
  destruct (CounterProperties.Build_counter_metric o1 clock1 d1 opts1 NewCounterState
              m1 eq_refl Hm1 Hsyn1)
    as (w1 & Hin1 & Htag1 & Hn1 & Hi1 & Hx1 & Hcase1).
  destruct (CounterProperties.Build_counter_metric o2 clock2 d2 opts2 s1
              m2 eq_refl Hm2 Hsyn2)
    as (w2 & Hin2 & Htag2 & Hn2 & Hi2 & Hx2 & Hcase2).
  exists w1, w2. split_and!; try done.
  intros raw1 raw2 Hraw1 Hraw2 Hr1 Hr2.
  rewrite Hraw1 in Hcase1. rewrite Hraw2 in Hcase2.
  cbv zeta in Hcase1, Hcase2.
  destruct Hcase1 as [Hv1 (s1' & Hs1' & Hentry)].
  destruct Hcase2 as [Hv2 _].
  rewrite Hs1 in Hs1'. injection Hs1' as <-.
  split.
  - rewrite Hv1. by rewrite MetricsFacts.Delta_fresh.
  - rewrite Hv2.
    assert (Hkey : metricKey (hostOf d2) m2 = metricKey (hostOf d1) m1).
    { unfold metricKey. by rewrite Hhost, Hname, Hinst. }
    rewrite Hkey.
    by rewrite (CounterProperties.Delta_mod s1 (metricKey (hostOf d1) m1)
                  {| Value := raw1; SeenAt := nowOf clock1 d1 |} raw2
                  (nowOf clock2 d2) (Metric.Syntax m2) Hentry Hlater Hr1 Hr2).
Qed.

Lemma Produce_twice_witness :
  let r1 := Produce (H := Samples.noExtern) Go.canonical_order 0%Z
              (New Samples.deltaConfig) (Samples.octetsAt 1000%Z (2 ^ 32 - 100)) in
  let r2 := Produce (H := Samples.noExtern) Go.canonical_order 0%Z r1.2
              (Samples.octetsAt (1000 + 60 * Go.Second)%Z 400) in
  Forall (λ m1, Forall (λ m2,
    ∃ w1 w2,
      w1 ∈ DecodedPollResult.Varbinds (Samples.octetsAt 1000%Z (2 ^ 32 - 100))
      ∧ w2 ∈ DecodedPollResult.Varbinds
               (Samples.octetsAt (1000 + 60 * Go.Second)%Z 400)
      ∧ DecodedVarbind.IsTag w1 = false ∧ DecodedVarbind.IsTag w2 = false
      ∧ DecodedVarbind.AttributeName w1 = Metric.Name m1
      ∧ DecodedVarbind.AttributeName w2 = Metric.Name m2
      ∧ DecodedVarbind.Instance w1 = Metric.Instance m1
      ∧ DecodedVarbind.Instance w2 = Metric.Instance m2
      ∧ DecodedVarbind.Syntax w1 = Metric.Syntax m1
      ∧ DecodedVarbind.Syntax w2 = Metric.Syntax m2
      ∧ ∀ raw1 raw2,
          toUint64Safe (DecodedVarbind.Value w1) = Some raw1 →
          toUint64Safe (DecodedVarbind.Value w2) = Some raw2 →
          (0 ≤ raw1 ≤ WrapForSyntax (Metric.Syntax m2))%Z →
          (0 ≤ raw2 ≤ WrapForSyntax (Metric.Syntax m2))%Z →
          Metric.Value m1 = VUint64 0
          ∧ Metric.Value m2
            = VUint64 ((raw2 - raw1) mod (WrapForSyntax (Metric.Syntax m2) + 1)))
    (SNMPMetric.Metrics r2.1)) (SNMPMetric.Metrics r1.1).
Proof.
  intros r1 r2.
  assert (Hl1 : (λ m, (Metric.Name m, Metric.Instance m, Metric.Syntax m))
                  <$> SNMPMetric.Metrics r1.1
                = [("netif.bytes.in", "1", "Counter32")]) by (vm_compute; reflexivity).
  assert (Hl2 : (λ m, (Metric.Name m, Metric.Instance m, Metric.Syntax m))
                  <$> SNMPMetric.Metrics r2.1
                = [("netif.bytes.in", "1", "Counter32")]) by (vm_compute; reflexivity).
  apply Forall_forall. intros m1 Hm1. apply Forall_forall. intros m2 Hm2.
  pose proof (list_elem_of_fmap_2
                (λ m, (Metric.Name m, Metric.Instance m, Metric.Syntax m)) _ _ Hm1) as H1.
  pose proof (list_elem_of_fmap_2
                (λ m, (Metric.Name m, Metric.Instance m, Metric.Syntax m)) _ _ Hm2) as H2.
  rewrite Hl1 in H1. rewrite Hl2 in H2.
  apply list_elem_of_singleton in H1, H2.
  injection H1 as Hn1 Hi1 Hs1. injection H2 as Hn2 Hi2 Hs2.
  apply (Produce_twice (H := Samples.noExtern) Go.canonical_order Go.canonical_order
           0%Z 0%Z Samples.deltaConfig (Samples.octetsAt 1000%Z (2 ^ 32 - 100))
           (Samples.octetsAt (1000 + 60 * Go.Second)%Z 400) m1 m2).
  - reflexivity.
  - reflexivity.
  - vm_compute. reflexivity.
  - exact Hm1.
  - exact Hm2.
  - by rewrite Hn1, Hn2.
  - by rewrite Hi1, Hi2.
  - by rewrite Hs1.
  - by rewrite Hs2.
Defined.

End ProducerProperties.

Module PollerProperties.
Import Models.
Import Config.
Import Poller.
Import PollerSpec.
Import PoolSpec.

(** *** Splitting and joining at dots *)

Lemma Split_nonempty (s : string) : Go.Split s "." ≠ [].
Proof.
  destruct s as [|c s]; [done|]. simpl. case_decide; [done|].
  by destruct (Go.Split s ".").
Qed.

Lemma Split_dot (s : string) : Go.Split ("." +:+ s) "." = "" :: Go.Split s ".".
Proof. done. Qed.

Lemma Split_app_dot (a b : string) :
  Go.Split (a +:+ "." +:+ b) "." = Go.Split a "." ++ Go.Split b ".".
Proof.
  induction a as [|c a IH]; [done|].
  rewrite GoFacts.app_cons. cbn [Go.Split]. rewrite IH.
  case_decide; [done|].
  pose proof (Split_nonempty a). by destruct (Go.Split a ".").
Qed.

Lemma Join_cons (x y : string) (l : list string) :
  Go.Join (x :: y :: l) "." = x +:+ "." +:+ Go.Join (y :: l) ".".
Proof. done. Qed.

Lemma Join_Split (s : string) : Go.Join (Go.Split s ".") "." = s.
Proof.
  induction s as [|c s IH]; [done|].
  cbn [Go.Split]. pose proof (Split_nonempty s) as Hne.
  destruct (Go.Split s ".") as [|p ps]; [done|].
  case_decide as Hc.
  - subst c. rewrite Join_cons, IH. done.
  - destruct ps as [|q ps].
    + simpl in IH. subst s. done.
    + rewrite Join_cons in IH. rewrite Join_cons, GoFacts.app_cons. by rewrite IH.
Qed.

Lemma Join_app (a b : list string) :
  a ≠ [] → b ≠ [] → Go.Join (a ++ b) "." = Go.Join a "." +:+ "." +:+ Go.Join b ".".
Proof.
  intros Ha Hb. induction a as [|x a IH]; [done|].
  destruct a as [|y a].
  - destruct b as [|z b]; [done|]. done.
  - change ((x :: y :: a) ++ b) with (x :: (y :: (a ++ b))).
    rewrite !Join_cons. change (y :: a ++ b) with ((y :: a) ++ b).
    rewrite IH by done. by rewrite !GoFacts.app_assoc.
Qed.

(** *** The parts two OIDs share *)

Lemma matchParts_prefix_r (a b : list string) :
  take (matchParts a b) a `prefix_of` b.
Proof.
  revert b. induction a as [|x a IH]; intros b; [apply prefix_nil|].
  destruct b as [|y b]; [apply prefix_nil|]. simpl.
  case_decide as Hxy; [|apply prefix_nil]. subst y. simpl.
  by apply prefix_cons.
Qed.

Lemma matchParts_prefix_l (a b : list string) :
  take (matchParts a b) a `prefix_of` a.
Proof. apply prefix_take. Qed.

Lemma matchParts_greatest (a b c : list string) :
  c `prefix_of` a → c `prefix_of` b → c `prefix_of` take (matchParts a b) a.
Proof.
  revert a b. induction c as [|z c IH]; intros a b Ha Hb; [apply prefix_nil|].
  destruct Ha as [ka ->], Hb as [kb ->]. simpl.
  rewrite decide_True by done. simpl. apply prefix_cons.
  apply IH; by eexists.
Qed.

(** The parts all OIDs of a list share. *)
Lemma common_parts (first : list string) (rest : list string) (c : list string) :
  let parts := foldl (λ parts oid, take (matchParts parts (Go.Split oid ".")) parts)
                     first rest in
  parts `prefix_of` first
  ∧ (∀ oid, oid ∈ rest → parts `prefix_of` Go.Split oid ".")
  ∧ (c `prefix_of` first → (∀ oid, oid ∈ rest → c `prefix_of` Go.Split oid ".") →
     c `prefix_of` parts).
Proof.
  revert first. induction rest as [|oid rest IH]; intros first; cbv zeta.
  { split_and!; [done| |done]. intros oid Hin. by apply elem_of_nil in Hin. }
  cbn [foldl].
  destruct (IH (take (matchParts first (Go.Split oid ".")) first)) as (Hf & Hr & Hg).
  split_and!.
  - etrans; [apply Hf|apply matchParts_prefix_l].
  - intros oid' [->|Hin]%elem_of_cons; [|by apply Hr].
    etrans; [apply Hf|apply matchParts_prefix_r].
  - intros Hc Hall. apply Hg.
    + apply matchParts_greatest; [done|]. apply Hall. by left.
    + intros oid' Hin. apply Hall. by right.
Qed.

Lemma prefix_antisym (a b : list string) :
  a `prefix_of` b → b `prefix_of` a → a = b.
Proof.
  intros [k ->] [k' Hk']. apply (f_equal length) in Hk'.
  rewrite !length_app in Hk'. destruct k; [by rewrite app_nil_r|simpl in Hk'; lia].
Qed.

(** The OIDs LowestCommonOID collects. *)
Lemma collect_oids (l : list (string * AttributeDefinition.t)) (acc : list string) :
  foldl (λ oids kv,
           if decide (AttributeDefinition.OID kv.2 ≠ "")
           then oids ++ [AttributeDefinition.OID kv.2] else oids) acc l
  = acc ++ filter (λ oid, oid ≠ "") (map (λ kv, AttributeDefinition.OID kv.2) l).
Proof.
  revert acc. induction l as [|kv l IH]; intros acc; [by rewrite app_nil_r|].
  cbn [foldl map]. rewrite IH. case_decide as Hoid.
  - rewrite filter_cons_True by done. by rewrite <- app_assoc.
  - rewrite filter_cons_False; [done|]. by intros Hne.
Qed.

Lemma oids_spec (o : MapOrder) (def : ObjectDefinition.t) (oid : string) :
  oid ∈ filter (λ oid, oid ≠ "")
         (map (λ kv, AttributeDefinition.OID kv.2)
              (Go.range o "LowestCommonOID" (ObjectDefinition.Attributes def)))
  ↔ oid ≠ "" ∧ ∃ name attr, ObjectDefinition.Attributes def !! name = Some attr
                            ∧ AttributeDefinition.OID attr = oid.
Proof.
  rewrite list_elem_of_filter. split.
  - intros [Hne Hin]. split; [done|].
    apply list_elem_of_In, in_map_iff in Hin as ([name attr] & <- & Hin).
    apply list_elem_of_In, RangeFacts.elem_of_range in Hin. by exists name, attr.
  - intros [Hne (name & attr & Hattr & <-)]. split; [done|].
    apply list_elem_of_In, in_map_iff. exists (name, attr). split; [done|].
    by apply list_elem_of_In, RangeFacts.elem_of_range.
Qed.

Lemma oids_order (o o' : MapOrder) (def : ObjectDefinition.t) :
  filter (λ oid, oid ≠ "")
         (map (λ kv, AttributeDefinition.OID kv.2)
              (Go.range o' "LowestCommonOID" (ObjectDefinition.Attributes def)))
  ≡ₚ filter (λ oid, oid ≠ "")
         (map (λ kv, AttributeDefinition.OID kv.2)
              (Go.range o "LowestCommonOID" (ObjectDefinition.Attributes def))).
Proof.
  apply filter_Permutation. apply Permutation_map. unfold Go.range.
  by rewrite (Go.range_perm o), (Go.range_perm o').
Qed.

Lemma LowestCommonOID_rootOf (o : MapOrder) (def : ObjectDefinition.t) :
  LowestCommonOID o def
  = rootOf (filter (λ oid, oid ≠ "")
              (map (λ kv, AttributeDefinition.OID kv.2)
                   (Go.range o "LowestCommonOID" (ObjectDefinition.Attributes def)))).
Proof. unfold LowestCommonOID. cbv zeta. by rewrite collect_oids. Qed.

(** The parts shared by two or more OIDs. *)
Lemma rootOf_parts (x y : string) (l : list string) :
  ∃ parts, rootOf (x :: y :: l) = Go.Join parts "."
    ∧ (∀ oid, oid ∈ x :: y :: l → parts `prefix_of` Go.Split oid ".")
    ∧ (∀ c, (∀ oid, oid ∈ x :: y :: l → c `prefix_of` Go.Split oid ".") →
            c `prefix_of` parts).
Proof.
  eexists. split; [reflexivity|].
  split.
  - destruct (common_parts (Go.Split x ".") (y :: l) []) as (Hf & Hr & _).
    intros oid [->|Hin]%elem_of_cons; [apply Hf|by apply Hr].
  - intros c Hc.
    destruct (common_parts (Go.Split x ".") (y :: l) c) as (_ & _ & Hg).
    apply Hg.
    + apply Hc. by left.
    + intros oid Hin. apply Hc. by right.
Qed.

Lemma rootOf_Permutation (l l' : list string) : l' ≡ₚ l → rootOf l' = rootOf l.
Proof.
  intros Hp.
  destruct l as [|x [|y l]].
  - by apply Permutation_nil_r in Hp as ->.
  - by apply Permutation_singleton_r in Hp as ->.
  - destruct l' as [|x' [|y' l']].
    + by apply Permutation_nil_l in Hp.
    + by apply Permutation_singleton_l in Hp.
    + destruct (rootOf_parts x y l) as (parts & -> & Hpre & Hgr).
      destruct (rootOf_parts x' y' l') as (parts' & -> & Hpre' & Hgr').
      f_equal. apply prefix_antisym.
      * apply Hgr. intros oid Hin. apply Hpre'. by rewrite Hp.
      * apply Hgr'. intros oid Hin. apply Hpre. by rewrite <- Hp.
Qed.

(** A string that continues another after a dot, in parts. *)
Lemma prefix_Split (r oid : string) :
  oid = r ∨ (∃ rest, oid = r +:+ "." +:+ rest) →
  Go.Split r "." `prefix_of` Go.Split oid ".".
Proof.
  intros [->|[rest ->]]; [done|]. rewrite Split_app_dot. by eexists.
Qed.

Lemma Join_prefix (parts whole : list string) :
  parts `prefix_of` whole → parts ≠ [] →
  Go.Join whole "." = Go.Join parts "."
  ∨ ∃ rest, Go.Join whole "." = Go.Join parts "." +:+ "." +:+ rest.
Proof.
  intros [k ->] Hne. destruct k as [|z k].
  - left. by rewrite app_nil_r.
  - right. exists (Go.Join (z :: k) "."). by apply Join_app.
Qed.

(** X27.  The root LowestCommonOID finds does not depend on the order
    in which the map of attributes is ranged.  It is empty when no
    attribute has an OID.  Every OID of an attribute is the root
    itself or continues it after a dot, unless the root is empty;
    and the root is the longest such: it is, or continues after a
    dot, every string that all the OIDs are or continue after a
    dot. *)
Theorem LowestCommonOID_common (o o' : MapOrder) (def : ObjectDefinition.t) :
  let root := LowestCommonOID o def in
  let attrs := ObjectDefinition.Attributes def in
  LowestCommonOID o' def = root
  ∧ ((∀ name attr, attrs !! name = Some attr → AttributeDefinition.OID attr = "") →
     root = "")
  ∧ (∀ name attr, attrs !! name = Some attr → AttributeDefinition.OID attr ≠ "" →
       root = ""
       ∨ AttributeDefinition.OID attr = root
       ∨ ∃ rest, AttributeDefinition.OID attr = root +:+ "." +:+ rest)
  ∧ (∀ r,
       (∃ name attr, attrs !! name = Some attr ∧ AttributeDefinition.OID attr ≠ "") →
       (∀ name attr, attrs !! name = Some attr → AttributeDefinition.OID attr ≠ "" →
          AttributeDefinition.OID attr = r
          ∨ ∃ rest, AttributeDefinition.OID attr = r +:+ "." +:+ rest) →
       root = r ∨ ∃ rest, root = r +:+ "." +:+ rest).
Proof.
  cbv zeta. rewrite !LowestCommonOID_rootOf.
  pose proof (oids_spec o def) as Hoids.
  pose proof (oids_order o o' def) as Hperm.
  set (oids := filter _ (map _ (Go.range o _ _))) in *.
  split_and!.
  - by apply rootOf_Permutation.
  - intros Hnone. destruct oids as [|oid oids']; [done|].
    destruct (proj1 (Hoids oid) ltac:(by left)) as [Hne (name & attr & Hattr & <-)].
    by destruct Hne; apply (Hnone name attr).
  - intros name attr Hattr Hne.
    assert (Hin : AttributeDefinition.OID attr ∈ oids) by (apply Hoids; eauto).
    destruct oids as [|x [|y l]].
    + by apply elem_of_nil in Hin.
    + apply list_elem_of_singleton in Hin. right. by left.
    + destruct (rootOf_parts x y l) as (parts & -> & Hpre & _).
      destruct parts as [|p parts]; [by left|]. right.
      pose proof (Join_prefix (p :: parts) (Go.Split (AttributeDefinition.OID attr) ".")
                    (Hpre _ Hin) ltac:(done)) as Hj.
      by rewrite Join_Split in Hj.
  - intros r (name & attr & Hattr & Hne) Hall.
    assert (Hin : AttributeDefinition.OID attr ∈ oids) by (apply Hoids; eauto).
    assert (Hr : ∀ oid, oid ∈ oids → oid = r ∨ ∃ rest, oid = r +:+ "." +:+ rest).
    { intros oid (Hoid & name' & attr' & Hattr' & <-)%Hoids. by apply (Hall name'). }
    destruct oids as [|x [|y l]].
    + by apply elem_of_nil in Hin.
    + apply Hr. by left.
    + destruct (rootOf_parts x y l) as (parts & -> & _ & Hgr).
      assert (Hpre : Go.Split r "." `prefix_of` parts).
      { apply Hgr. intros oid Hoid. apply prefix_Split. by apply Hr. }
      pose proof (Join_prefix (Go.Split r ".") parts Hpre (Split_nonempty r)) as Hj.
      by rewrite Join_Split in Hj.
Qed.

(** *** The batches of doGet *)

Lemma chunksFuel_enough {A : Type} (fuel n : nat) (l : list A) :
  0 < n → length l ≤ fuel → chunksFuel fuel n l = chunks n l.
Proof.
  intros Hn. unfold chunks. revert l.
  induction fuel as [fuel IH] using lt_wf_ind. intros l Hlen.
  destruct l as [|x l].
  { destruct fuel; done. }
  destruct fuel as [|fuel]; [simpl in Hlen; lia|].
  cbn [length chunksFuel]. f_equal.
  assert (Hd : length (drop n (x :: l)) ≤ length l).
  { rewrite length_drop. simpl. lia. }
  simpl in Hlen. rewrite (IH fuel) by lia. symmetry. apply (IH (length l)); lia.
Qed.

Lemma chunks_cons {A : Type} (n : nat) (x : A) (l : list A) :
  0 < n → chunks n (x :: l) = take n (x :: l) :: chunks n (drop n (x :: l)).
Proof.
  intros Hn. unfold chunks at 1. cbn [length chunksFuel]. f_equal.
  apply chunksFuel_enough; [done|]. rewrite length_drop. simpl. lia.
Qed.

Lemma chunks_spec {A : Type} (n : nat) (l : list A) :
  0 < n →
  concat (chunks n l) = l ∧ Forall (λ b, 0 < length b ≤ n) (chunks n l).
Proof.
  intros Hn. remember (length l) as k eqn:Hk. revert l Hk.
  induction k as [k IH] using lt_wf_ind. intros l Hk.
  destruct l as [|x l]; [done|].
  rewrite chunks_cons by done.
  destruct (IH (length (drop n (x :: l)))) with (l := drop n (x :: l)) as [Hc Hall];
    [rewrite length_drop; simpl in *; lia|done|].
  split.
  - cbn [concat]. rewrite Hc. apply take_drop.
  - constructor; [|done]. rewrite length_take. simpl. lia.
Qed.

Lemma getLoop_chunks (fuel : nat)
    (get : nat → list string → list Gosnmp.SnmpPDU + string)
    (oids : list string) (maxOids i n : nat) (all : list Gosnmp.SnmpPDU) :
  0 < maxOids → length (drop i oids) < fuel →
  getLoop fuel get oids maxOids i n all
  = Some (askAll get (chunks maxOids (drop i oids)) n all).
Proof.
  intros Hmax. revert i n all.
  induction fuel as [|fuel IH]; intros i n all Hlen; [lia|].
  cbn [getLoop]. rewrite length_drop in Hlen. case_decide as Hi.
  - cbv zeta.
    assert (Htake : take ((if decide (length oids < i + maxOids)
                           then length oids else i + maxOids) - i) (drop i oids)
                    = take maxOids (drop i oids)).
    { case_decide as Hend.
      - rewrite !take_ge; [done|rewrite length_drop; lia..].
      - f_equal. lia. }
    rewrite Htake.
    destruct (drop i oids) as [|x rest] eqn:Hdrop.
    { apply (f_equal length) in Hdrop. rewrite length_drop in Hdrop.
      simpl in Hdrop. lia. }
    rewrite chunks_cons by done. cbn [askAll].
    destruct (get n (take maxOids (x :: rest))) as [vars|cause]; [|done].
    rewrite IH.
    + do 3 f_equal. rewrite <- Hdrop, drop_drop. done.
    + rewrite length_drop. lia.
  - rewrite drop_ge by lia. done.
Qed.

Lemma scalar_oids (l : list (string * AttributeDefinition.t)) (acc : list string) :
  foldl (λ oids kv,
           let oid := AttributeDefinition.OID kv.2 in
           let oid := if Go.HasSuffix oid ".0" then oid else oid +:+ ".0" in
           oids ++ [oid]) acc l
  = acc ++ map (λ kv, scalarOID (AttributeDefinition.OID kv.2)) l.
Proof.
  revert acc. induction l as [|kv l IH]; intros acc; [by rewrite app_nil_r|].
  cbn [foldl map]. rewrite IH. by rewrite <- app_assoc.
Qed.

Lemma doGet_askAll (a : Agent) (o : MapOrder) (conn : Session)
    (objDef : ObjectDefinition.t) :
  doGet a o conn objDef
  = Some (askAll (snmpGet a conn)
            (chunks (Z.to_nat (if decide (MaxOids a conn ≤ 0)%Z then 60%Z
                               else MaxOids a conn))
                    (map (λ kv, scalarOID (AttributeDefinition.OID kv.2))
                         (Go.range o "doGet" (ObjectDefinition.Attributes objDef))))
            0 []).
Proof.
  set (maxOids := Z.to_nat _).
  assert (Hmax : 0 < maxOids) by (unfold maxOids; case_decide; lia).
  unfold doGet. cbv zeta. rewrite scalar_oids, app_nil_l.
  case_decide as Hlen.
  - by destruct (map _ _).
  - fold maxOids. rewrite getLoop_chunks; [|done|rewrite drop_0; lia].
    by rewrite drop_0.
Qed.

(** X29.  doGet always returns.  It asks for the OID of every
    attribute, with the scalar instance .0 appended unless the OID
    ends in it, in the order of the map.  It asks in consecutive
    batches that together are the whole list, none empty and none
    longer than MaxOids (60 when MaxOids is not positive), one request
    after the other, and stops at the first request that fails; it
    returns the answers it has got, in order, and the error if any.
    Without attributes it asks nothing and returns no error. *)
Theorem doGet_batches (a : Agent) (o : MapOrder) (conn : Session)
    (objDef : ObjectDefinition.t) :
  let attrs := ObjectDefinition.Attributes objDef in
  let oids := map (λ kv, scalarOID (AttributeDefinition.OID kv.2))
                  (Go.range o "doGet" attrs) in
  let maxOids := Z.to_nat (if decide (MaxOids a conn ≤ 0)%Z then 60%Z
                           else MaxOids a conn) in
  doGet a o conn objDef
  = Some (askAll (snmpGet a conn) (chunks maxOids oids) 0 [])
  ∧ concat (chunks maxOids oids) = oids
  ∧ Forall (λ batch, 0 < length batch ≤ maxOids) (chunks maxOids oids)
  ∧ Forall (λ oid, Go.HasSuffix oid ".0" = true) oids
  ∧ (∀ name attr, attrs !! name = Some attr →
       scalarOID (AttributeDefinition.OID attr) ∈ oids)
  ∧ length oids = size attrs.
Proof.
  intros attrs oids maxOids.
  assert (Hmax : 0 < maxOids) by (unfold maxOids; case_decide; lia).
  destruct (chunks_spec maxOids oids Hmax) as [Hconcat Hall].
  split_and!; [|done|done| | |].
  - apply doGet_askAll.
  - unfold oids. apply Forall_forall. intros oid Hin.
    apply list_elem_of_In, in_map_iff in Hin as (kv & <- & _).
    unfold scalarOID.
    destruct (Go.HasSuffix (AttributeDefinition.OID kv.2) ".0") eqn:Hs; [done|].
    apply StringFacts.HasSuffix_app.
  - intros name attr Hattr. unfold oids.
    apply list_elem_of_In, in_map_iff. exists (name, attr). split; [done|].
    by apply list_elem_of_In, RangeFacts.elem_of_range.
  - unfold oids. rewrite length_map. unfold Go.range.
    rewrite (Go.range_perm o). apply length_map_to_list.
Qed.

(** *** Poll and the pool *)

Lemma Discard_closes (p : ConnectionPool) (h : string) (c : Session) :
  hasConn c = true → c ∈ closedConns (Discard p h c).2.
Proof.
  intros Hc. unfold Discard. cbv zeta.
  assert (Hin : c ∈ closedConns (closeConn p c)).
  { unfold closeConn. rewrite Hc. simpl. set_solver. }
  destruct (getPool (closeConn p c) h); [|done]. by case_decide.
Qed.

Lemma Put_keeps (p : ConnectionPool) (now : Go.Time) (h : string) (c : Session) :
  c ∈ idleOf (Put p now h c).2 h
  ∨ hasConn c = false
  ∨ c ∈ closedConns (Put p now h c).2.
Proof.
  assert (Hclose : hasConn c = false ∨ c ∈ closedConns (closeConn p c)).
  { unfold closeConn. destruct (hasConn c); [right|by left]. simpl. set_solver. }
  unfold Put, getPool.
  destruct (pools p !! h) as [dp|]; [|by right].
  case_decide as Hfull.
  - right. by case_decide.
  - left. unfold idleOf.
    case_decide; simpl; rewrite lookup_insert_eq; simpl;
      rewrite map_app; set_solver.
Qed.

(** X30.  Poll always returns or waits, and it waits only where Get
    waits, for a slot.  The slot that Get takes is given back on every
    path: after Poll every device has as many slots taken as before.
    When Get fails Poll returns that error and an empty result, and
    asks the agent nothing.  With a session it does a Get for a
    scalar object, a Walk for a table of a v1 device, a BulkWalk for
    any other, and returns the job's device and object, the varbinds
    received and the two clock readings.  When the operation fails
    Poll returns its error, with the hostname and the key of the
    object, and discards the session, which is closed; otherwise it
    returns no error and puts the session back, idle or closed. *)
Theorem Poll_releases_slot (a : Agent) (o : MapOrder) (p : ConnectionPool)
    (tGet tStart tEnd tPut : Go.Time) (ctxDone preferCtx : bool)
    (job : PollJob.t) (other : string) :
  let h := PollJob.Hostname job in
  let objDef := PollJob.ObjectDef job in
  let got := Get p tGet ctxDone preferCtx h (PollJob.DeviceConfig job) in
  let answer conn :=
    if isScalar objDef then doGet a o conn objDef
    else if decide (DeviceConfig.Version (PollJob.DeviceConfig job) = "1")
         then Some (doWalk a o conn objDef)
         else Some (doBulkWalk a o conn objDef) in
  ∃ r p',
    Poll a o p tGet tStart tEnd tPut ctxDone preferCtx job = Some (r, p')
    ∧ slotsOf p' other = slotsOf p other
    ∧ match got.1 with
      | GetBlocked => r = PollBlocked ∧ p' = got.2
      | GetError e =>
          r = PollReturned zeroRawPollResult (Some (ErrPoolGet h e)) ∧ p' = got.2
      | GetConn conn =>
          ∃ pdus err,
            answer conn = Some (pdus, err)
            ∧ r = PollReturned
                    {| Decoder.RawPollResult.Device := PollJob.Device job;
                       Decoder.RawPollResult.ObjectDef := objDef;
                       Decoder.RawPollResult.Varbinds := pdus;
                       Decoder.RawPollResult.CollectedAt := tEnd;
                       Decoder.RawPollResult.PollStartedAt := tStart |}
                    (ErrSnmp h (ObjectDefinition.Key objDef) <$> err)
            ∧ match err with
              | Some _ =>
                  p' = (Discard got.2 h conn).2
                  ∧ (hasConn conn = true → conn ∈ closedConns p')
              | None =>
                  p' = (Put got.2 tPut h conn).2
                  ∧ (conn ∈ idleOf p' h ∨ hasConn conn = false
                     ∨ conn ∈ closedConns p')
              end
      end.
Proof.
  intros h objDef got answer. subst got. unfold Poll. cbv zeta. fold h objDef.
  pose proof (PoolProperties.Get_slots p tGet ctxDone preferCtx h other
                (PollJob.DeviceConfig job)) as Hget.
  pose proof (PoolProperties.Get_slots p tGet ctxDone preferCtx h h
                (PollJob.DeviceConfig job)) as Hget'.
  cbv zeta in Hget, Hget'.
  destruct (Get p tGet ctxDone preferCtx h (PollJob.DeviceConfig job))
    as [[conn|e|] p1]; cbn [fst snd] in Hget, Hget' |- *.
  - destruct Hget as [_ Hother]. destruct Hget' as [[Hh _] _].
    fold (answer conn).
    assert (Hanswer : ∃ pdus err, answer conn = Some (pdus, err)).
    { unfold answer. destruct (isScalar _).
      - rewrite doGet_askAll. destruct (askAll _ _ _ _) as [pdus err]. by eexists _, _.
      - case_decide.
        + destruct (doWalk _ _ _ _) as [pdus err]. by eexists _, _.
        + destruct (doBulkWalk _ _ _ _) as [pdus err]. by eexists _, _. }
    destruct Hanswer as (pdus & err & Hans). rewrite Hans.
    destruct err as [e|].
    + pose proof (PoolProperties.Discard_slots p1 h other conn) as Hd.
      pose proof (PoolProperties.Discard_slots p1 h h conn) as Hd'.
      pose proof (Discard_closes p1 h conn) as Hc.
      cbv zeta in Hd, Hd'.
      destruct (Discard p1 h conn) as [[|] p2]; cbn [fst snd] in Hd, Hd', Hc |- *.
      * eexists _, _. split; [reflexivity|]. split.
        -- destruct (decide (other = h)) as [->|Hne].
           ++ destruct Hd' as [-> _]. lia.
           ++ destruct Hd as (_ & _ & ->); [|done]. by apply Hother.
        -- exists pdus, (Some e). by split_and!.
      * destruct Hd' as (_ & [Hb _] & _). destruct (Hb eq_refl) as [_ Hz]. lia.
    + pose proof (PoolProperties.Put_slots p1 tPut h other conn) as Hd.
      pose proof (PoolProperties.Put_slots p1 tPut h h conn) as Hd'.
      pose proof (Put_keeps p1 tPut h conn) as Hk.
      cbv zeta in Hd, Hd'.
      destruct (Put p1 tPut h conn) as [[|] p2]; cbn [fst snd] in Hd, Hd', Hk |- *.
      * eexists _, _. split; [reflexivity|]. split.
        -- destruct (decide (other = h)) as [->|Hne].
           ++ destruct Hd' as [-> _]. lia.
           ++ destruct Hd as (_ & _ & ->); [|done]. by apply Hother.
        -- exists pdus, None. by split_and!.
      * destruct Hd' as (_ & [Hb _] & _). destruct (Hb eq_refl) as [_ Hz]. lia.
  - eexists _, _. split; [reflexivity|]. split; [|done].
    destruct (decide (other = h)) as [->|Hne]; [apply (proj1 Hget')|by apply (proj2 Hget)].
  - eexists _, _. split; [reflexivity|]. split; [|done].
    destruct (decide (other = h)) as [->|Hne]; [apply (proj1 Hget')|by apply (proj2 Hget)].
Qed.

End PollerProperties.
